(** * The Code Balotta: citation graph analytics and query engine

    A shallow embedding of [the_code_balotta.py] and a verification of the
    properties its specification states about it.

    Python values are modelled as follows.
    - [str] is [string]; characters are the code points below 256.
    - [int] is [Z].
    - A call that may raise returns a [result]: [Return v] or [Raise e].
    - A [dict] is a [gmap]; a networkx [DiGraph] is a record of the node
      dictionary and the adjacency dictionary.
    - The library calls the module relies on ([int], [str.split],
      [datetime.fromisoformat], [relativedelta], [re.escape], [re.search],
      [str.format], [nx.compose], [edge_subgraph]) are modelled from their
      documented behaviour, each next to the function that uses it. *)

From Stdlib Require Import ZArith QArith Ascii String.
From stdpp Require Import gmap strings list fin_maps.

Local Open Scope Z_scope.

(** ** Results of calls that may raise *)

Inductive exn : Type :=
| ValueError
| IndexError
| KeyError
| OverflowError
| StopIteration
| SyntaxError
| NameError
| TypeError
| ReError.

Inductive result (A : Type) : Type :=
| Return (a : A)
| Raise (e : exn).

Arguments Return {A} a.
Arguments Raise {A} e.

#[global] Instance result_ret : MRet result := fun A a => Return a.
#[global] Instance result_bind : MBind result := fun A B f m =>
  match m with
  | Return a => f a
  | Raise e => Raise e
  end.
#[global] Instance result_fmap : FMap result := fun A B f m =>
  match m with
  | Return a => Return (f a)
  | Raise e => Raise e
  end.

Definition is_Return {A} (r : result A) : bool :=
  match r with Return _ => true | Raise _ => false end.

(** [for x in l: f x], collecting the results, stopping at the first raise. *)
Fixpoint mapR {A B} (f : A -> result B) (l : list A) : result (list B) :=
  match l with
  | [] => Return []
  | x :: l' => y ← f x; ys ← mapR f l'; Return (y :: ys)
  end.

(** ** Python strings *)

Module PyStr.

Definition chr (n : nat) : ascii := Ascii.ascii_of_nat n.
Definition ord (c : ascii) : nat := Ascii.nat_of_ascii c.

(** The double quote character. *)
Definition dquote : ascii := chr 34.
Definition backslash : ascii := chr 92.
Definition newline : ascii := chr 10.

(** [str.isspace] on one character. *)
Definition is_space (c : ascii) : bool :=
  let n := ord c in
  (((9 <=? n) && (n <=? 13)) || ((28 <=? n) && (n <=? 32))
   || (n =? 133) || (n =? 160))%nat.

Definition is_digit (c : ascii) : bool :=
  let n := ord c in ((48 <=? n) && (n <=? 57))%nat.

Definition digit_val (c : ascii) : Z := Z.of_nat (ord c) - 48.

Definition digit_chr (d : Z) : ascii := chr (Z.to_nat (48 + d)).

Definition is_upper (c : ascii) : bool :=
  let n := ord c in
  (((65 <=? n) && (n <=? 90))
   || ((192 <=? n) && (n <=? 222) && negb (n =? 215)))%nat.

Definition is_alpha_ascii (c : ascii) : bool :=
  let n := ord c in
  (((65 <=? n) && (n <=? 90)) || ((97 <=? n) && (n <=? 122)))%nat.

Definition lower_chr (c : ascii) : ascii :=
  if is_upper c then chr (ord c + 32) else c.

(** [s.lower()] *)
Fixpoint lower (s : string) : string :=
  match s with
  | EmptyString => EmptyString
  | String c s' => String (lower_chr c) (lower s')
  end.

Fixpoint drop (n : nat) (s : string) : string :=
  match n, s with
  | O, _ => s
  | S n', String _ s' => drop n' s'
  | S _, EmptyString => EmptyString
  end.

Fixpoint take (n : nat) (s : string) : string :=
  match n, s with
  | S n', String c s' => String c (take n' s')
  | _, _ => EmptyString
  end.

(** A slice bound as Python reads it: a negative bound counts from the end,
    and the bound is clamped to [0, len]. *)
Definition clamp_index (len : nat) (i : Z) : nat :=
  let j := if i <? 0 then i + Z.of_nat len else i in
  Z.to_nat (Z.min (Z.max j 0) (Z.of_nat len)).

(** [s[a:b]] *)
Definition slice (a b : Z) (s : string) : string :=
  let len := String.length s in
  let a' := clamp_index len a in
  let b' := clamp_index len b in
  take (b' - a') (drop a' s).

(** [s[:n]] for a length [n]. *)
Definition prefix_to (n : nat) (s : string) : string :=
  slice 0 (Z.of_nat n) s.

(** [s.replace(c, new)] for a one-character [c]. *)
Fixpoint replace_chr (c : ascii) (new : string) (s : string) : string :=
  match s with
  | EmptyString => EmptyString
  | String x s' =>
      if Ascii.eqb x c then new +:+ replace_chr c new s'
      else String x (replace_chr c new s')
  end.

(** [s.split(c)] for a one-character separator: empty pieces are kept. *)
Fixpoint split_on (c : ascii) (s : string) : list string :=
  match s with
  | EmptyString => [EmptyString]
  | String x s' =>
      if Ascii.eqb x c then EmptyString :: split_on c s'
      else match split_on c s' with
           | [] => [String x EmptyString]
           | p :: ps => String x p :: ps
           end
  end.

(** [s.split()]: the maximal runs of characters that are not white space.
    [cur] is the run being read, reversed. *)
Fixpoint split_ws_aux (cur : list ascii) (s : string) : list string :=
  let flush (rest : list string) :=
    match cur with
    | [] => rest
    | _ => string_of_list_ascii (rev cur) :: rest
    end in
  match s with
  | EmptyString => flush []
  | String c s' =>
      if is_space c then flush (split_ws_aux [] s')
      else split_ws_aux (c :: cur) s'
  end.

Definition split_ws (s : string) : list string := split_ws_aux [] s.

(** [sep.join(l)] *)
Definition join (sep : string) (l : list string) : string :=
  String.concat sep l.

Fixpoint lstrip (s : string) : string :=
  match s with
  | EmptyString => EmptyString
  | String c s' => if is_space c then lstrip s' else s
  end.

Fixpoint rstrip (s : string) : string :=
  match s with
  | EmptyString => EmptyString
  | String c s' =>
      match rstrip s' with
      | EmptyString => if is_space c then EmptyString else String c EmptyString
      | r => String c r
      end
  end.

Definition strip (s : string) : string := lstrip (rstrip s).

(** The digits of a decimal literal, with single underscores allowed between
    digits. [seen] tells whether the previous character was a digit. *)
Fixpoint int_digits (acc : Z) (seen : bool) (s : string) : option Z :=
  match s with
  | EmptyString => if seen then Some acc else None
  | String c s' =>
      if is_digit c then int_digits (10 * acc + digit_val c) true s'
      else if Ascii.eqb c "_" && seen then int_digits acc false s'
      else None
  end.

(** [int(s)]: white space around the literal is dropped, a sign may lead.
    (CPython's limit on the length of the literal is not modelled.) *)
Definition int (s : string) : result Z :=
  let of_opt (f : Z -> Z) (o : option Z) :=
    match o with Some z => Return (f z) | None => Raise ValueError end in
  match strip s with
  | String "+" r => of_opt id (int_digits 0 false r)
  | String "-" r => of_opt Z.opp (int_digits 0 false r)
  | t => of_opt id (int_digits 0 false t)
  end.

(** [s.startswith(p)] *)
Fixpoint startswith (s p : string) : bool :=
  match p, s with
  | EmptyString, _ => true
  | String a p', String b s' => Ascii.eqb a b && startswith s' p'
  | String _ _, EmptyString => false
  end.

(** [s.find(c)] for a one-character [c]: the index of the first [c] in [s],
    or [-1] when there is none. *)
Fixpoint find_chr (c : ascii) (s : string) : Z :=
  match s with
  | EmptyString => -1
  | String x s' =>
      if Ascii.eqb x c then 0
      else let i := find_chr c s' in if i <? 0 then -1 else i + 1
  end.

(** [s[0]] *)
Definition first_chr (s : string) : result ascii :=
  match s with
  | EmptyString => Raise IndexError
  | String c _ => Return c
  end.

(** The decimal digits of [n >= 0]; [fuel] bounds their number. *)
Fixpoint decimal_go (fuel : nat) (n : Z) : string :=
  match fuel with
  | O => EmptyString
  | S fuel' =>
      if n <? 10 then String (digit_chr n) EmptyString
      else decimal_go fuel' (n / 10) +:+ String (digit_chr (n mod 10)) EmptyString
  end.

Definition decimal (n : Z) : string :=
  decimal_go (S (Z.to_nat (Z.log2 n))) n.

(** [str(z)] for an [int]. *)
Definition str_of_int (z : Z) : string :=
  if z <? 0 then "-" +:+ decimal (- z) else decimal z.

Fixpoint zeros (n : nat) : string :=
  match n with
  | O => EmptyString
  | S n' => String "0" (zeros n')
  end.

(** ["%0<w>d" % z]: the digits, with zeros before them up to the width [w];
    the sign of a negative number counts in the width. *)
Definition format_0d (w : nat) (z : Z) : string :=
  if z <? 0 then
    let ds := decimal (- z) in
    "-" +:+ zeros (w - 1 - String.length ds) +:+ ds
  else
    let ds := decimal z in
    zeros (w - String.length ds) +:+ ds.

End PyStr.

(** ** Dates: [datetime] and [dateutil.relativedelta] *)

Module Calendar.

(** A [datetime] read from a date-only string: the time of day is midnight
    and stays so under the deltas used here, so only the date is kept. *)
Record date : Type := mkDate { year : Z; month : Z; day : Z }.

Definition MINYEAR : Z := 1.
Definition MAXYEAR : Z := 9999.
Definition MAXORDINAL : Z := 3652059.

Definition isleap (y : Z) : bool :=
  (y mod 4 =? 0) && (negb (y mod 100 =? 0) || (y mod 400 =? 0)).

Definition mdays (m : Z) : Z :=
  match m with
  | 1 => 31 | 2 => 28 | 3 => 31 | 4 => 30 | 5 => 31 | 6 => 30
  | 7 => 31 | 8 => 31 | 9 => 30 | 10 => 31 | 11 => 30 | 12 => 31
  | _ => 0
  end.

Definition days_in_month (y m : Z) : Z :=
  if (m =? 2) && isleap y then 29 else mdays m.

Definition days_before_month_tbl (m : Z) : Z :=
  match m with
  | 1 => 0 | 2 => 31 | 3 => 59 | 4 => 90 | 5 => 120 | 6 => 151
  | 7 => 181 | 8 => 212 | 9 => 243 | 10 => 273 | 11 => 304 | 12 => 334
  | _ => 0
  end.

Definition days_before_year (y : Z) : Z :=
  let y1 := y - 1 in
  y1 * 365 + y1 / 4 - y1 / 100 + y1 / 400.

Definition days_before_month (y m : Z) : Z :=
  days_before_month_tbl m + (if (2 <? m) && isleap y then 1 else 0).

Definition ymd2ord (d : date) : Z :=
  days_before_year (year d) + days_before_month (year d) (month d) + day d.

Definition DI400Y : Z := 146097.
Definition DI100Y : Z := 36524.
Definition DI4Y : Z := 1461.

(** [_ord2ymd] of the datetime module. *)
Definition ord2ymd (ordinal : Z) : date :=
  let n := ordinal - 1 in
  let n400 := n / DI400Y in
  let n := n mod DI400Y in
  let y := n400 * 400 + 1 in
  let n100 := n / DI100Y in
  let n := n mod DI100Y in
  let n4 := n / DI4Y in
  let n := n mod DI4Y in
  let n1 := n / 365 in
  let n := n mod 365 in
  let y := y + n100 * 100 + n4 * 4 + n1 in
  if (n1 =? 4) || (n100 =? 4) then mkDate (y - 1) 12 31
  else
    let leapyear := (n1 =? 3) && (negb (n4 =? 24) || (n100 =? 3)) in
    let m := Z.shiftr (n + 50) 5 in
    let preceding :=
      days_before_month_tbl m + (if (2 <? m) && leapyear then 1 else 0) in
    let '(m, preceding) :=
      if n <? preceding
      then (m - 1,
            preceding - (mdays (m - 1)
                         + (if (m - 1 =? 2) && leapyear then 1 else 0)))
      else (m, preceding) in
    mkDate y m (n - preceding + 1).

(** The range check of the [date] constructor. *)
Definition valid_date (d : date) : bool :=
  (MINYEAR <=? year d) && (year d <=? MAXYEAR)
  && (1 <=? month d) && (month d <=? 12)
  && (1 <=? day d) && (day d <=? days_in_month (year d) (month d)).

Definition all_digits (s : string) : bool :=
  forallb PyStr.is_digit (list_ascii_of_string s).

Definition digits_val (s : string) : Z :=
  fold_left (fun acc c => 10 * acc + PyStr.digit_val c)
            (list_ascii_of_string s) 0.

(** [datetime.fromisoformat] on a date-only string [YYYY-MM-DD].  A longer
    string carries a time of day after the tenth character; its grammar is
    outside this model, which reads the three precisions the module
    produces, and such a string is reported as not being in the format. *)
Definition fromisoformat (s : string) : result date :=
  let ys := PyStr.slice 0 4 s in
  let ms := PyStr.slice 5 7 s in
  let ds := PyStr.slice 8 10 s in
  if (String.length s =? 10)%nat
     && all_digits ys && all_digits ms && all_digits ds
     && String.eqb (PyStr.slice 4 5 s) "-"
     && String.eqb (PyStr.slice 7 8 s) "-"
  then
    let d := mkDate (digits_val ys) (digits_val ms) (digits_val ds) in
    if valid_date d then Return d else Raise ValueError
  else Raise ValueError.

(** [str(d)], that is ["%04d-%02d-%02d" % (year, month, day)]. *)
Definition isoformat (d : date) : string :=
  PyStr.format_0d 4 (year d) +:+ "-" +:+ PyStr.format_0d 2 (month d)
  +:+ "-" +:+ PyStr.format_0d 2 (day d).

(** [relativedelta(years=, months=, days=)] after its constructor has
    normalised the months into years ([_fix]). *)
Record relativedelta : Type := mkDelta { years : Z; months : Z; days : Z }.

Definition sign (x : Z) : Z := if x <? 0 then -1 else 1.

Definition fix_delta (y m d : Z) : relativedelta :=
  if 11 <? Z.abs m then
    let s := sign m in
    mkDelta (y + ((m * s) / 12) * s) (((m * s) mod 12) * s) d
  else mkDelta y m d.

Definition delta_years (y : Z) : relativedelta := fix_delta y 0 0.
Definition delta_months (m : Z) : relativedelta := fix_delta 0 m 0.
Definition delta_days (d : Z) : relativedelta := fix_delta 0 0 d.

(** [date.replace(year, month, day)]: the fields must fit a C [int], and
    then be a date of the calendar. *)
Definition replace (y m d : Z) : result date :=
  let r := mkDate y m d in
  if (y <? - 2 ^ 31) || (2 ^ 31 - 1 <? y) then Raise OverflowError
  else if valid_date r then Return r else Raise ValueError.

(** [date + timedelta(days=n)] *)
Definition add_days (dt : date) (n : Z) : result date :=
  if 999999999 <? Z.abs n then Raise OverflowError
  else
    let o := ymd2ord dt + n in
    if (0 <? o) && (o <=? MAXORDINAL) then Return (ord2ymd o)
    else Raise OverflowError.

(** [dt + delta] ([relativedelta.__radd__]): the years and months move the
    calendar fields, the day is cut to the length of the month reached, and
    the days are added last. *)
Definition add_delta (dt : date) (rd : relativedelta) : result date :=
  let y := year dt + years rd in
  let m := month dt in
  let '(y, m) :=
    if months rd =? 0 then (y, m)
    else
      let m := m + months rd in
      if 12 <? m then (y + 1, m - 12)
      else if m <? 1 then (y - 1, m + 12)
      else (y, m) in
  let d := Z.min (days_in_month y m) (day dt) in
  r ← replace y m d;
  add_days r (days rd).

End Calendar.

(** ** The duration resolver *)

(** Lines 113-117 of [find_cited_date]: the missing month and day are set
    to [01]. *)
Definition complete_date (citing_date : string) : string :=
  let datelen := String.length citing_date in
  if (datelen =? 7)%nat then citing_date +:+ "-01"
  else if (datelen =? 4)%nat then citing_date +:+ "-01-01"
  else citing_date.

(** Line 119: the texts of the numbers of the time span. *)
Definition timespan_items (timespan : string) : list string :=
  PyStr.split_on ":"
    (PyStr.replace_chr "P" ""
       (PyStr.slice 1 (Z.of_nat (String.length timespan) - 1)
          (PyStr.replace_chr "M" ":"
             (PyStr.replace_chr "Y" ":" timespan)))).

(** Line 120: the numbers, negated when the time span starts with [P]. *)
Definition timespan_times (timespan : string) : result (list Z) :=
  mapR (fun item =>
          c ← PyStr.first_chr timespan;
          n ← PyStr.int item;
          Return (if Ascii.eqb c "P" then - n else n))
       (timespan_items timespan).

(** Lines 122-128: the years are added, then the months and the days when
    the list has them; the [IndexError] of a missing entry is caught. *)
Definition add_times (citing_datetime : Calendar.date) (times : list Z)
  : result Calendar.date :=
  match times with
  | [] => Raise IndexError
  | t0 :: rest =>
      cited_date ← Calendar.add_delta citing_datetime (Calendar.delta_years t0);
      match rest with
      | [] => Return cited_date
      | t1 :: rest' =>
          cited_date ←
            Calendar.add_delta cited_date (Calendar.delta_months t1);
          match rest' with
          | [] => Return cited_date
          | t2 :: _ => Calendar.add_delta cited_date (Calendar.delta_days t2)
          end
      end
  end.

(** [find_cited_date(citing_date, timespan)] *)
Definition find_cited_date (citing_date timespan : string) : result string :=
  let datelen := String.length citing_date in
  let citing_date := complete_date citing_date in
  times ← timespan_times timespan;
  citing_datetime ← Calendar.fromisoformat citing_date;
  cited_date ← add_times citing_datetime times;
  Return (PyStr.prefix_to datelen (Calendar.isoformat cited_date)).

(** ** The graph model: networkx graphs *)

(** An attribute dictionary of a node or of an edge. *)
Abbreviation attrs := (gmap string string).

(** The graph classes a caller may pass; the module itself builds [DiGraph]s
    only.  (Multigraphs, whose adjacency carries edge keys, are not
    modelled.) *)
Inductive graph_class : Type := Graph | DiGraph.

#[global] Instance graph_class_eq_dec : EqDecision graph_class.
Proof. solve_decision. Defined.

(** A graph object: [g_node] is [G._node] and [g_adj] is [G._adj], flattened
    to the pairs [(u, v)].  An undirected graph holds an edge in both
    directions. *)
Record nxgraph : Type := mkGraph {
  g_class : graph_class;
  g_node : gmap string attrs;
  g_adj : gmap (string * string) attrs
}.

Module Nx.

(** [nx.DiGraph()] and [nx.Graph()] *)
Definition empty (c : graph_class) : nxgraph := mkGraph c ∅ ∅.

(** [n in G] *)
Definition has_node (G : nxgraph) (n : string) : bool :=
  bool_decide (is_Some (g_node G !! n)).

(** [d.update(new)]: the keys of [new] override. *)
Definition update (d new : attrs) : attrs := new ∪ d.

(** [G.add_node(n, **attr)] *)
Definition add_node (G : nxgraph) (n : string) (attr : attrs) : nxgraph :=
  mkGraph (g_class G)
    (<[n := update (default ∅ (g_node G !! n)) attr]> (g_node G))
    (g_adj G).

(** [G.add_edge(u, v, **attr)]: the end points become nodes when they are
    not yet, with no attribute. *)
Definition add_edge (G : nxgraph) (u v : string) (attr : attrs) : nxgraph :=
  let touch (n : string) (m : gmap string attrs) :=
    match m !! n with
    | Some _ => m
    | None => <[n := ∅]> m
    end in
  let dd := update (default ∅ (g_adj G !! (u, v))) attr in
  mkGraph (g_class G)
    (touch v (touch u (g_node G)))
    (match g_class G with
     | DiGraph => <[(u, v) := dd]> (g_adj G)
     | Graph => <[(v, u) := dd]> (<[(u, v) := dd]> (g_adj G))
     end).

(** [G.add_edges_from(ebunch)] for pairs without data. *)
Definition add_edges_from (G : nxgraph) (es : list (string * string)) : nxgraph :=
  fold_left (fun G e => add_edge G e.1 e.2 ∅) es G.

(** [G.edges()] of a directed graph. *)
Definition edges (G : nxgraph) : list (string * string) :=
  (map_to_list (g_adj G)).*1.

(** [G.edges(data=True)] of a directed graph. *)
Definition edges_data (G : nxgraph) : list (string * string * attrs) :=
  map_to_list (g_adj G).

(** [G.predecessors(n)] *)
Definition predecessors (G : nxgraph) (n : string) : list string :=
  omap (fun e : string * string =>
          if decide (e.2 = n) then Some e.1 else None) (edges G).

(** [G.successors(n)] *)
Definition successors (G : nxgraph) (n : string) : list string :=
  omap (fun e : string * string =>
          if decide (e.1 = n) then Some e.2 else None) (edges G).

(** [d[key]] *)
Definition getitem (d : attrs) (key : string) : result string :=
  match d !! key with
  | Some v => Return v
  | None => Raise KeyError
  end.

(** [G.nodes[n][key]] *)
Definition node_attr (G : nxgraph) (n key : string) : result string :=
  match g_node G !! n with
  | Some d => getitem d key
  | None => Raise KeyError
  end.

(** [nx.compose(G, H)]: a new graph of the class of [G] with the nodes and
    edges of both, the attributes of [H] taking precedence. *)
Definition compose (G H : nxgraph) : nxgraph :=
  let merge (a b : attrs) := Some (update a b) in
  mkGraph (g_class G)
    (union_with merge (g_node G) (g_node H))
    (union_with merge (g_adj G) (g_adj H)).

End Nx.

(** A Python scalar passed where the module converts with [int] or [str]. *)
Inductive pyscalar : Type :=
| PInt (z : Z)
| PStr (s : string).

(** [int(x)] *)
Definition py_int (x : pyscalar) : result Z :=
  match x with
  | PInt z => Return z
  | PStr s => PyStr.int s
  end.

(** [str(x)] *)
Definition py_str (x : pyscalar) : string :=
  match x with
  | PInt z => PyStr.str_of_int z
  | PStr s => s
  end.

(** ** Ingestion *)

(** One row of the loop of [process_citations]. *)
Definition process_row (data : nxgraph) (row : list string) : result nxgraph :=
  match row with
  | [citing; cited; creation; timespan] =>
      let data :=
        if Nx.has_node data citing then data
        else Nx.add_node data citing {["creation" := creation]} in
      data ←
        (if Nx.has_node data cited then Return data
         else
           cited_date ← find_cited_date creation timespan;
           Return (Nx.add_node data cited {["creation" := cited_date]}));
      Return (Nx.add_edge data citing cited {["timespan" := timespan]})
  | _ => Return data
  end.

Fixpoint process_rows (data : nxgraph) (rows : list (list string))
  : result nxgraph :=
  match rows with
  | [] => Return data
  | row :: rows' => data ← process_row data row; process_rows data rows'
  end.

(** [process_citations], on the rows the CSV reader yields for the file: the
    first row holds the column headings. *)
Definition process_citations (csv_rows : list (list string)) : result nxgraph :=
  let data := Nx.empty DiGraph in
  match csv_rows with
  | [] => Raise StopIteration
  | _heading :: rows => process_rows data rows
  end.

(** ** Analytics *)

(** [int(data.nodes[n]['creation'][0:4])] *)
Definition creation_year (data : nxgraph) (n : string) : result Z :=
  c ← Nx.node_attr data n "creation";
  PyStr.int (PyStr.slice 0 4 c).

(** The inner loop of [do_compute_impact_factor] over the predecessors. *)
Fixpoint count_citing (data : nxgraph) (year : Z) (preds : list string)
    (citing_cntr : nat) : result nat :=
  match preds with
  | [] => Return citing_cntr
  | citing :: preds' =>
      y ← creation_year data citing;
      count_citing data year preds'
        (if y =? year then S citing_cntr else citing_cntr)
  end.

(** The outer loop of [do_compute_impact_factor] over the DOIs; the state is
    the pair of counters. *)
Fixpoint impact_loop (data : nxgraph) (year : Z) (dois : list string)
    (cntrs : nat * nat) : result (nat * nat) :=
  match dois with
  | [] => Return cntrs
  | doi :: dois' =>
      if Nx.has_node data doi then
        citing_cntr ←
          count_citing data year (Nx.predecessors data doi) cntrs.1;
        doi_creation_year ← creation_year data doi;
        impact_loop data year dois'
          (citing_cntr,
           if (doi_creation_year =? year - 1) || (doi_creation_year =? year - 2)
           then S cntrs.2 else cntrs.2)
      else impact_loop data year dois' cntrs
  end.

(** [do_compute_impact_factor(data, dois, year)].  [None] is Python's [None];
    the quotient is the rational that Python's [/] rounds to a float. *)
Definition do_compute_impact_factor (data : nxgraph) (dois : list string)
    (year : pyscalar) : result (option Q) :=
  year ← py_int year;
  cntrs ← impact_loop data year dois (O, O);
  let '(citing_cntr, previous_years_dois_cntr) := cntrs in
  if (previous_years_dois_cntr =? 0)%nat then Return None
  else Return (Some (Z.of_nat citing_cntr # Pos.of_nat previous_years_dois_cntr)).

(** [len(set(a).intersection(set(b)))] *)
Definition common_count (a b : list string) : nat :=
  size ((list_to_set a : gset string) ∩ list_to_set b).

(** [do_get_co_citations(data, doi1, doi2)] *)
Definition do_get_co_citations (data : nxgraph) (doi1 doi2 : string) : nat :=
  if Nx.has_node data doi1 && Nx.has_node data doi2
  then common_count (Nx.predecessors data doi1) (Nx.predecessors data doi2)
  else O.

(** [do_get_bibliographic_coupling(data, doi1, doi2)] *)
Definition do_get_bibliographic_coupling (data : nxgraph) (doi1 doi2 : string)
  : nat :=
  if Nx.has_node data doi1 && Nx.has_node data doi2
  then common_count (Nx.successors data doi1) (Nx.successors data doi2)
  else O.

(** [start <= y <= end] on strings. *)
Definition str_between (lo hi y : string) : bool :=
  String.leb lo y && String.leb y hi.

(** The loop of [do_get_citation_network] that collects the eligible edges. *)
Fixpoint eligible_edges (data : nxgraph) (start end_ : string)
    (es : list (string * string)) : result (list (string * string)) :=
  match es with
  | [] => Return []
  | (from_node, to_node) :: es' =>
      c_from ← Nx.node_attr data from_node "creation";
      let from_node_year := PyStr.slice 0 4 c_from in
      c_to ← Nx.node_attr data to_node "creation";
      let to_node_year := PyStr.slice 0 4 c_to in
      rest ← eligible_edges data start end_ es';
      Return (if str_between start end_ from_node_year
                 && str_between start end_ to_node_year
              then (from_node, to_node) :: rest else rest)
  end.

(** [do_get_citation_network(data, start, end)] *)
Definition do_get_citation_network (data : nxgraph) (start end_ : pyscalar)
  : result nxgraph :=
  let start := py_str start in
  let end_ := py_str end_ in
  let result := Nx.empty DiGraph in
  if String.leb start end_
     && (String.length start =? String.length end_)%nat
     && (String.length end_ =? 4)%nat
  then
    eligible ← eligible_edges data start end_ (Nx.edges data);
    Return (Nx.add_edges_from result eligible)
  else Return result.

(** [do_merge_graphs(data, g1, g2)]; [None] is Python's [None]. *)
Definition do_merge_graphs (data : nxgraph) (g1 g2 : nxgraph) : option nxgraph :=
  if decide (g_class g1 = g_class g2) then Some (Nx.compose g1 g2)
  else None.

(** ** The query compiler *)

(** A string holding one double quote. *)
Definition dq : string := String PyStr.dquote EmptyString.

Module Re.

(** The characters [re.escape] puts a backslash before (Python 3.7 and
    later): [()[]{}?*+-|^$\.&~#] and the white space of ASCII. *)
Definition is_special (c : ascii) : bool :=
  existsb (Ascii.eqb c)
    (list_ascii_of_string "()[]{}?*+-|^$\.&~# "
     ++ map PyStr.chr [9; 10; 13; 11; 12]%nat).

(** [re.escape(s)] *)
Fixpoint escape (s : string) : string :=
  match s with
  | EmptyString => EmptyString
  | String c s' =>
      if is_special c then String PyStr.backslash (String c (escape s'))
      else String c (escape s')
  end.

End Re.

(** [escape_query_string(querystring)] *)
Definition escape_query_string (querystring : string) : string :=
  let parts := PyStr.split_on "*" querystring in
  let escstring :=
    fold_left (fun escstring part => escstring +:+ "*" +:+ Re.escape part)
              parts EmptyString in
  PyStr.slice 1 (Z.of_nat (String.length escstring)) escstring.

Definition operators : list string := ["and"; "or"; "not"].

(** [translate_query_string_for_search(query)] *)
Definition translate_query_string_for_search (query : string) : string :=
  let wordlist := PyStr.split_ws query in
  fold_left
    (fun finaleval word =>
       let word :=
         if bool_decide (word ∈ operators) then word
         else
           let word := escape_query_string (PyStr.lower word) in
           let word := "^" +:+ PyStr.replace_chr "*" ".*?" word +:+ "$" in
           "re.search(" +:+ dq +:+ word +:+ dq +:+ "," +:+ dq +:+ "{0}"
             +:+ dq +:+ ")" in
       finaleval +:+ " " +:+ word +:+ " ")
    wordlist EmptyString.

Definition comp_op : list string := ["<="; ">="; "=="; "!="; "<"; ">"].

(** The first loop of [translate_query_string_for_filter]: the positions
    where the placeholder goes, counting the placeholders already due. *)
Fixpoint filter_positions (i : nat) (wordlist : list string) : list nat :=
  match wordlist with
  | [] => []
  | el :: rest =>
      if bool_decide (el ∈ comp_op)
      then i :: filter_positions (S (S i)) rest
      else filter_positions (S i) rest
  end.

(** [l.insert(i, x)] *)
Definition list_insert_at {A} (i : nat) (x : A) (l : list A) : list A :=
  take i l ++ x :: drop i l.

(** The second loop: insert the placeholder and quote the operand, which
    must exist. *)
Fixpoint filter_inserts (insertlist : list nat) (wordlist : list string)
  : result (list string) :=
  match insertlist with
  | [] => Return wordlist
  | el :: rest =>
      let wordlist := list_insert_at el (dq +:+ "{0}" +:+ dq) wordlist in
      match wordlist !! (el + 2)%nat with
      | None => Raise IndexError
      | Some w =>
          filter_inserts rest (<[(el + 2)%nat := dq +:+ w +:+ dq]> wordlist)
      end
  end.

(** [translate_query_string_for_filter(query)] *)
Definition translate_query_string_for_filter (query : string) : result string :=
  let wordlist := PyStr.split_ws query in
  let insertlist := filter_positions 0 wordlist in
  wordlist ← filter_inserts insertlist wordlist;
  Return (PyStr.lower (PyStr.join " " wordlist)).

(** ** The host interpreter: [re.search], [str.format] and [eval]

    The module hands the compiled query to Python: [requery.format(value)]
    fills the placeholders and [eval] runs the text.  The functions of the
    module are stated over an interpreter interface; the instance below
    interprets the fragment of Python the two compilers emit. *)

Inductive pyvalue : Type :=
| VStr (s : string)
| VBool (b : bool)
| VNone
| VMatch.

(** [bool(v)] *)
Definition truthy (v : pyvalue) : bool :=
  match v with
  | VStr s => negb (String.eqb s EmptyString)
  | VBool b => b
  | VNone => false
  | VMatch => true
  end.

Class Interpreter : Type := {
  (** [template.format(value)] *)
  str_format : string -> string -> result string;
  (** [eval(source)] *)
  py_eval : string -> result pyvalue
}.

Module ReMatch.

(** A pattern of the fragment: anchors, and one-character atoms that may be
    starred.  [CAny] is the dot, which matches all but a newline. *)
Inductive atom : Type := CLit (c : ascii) | CAny.

Inductive item : Type :=
| IBol
| IEol
| IOne (a : atom)
| IStar (a : atom).

Definition atom_ok (a : atom) (c : ascii) : bool :=
  match a with
  | CLit x => Ascii.eqb x c
  | CAny => negb (Ascii.eqb c PyStr.newline)
  end.

Definition is_alnum (c : ascii) : bool :=
  PyStr.is_digit c || PyStr.is_alpha_ascii c.

(** Characters that have a meaning of their own in a pattern when they are
    not escaped and that the fragment does not interpret. *)
Definition is_meta (c : ascii) : bool :=
  existsb (Ascii.eqb c) (list_ascii_of_string "()[]{}|+?*").

(** Reads one atom off the pattern. *)
Definition parse_atom (p : string) : option (result (item * string)) :=
  match p with
  | EmptyString => None
  | String c p' =>
      if Ascii.eqb c "^" then Some (Return (IBol, p'))
      else if Ascii.eqb c "$" then Some (Return (IEol, p'))
      else if Ascii.eqb c "." then Some (Return (IOne CAny, p'))
      else if Ascii.eqb c PyStr.backslash then
        match p' with
        | EmptyString => Some (Raise ReError)
        | String e p'' =>
            if is_alnum e then Some (Raise ReError)
            else Some (Return (IOne (CLit e), p''))
        end
      else if is_meta c then Some (Raise ReError)
      else Some (Return (IOne (CLit c), p'))
  end.

(** [re.compile]: the items of the pattern; a star, lazy or not, binds to
    the atom before it. *)
Fixpoint compile (fuel : nat) (p : string) : result (list item) :=
  match fuel with
  | O => Return []
  | S fuel' =>
      match parse_atom p with
      | None => Return []
      | Some (Raise e) => Raise e
      | Some (Return (it, rest)) =>
          match it, rest with
          | IOne a, String "*" (String "?" rest') =>
              its ← compile fuel' rest'; Return (IStar a :: its)
          | IOne a, String "*" rest' =>
              its ← compile fuel' rest'; Return (IStar a :: its)
          | _, _ => its ← compile fuel' rest; Return (it :: its)
          end
      end
  end.

(** Does the pattern match a prefix of [s]?  [at_start] tells whether [s]
    is the whole subject. *)
Fixpoint match_here (p : list item) (at_start : bool) (s : string) : bool :=
  match p with
  | [] => true
  | IBol :: p' => at_start && match_here p' at_start s
  | IEol :: p' =>
      (String.eqb s EmptyString
       || String.eqb s (String PyStr.newline EmptyString))
      && match_here p' at_start s
  | IOne a :: p' =>
      match s with
      | String c s' => atom_ok a c && match_here p' false s'
      | EmptyString => false
      end
  | IStar a :: p' =>
      (fix star (at_start : bool) (s : string) : bool :=
         match_here p' at_start s
         || match s with
            | String c s' => atom_ok a c && star false s'
            | EmptyString => false
            end) at_start s
  end.

(** Tries every position of the subject. *)
Fixpoint search_from (p : list item) (at_start : bool) (s : string) : bool :=
  match_here p at_start s
  || match s with
     | String _ s' => search_from p false s'
     | EmptyString => false
     end.

(** [re.search(pattern, subject)]: a match object or [None]. *)
Definition search (pattern subject : string) : result pyvalue :=
  p ← compile (S (String.length pattern)) pattern;
  Return (if search_from p true subject then VMatch else VNone).

End ReMatch.

Module PyFormat.

(** [template.format(value)] with one positional argument, for templates
    whose fields are [{0}] or [{}] and whose other braces are doubled; a
    field with a conversion, a format or an accessor is outside the fragment
    and reported as a [ValueError].  [auto] is the state of the field
    numbering: [None] before the first field, [Some true] once [{}] was
    seen, [Some false] once [{0}] was seen. *)
Fixpoint format_aux (auto : option bool) (value : string) (t : string)
  : result string :=
  match t with
  | EmptyString => Return EmptyString
  | String "{" (String "{" t') =>
      r ← format_aux auto value t'; Return (String "{" r)
  | String "}" (String "}" t') =>
      r ← format_aux auto value t'; Return (String "}" r)
  | String "{" (String "}" t') =>
      match auto with
      | None => r ← format_aux (Some true) value t'; Return (value +:+ r)
      | Some true => Raise IndexError
      | Some false => Raise ValueError
      end
  | String "{" (String "0" (String "}" t')) =>
      match auto with
      | Some true => Raise ValueError
      | _ => r ← format_aux (Some false) value t'; Return (value +:+ r)
      end
  | String "{" _ => Raise ValueError
  | String "}" _ => Raise ValueError
  | String c t' => r ← format_aux auto value t'; Return (String c r)
  end.

Definition format (template value : string) : result string :=
  format_aux None value template.

End PyFormat.

Module PyEval.

Inductive cmpop : Type := Le | Ge | Eq | Ne | Lt | Gt.

Inductive token : Type :=
| TStr (s : string)
| TName (s : string)
| TOp (o : cmpop)
| TLParen
| TRParen
| TComma.

(** The expressions of the fragment: string literals, names, the two
    argument call, comparisons and the boolean connectives. *)
Inductive expr : Type :=
| EStr (s : string)
| EName (s : string)
| ECall2 (f : string) (a b : expr)
| ECmp (a : expr) (o : cmpop) (b : expr)
| ENot (e : expr)
| EAnd (a b : expr)
| EOr (a b : expr).

Definition is_name_start (c : ascii) : bool :=
  PyStr.is_alpha_ascii c || Ascii.eqb c "_".

Definition is_name_char (c : ascii) : bool :=
  is_name_start c || PyStr.is_digit c || Ascii.eqb c ".".

(** The body of a string literal opened by the quote [q]: the text up to the
    closing quote, with the escapes read, and what follows.  An escape the
    language does not know keeps its backslash; the numeric and named
    escapes are outside the fragment. *)
Fixpoint read_literal (q : ascii) (s : string) : result (string * string) :=
  match s with
  | EmptyString => Raise SyntaxError
  | String c s' =>
      if Ascii.eqb c q then Return (EmptyString, s')
      else if Ascii.eqb c PyStr.newline then Raise SyntaxError
      else if Ascii.eqb c PyStr.backslash then
        match s' with
        | EmptyString => Raise SyntaxError
        | String e s'' =>
            let simple (x : ascii) :=
              r ← read_literal q s''; Return (String x r.1, r.2) in
            if Ascii.eqb e PyStr.backslash then simple PyStr.backslash
            else if Ascii.eqb e PyStr.dquote then simple PyStr.dquote
            else if Ascii.eqb e "'" then simple "'"%char
            else if Ascii.eqb e "n" then simple PyStr.newline
            else if Ascii.eqb e "t" then simple (PyStr.chr 9)
            else if Ascii.eqb e "r" then simple (PyStr.chr 13)
            else if Ascii.eqb e "a" then simple (PyStr.chr 7)
            else if Ascii.eqb e "b" then simple (PyStr.chr 8)
            else if Ascii.eqb e "f" then simple (PyStr.chr 12)
            else if Ascii.eqb e "v" then simple (PyStr.chr 11)
            else if Ascii.eqb e PyStr.newline then read_literal q s''
            else if PyStr.is_digit e || Ascii.eqb e "x" || Ascii.eqb e "N"
                    || Ascii.eqb e "u" || Ascii.eqb e "U"
            then Raise SyntaxError
            else
              r ← read_literal q s'';
              Return (String PyStr.backslash (String e r.1), r.2)
        end
      else r ← read_literal q s'; Return (String c r.1, r.2)
  end.

Fixpoint read_name (s : string) : string * string :=
  match s with
  | String c s' =>
      if is_name_char c
      then let r := read_name s' in (String c r.1, r.2)
      else (EmptyString, s)
  | EmptyString => (EmptyString, EmptyString)
  end.

Fixpoint tokenize (fuel : nat) (s : string) : result (list token) :=
  match fuel with
  | O => Raise SyntaxError
  | S fuel' =>
      let more (t : token) (rest : string) :=
        ts ← tokenize fuel' rest; Return (t :: ts) in
      match s with
      | EmptyString => Return []
      | String c s' =>
          if Ascii.eqb c " " || Ascii.eqb c (PyStr.chr 9) then tokenize fuel' s'
          else if Ascii.eqb c PyStr.dquote || Ascii.eqb c "'" then
            r ← read_literal c s'; more (TStr r.1) r.2
          else if is_name_start c then
            let r := read_name s in more (TName r.1) r.2
          else if Ascii.eqb c "(" then more TLParen s'
          else if Ascii.eqb c ")" then more TRParen s'
          else if Ascii.eqb c "," then more TComma s'
          else
            match s with
            | String "<" (String "=" r) => more (TOp Le) r
            | String ">" (String "=" r) => more (TOp Ge) r
            | String "=" (String "=" r) => more (TOp Eq) r
            | String "!" (String "=" r) => more (TOp Ne) r
            | String "<" r => more (TOp Lt) r
            | String ">" r => more (TOp Gt) r
            | _ => Raise SyntaxError
            end
      end
  end.

Inductive level : Type := LOr | LAnd | LNot | LCmp | LAtom.

(** Adjacent string literals are one literal. *)
Fixpoint literal_run (acc : string) (ts : list token) : string * list token :=
  match ts with
  | TStr s :: ts' => literal_run (acc +:+ s) ts'
  | _ => (acc, ts)
  end.

(** The rest of a comparison chain: [a < b < c] is [a < b and b < c]. *)
Fixpoint cmp_tail (fuel : nat)
    (operand : list token -> result (expr * list token))
    (prev : expr) (o : cmpop) (ts : list token) : result (expr * list token) :=
  r ← operand ts;
  let '(e, ts') := r in
  match fuel, ts' with
  | S fuel', TOp o' :: ts'' =>
      r' ← cmp_tail fuel' operand e o' ts'';
      Return (EAnd (ECmp prev o e) r'.1, r'.2)
  | O, TOp _ :: _ => Raise SyntaxError
  | _, _ => Return (ECmp prev o e, ts')
  end.

(** The recursive descent parser, one case per level of precedence. *)
Fixpoint parse (fuel : nat) (lv : level) (ts : list token)
  : result (expr * list token) :=
  match fuel with
  | O => Raise SyntaxError
  | S fuel' =>
      match lv with
      | LOr =>
          r ← parse fuel' LAnd ts;
          match r.2 with
          | TName "or" :: ts' =>
              r' ← parse fuel' LOr ts'; Return (EOr r.1 r'.1, r'.2)
          | _ => Return r
          end
      | LAnd =>
          r ← parse fuel' LNot ts;
          match r.2 with
          | TName "and" :: ts' =>
              r' ← parse fuel' LAnd ts'; Return (EAnd r.1 r'.1, r'.2)
          | _ => Return r
          end
      | LNot =>
          match ts with
          | TName "not" :: ts' =>
              r ← parse fuel' LNot ts'; Return (ENot r.1, r.2)
          | _ => parse fuel' LCmp ts
          end
      | LCmp =>
          r ← parse fuel' LAtom ts;
          match r.2 with
          | TOp o :: ts' => cmp_tail fuel' (parse fuel' LAtom) r.1 o ts'
          | _ => Return r
          end
      | LAtom =>
          match ts with
          | TStr s :: ts' =>
              let r := literal_run s ts' in Return (EStr r.1, r.2)
          | TLParen :: ts' =>
              r ← parse fuel' LOr ts';
              match r.2 with
              | TRParen :: ts'' => Return (r.1, ts'')
              | _ => Raise SyntaxError
              end
          | TName f :: TLParen :: ts' =>
              if bool_decide (f ∈ ["and"; "or"; "not"]) then Raise SyntaxError
              else
                a ← parse fuel' LOr ts';
                match a.2 with
                | TComma :: ts'' =>
                    b ← parse fuel' LOr ts'';
                    match b.2 with
                    | TRParen :: ts''' => Return (ECall2 f a.1 b.1, ts''')
                    | _ => Raise SyntaxError
                    end
                | _ => Raise SyntaxError
                end
          | TName n :: ts' =>
              if bool_decide (n ∈ ["and"; "or"; "not"]) then Raise SyntaxError
              else Return (EName n, ts')
          | _ => Raise SyntaxError
          end
      end
  end.

Definition str_cmp (o : cmpop) (a b : string) : bool :=
  match o with
  | Le => String.leb a b
  | Ge => String.leb b a
  | Eq => String.eqb a b
  | Ne => negb (String.eqb a b)
  | Lt => String.ltb a b
  | Gt => String.ltb b a
  end.

Definition compare_values (o : cmpop) (a b : pyvalue) : result pyvalue :=
  match a, b with
  | VStr x, VStr y => Return (VBool (str_cmp o x y))
  | _, _ =>
      match o with
      | Eq =>
          Return (VBool match a, b with
                        | VNone, VNone => true
                        | VBool x, VBool y => Bool.eqb x y
                        | _, _ => false
                        end)
      | Ne =>
          Return (VBool match a, b with
                        | VNone, VNone => false
                        | VBool x, VBool y => negb (Bool.eqb x y)
                        | _, _ => true
                        end)
      | _ => Raise TypeError
      end
  end.

Fixpoint eval_expr (e : expr) : result pyvalue :=
  match e with
  | EStr s => Return (VStr s)
  | EName n =>
      if String.eqb n "True" then Return (VBool true)
      else if String.eqb n "False" then Return (VBool false)
      else if String.eqb n "None" then Return VNone
      else Raise NameError
  | ECall2 f a b =>
      if String.eqb f "re.search" then
        va ← eval_expr a;
        vb ← eval_expr b;
        match va, vb with
        | VStr p, VStr s => ReMatch.search p s
        | _, _ => Raise TypeError
        end
      else Raise NameError
  | ECmp a o b =>
      va ← eval_expr a; vb ← eval_expr b; compare_values o va vb
  | ENot a => va ← eval_expr a; Return (VBool (negb (truthy va)))
  | EAnd a b => va ← eval_expr a; if truthy va then eval_expr b else Return va
  | EOr a b => va ← eval_expr a; if truthy va then Return va else eval_expr b
  end.

(** [eval(source)] on the fragment. *)
Definition eval (source : string) : result pyvalue :=
  ts ← tokenize (S (String.length source)) (PyStr.strip source);
  r ← parse (10 * S (length ts)) LOr ts;
  match r.2 with
  | [] => eval_expr r.1
  | _ => Raise SyntaxError
  end.

End PyEval.

(** The interpreter of the fragment. *)
Definition fragment : Interpreter :=
  {| str_format := PyFormat.format; py_eval := PyEval.eval |}.

(** ** The query evaluator *)

(** [evaluate_query_string(requery, fieldvalue)]: whatever the substitution
    or the evaluation raises is caught, and the answer is then [False]. *)
Definition evaluate_query_string `{Interpreter} (requery fieldvalue : string)
  : bool :=
  match
    (source ← str_format requery fieldvalue;
     v ← py_eval source;
     Return (truthy v))
  with
  | Return result => result
  | Raise _ => false
  end.

(** A list comprehension with a condition that may raise. *)
Fixpoint filterR {A} (cond : A -> result bool) (l : list A) : result (list A) :=
  match l with
  | [] => Return []
  | x :: l' =>
      b ← cond x;
      rest ← filterR cond l';
      Return (if (b : bool) then x :: rest else rest)
  end.

(** [get_filtered_list(data, requery, field)] *)
Definition get_filtered_list `{Interpreter} (data : nxgraph)
    (requery field : string) : result (list (string * string)) :=
  if String.eqb field "citing" || String.eqb field "cited" then
    Return
      (filter (fun e : string * string =>
                 Is_true
                   (if String.eqb field "citing"
                    then evaluate_query_string requery (PyStr.lower e.1)
                    else evaluate_query_string requery (PyStr.lower e.2)))
              (Nx.edges data))
  else if String.eqb field "creation" then
    filterR (fun e : string * string =>
               c ← Nx.node_attr data e.1 "creation";
               Return (evaluate_query_string requery c))
            (Nx.edges data)
  else if String.eqb field "timespan" then
    fmap (M := result) (map fst)
      (filterR (fun e : string * string * attrs =>
                  t ← Nx.getitem e.2 "timespan";
                  Return (evaluate_query_string requery (PyStr.lower t)))
               (Nx.edges_data data))
  else Return [].

(** ** Graph objects and sub-graph views

    [G.edge_subgraph(edges)] does not build a graph: it returns a read-only
    view that filters [G] each time it is read.  Graph objects therefore live
    in a store, and a reference is either an object of the store or a view of
    another reference. *)

Inductive gref : Type :=
| GObj (l : positive)
| GView (parent : gref) (show_nodes : gset string)
        (show_edges : gset (string * string)).

Abbreviation store := (gmap positive nxgraph).

Module View.

(** What a view shows of its parent: the nodes of [ns], and the edges of
    [es] between them. *)
Definition restrict (ns : gset string) (es : gset (string * string))
    (G : nxgraph) : nxgraph :=
  mkGraph (g_class G)
    (filter (fun kv : string * attrs => kv.1 ∈ ns) (g_node G))
    (filter (fun kv : string * string * attrs =>
               kv.1.1 ∈ ns ∧ kv.1.2 ∈ ns ∧ kv.1 ∈ es) (g_adj G)).

(** The graph a reference stands for in the store [h]. *)
Fixpoint read (h : store) (r : gref) : option nxgraph :=
  match r with
  | GObj l => h !! l
  | GView parent ns es => restrict ns es <$> read h parent
  end.

(** The object of the store a reference reads from. *)
Fixpoint root (r : gref) : positive :=
  match r with
  | GObj l => l
  | GView parent _ _ => root parent
  end.

(** [G.edge_subgraph(edges)] *)
Definition edge_subgraph (G : gref) (edges : list (string * string)) : gref :=
  GView G (list_to_set (flat_map (fun e => [e.1; e.2]) edges))
        (list_to_set edges).

End View.

(** [do_search(data, query, field)]; [data] is a reference into the store
    [h], which the call leaves as it is. *)
Definition do_search `{Interpreter} (h : store) (data : gref)
    (query field : string) : result gref :=
  match View.read h data with
  | None => Raise TypeError
  | Some g =>
      let requery := translate_query_string_for_search query in
      filtered_edges ← get_filtered_list g requery field;
      Return (View.edge_subgraph data filtered_edges)
  end.

(** [do_filter_by_value(data, query, field)] *)
Definition do_filter_by_value `{Interpreter} (h : store) (data : gref)
    (query field : string) : result gref :=
  match View.read h data with
  | None => Raise TypeError
  | Some g =>
      requery ← translate_query_string_for_filter query;
      filtered_edges ← get_filtered_list g requery field;
      Return (View.edge_subgraph data filtered_edges)
  end.

(** [do_search_by_prefix(data, prefix, is_citing)]; [is_citing] is read for
    its truth value. *)
Definition do_search_by_prefix (h : store) (data : gref) (prefix : string)
    (is_citing : bool) : result gref :=
  match View.read h data with
  | None => Raise TypeError
  | Some g =>
      let slashpos := Z.of_nat (String.length prefix) in
      let filtered_edges :=
        filter (fun e : string * string =>
                  Is_true
                    ((is_citing && PyStr.startswith e.1 prefix
                      && (PyStr.find_chr "/" e.1 =? slashpos))
                     || (negb is_citing && PyStr.startswith e.2 prefix
                         && (PyStr.find_chr "/" e.2 =? slashpos))))
               (Nx.edges g) in
      Return (View.edge_subgraph data filtered_edges)
  end.

(** * Specification vocabulary

    The notions the properties below are stated with. *)

Fixpoint all_range (P : Z -> bool) (lo : Z) (len : positive) : bool :=
  match len with
  | xH => P lo
  | xO p => all_range P lo p && all_range P (lo + Z.pos p) p
  | xI p => P lo && all_range P (lo + 1) p && all_range P (lo + 1 + Z.pos p) p
  end.

(** A numeral: one digit or more. *)
Definition numeral (s : string) : bool :=
  negb (String.eqb s EmptyString) && Calendar.all_digits s.

(** A component that may be missing: a numeral when it is there. *)
Definition numeral_opt (o : option string) : bool :=
  from_option numeral true o.

(** The descriptor with the given direction mark and numerals of years,
    months and days. *)
Definition descriptor (neg : bool) (ys : string) (ms ds : option string)
  : string :=
  (if neg then "-" else EmptyString)
  +:+ String "P" (ys +:+ String "Y"
       (from_option (fun m => m +:+ "M") EmptyString ms
        +:+ from_option (fun d => d +:+ "D") EmptyString ds)).

(** The descriptor of the opposite direction. *)
Definition invert (timespan : string) : string :=
  match timespan with
  | String "-" rest => rest
  | _ => "-" +:+ timespan
  end.

(** The number the resolver adds for a numeral of value [v]: negated
    unless the descriptor starts with the minus mark. *)
Definition signed (neg : bool) (v : Z) : Z := if neg then v else - v.

(** The precisions: the number of characters kept of the text of a date,
    the fields cut off being 1. *)
Definition precision_of (n : nat) (d : Calendar.date) : Prop :=
  n = 10%nat
  \/ (n = 7%nat /\ Calendar.day d = 1)
  \/ (n = 4%nat /\ Calendar.day d = 1 /\ Calendar.month d = 1).

(** The month count of a date: months since the year 0. *)
Definition month_index (d : Calendar.date) : Z := 12 * Calendar.year d + (Calendar.month d - 1).

(** The date of a month count and a day. *)
Definition of_month_index (i dd : Z) : Calendar.date :=
  Calendar.mkDate (i / 12) (i mod 12 + 1) dd.

(** The number of days of the month with the month count [i]. *)
Definition month_length (i : Z) : Z :=
  Calendar.days_in_month (i / 12) (i mod 12 + 1).

(** The years the resolver adds for a well-formed descriptor. *)
Definition step_years (neg : bool) (ys : string) : Z :=
  signed neg (Calendar.digits_val ys).

(** The months it adds: the second number of the descriptor, whatever its
    letter, so that a number of days that follows the years directly counts
    as months. *)
Definition step_months (neg : bool) (ms ds : option string) : Z :=
  signed neg match ms, ds with
             | Some m, _ => Calendar.digits_val m
             | None, Some d => Calendar.digits_val d
             | None, None => 0
             end.

(** The days it adds: the third number of the descriptor. *)
Definition step_days (neg : bool) (ms ds : option string) : Z :=
  signed neg match ms, ds with
             | Some _, Some d => Calendar.digits_val d
             | _, _ => 0
             end.

(** No step cuts the day, on the way there and on the way back, and the
    step in days stays within its month: the date reached is within the
    years 1 to 9999; the day of the reference date exists in the month the
    years lead to and in the month the months lead to; the day reached lies
    in that month; and the day reached exists in the month the years lead
    back to and in the month of the reference date. *)
Definition within_months (dt : Calendar.date) (a b d : Z) : Prop :=
  12 <= month_index dt + 12 * a + b <= 119999
  /\ Calendar.day dt <= month_length (month_index dt + 12 * a)
  /\ Calendar.day dt <= month_length (month_index dt + 12 * a + b)
  /\ 1 <= Calendar.day dt + d <= month_length (month_index dt + 12 * a + b)
  /\ Calendar.day dt + d <= month_length (month_index dt + b)
  /\ Calendar.day dt + d <= month_length (month_index dt).

(** A step in days alone, which may leave the month: no years, no months,
    and a date reached within the calendar. *)
Definition days_alone (dt : Calendar.date) (a b d : Z) : Prop :=
  a = 0 /\ b = 0
  /\ 1 <= Calendar.ymd2ord dt + d <= Calendar.MAXORDINAL.

(** The step keeps the fields that the precision cuts off: no days unless
    the precision is the day, and whole years when it is the year. *)
Definition precision_kept (n : nat) (b d : Z) : Prop :=
  (n <> 10%nat -> d = 0) /\ (n = 4%nat -> b mod 12 = 0).

(** The invariant networkx keeps: the end points of an edge are nodes. *)
Definition well_formed (G : nxgraph) : Prop :=
  forall u v, is_Some (g_adj G !! (u, v)) ->
    is_Some (g_node G !! u) /\ is_Some (g_node G !! v).

(** The data model: every node has a [creation] whose first four characters
    read as an integer. *)
Definition dated (G : nxgraph) : Prop :=
  forall n, is_Some (g_node G !! n) -> is_Return (creation_year G n) = true.

(** Every node has a [creation] attribute. *)
Definition created (G : nxgraph) : Prop :=
  forall n a, g_node G !! n = Some a -> is_Some (a !! "creation").

(** What ingestion keeps true of the graph it builds. *)
Definition ingested (G : nxgraph) : Prop :=
  well_formed G /\ created G /\ g_class G = DiGraph.

(** The number of elements of [l] that satisfy [p]. *)
Definition count_if {A} (p : A -> bool) (l : list A) : nat :=
  length (List.filter p l).

(** Is the creation year of the node [n] the year [y]? *)
Definition year_is (data : nxgraph) (n : string) (y : Z) : bool :=
  match creation_year data n with
  | Return z => z =? y
  | Raise _ => false
  end.

(** The citation edges into a document of [dois] whose citing document was
    created in the year [y]. *)
Definition citations_in_year (data : nxgraph) (dois : list string) (y : Z)
  : nat :=
  count_if (fun e : string * string =>
              bool_decide (e.2 ∈ dois) && year_is data e.1 y)
           (Nx.edges data).

(** The documents of [dois] in the graph created in one of the two years
    before [y]. *)
Definition published_before (data : nxgraph) (dois : list string) (y : Z)
  : nat :=
  count_if (fun doi => Nx.has_node data doi
                       && (year_is data doi (y - 1) || year_is data doi (y - 2)))
           dois.

(** The citations received in the year by one document. *)
Definition cited_in_year (data : nxgraph) (year : Z) (doi : string) : nat :=
  count_if (fun e : string * string =>
              bool_decide (e.2 = doi) && year_is data e.1 year)
           (Nx.edges data).

(** Is the edge within the window?  The years are the first four characters
    of the [creation] of the end points, compared as strings. *)
Definition in_window (data : nxgraph) (start end_ : string)
    (e : string * string) : Prop :=
  exists c_from c_to,
    Nx.node_attr data e.1 "creation" = Return c_from
    /\ Nx.node_attr data e.2 "creation" = Return c_to
    /\ str_between start end_ (PyStr.slice 0 4 c_from) = true
    /\ str_between start end_ (PyStr.slice 0 4 c_to) = true.

(** The value of the field that [get_filtered_list] feeds to the predicate
    for the edge [e]. *)
Definition field_value (data : nxgraph) (field : string)
    (e : string * string) : result string :=
  if String.eqb field "citing" then Return (PyStr.lower e.1)
  else if String.eqb field "cited" then Return (PyStr.lower e.2)
  else if String.eqb field "creation" then Nx.node_attr data e.1 "creation"
  else if String.eqb field "timespan" then
    match g_adj data !! e with
    | Some a => PyStr.lower <$> Nx.getitem a "timespan"
    | None => Raise KeyError
    end
  else Raise KeyError.

(** The predicate holds of a value: the substitution and the evaluation
    succeed, and the value computed counts as true. *)
Definition holds `{Interpreter} (requery value : string) : Prop :=
  exists source v,
    str_format requery value = Return source
    /\ py_eval source = Return v /\ truthy v = true.


(** The end points of a list of edges. *)
Definition endpoints (L : list (string * string)) : gset string :=
  list_to_set (flat_map (fun e => [e.1; e.2]) L).

(** The sub-graph of [g] induced by the edges [L]: the edges of [L] with
    their attributes, and their end points with theirs. *)
Definition induced_by (L : list (string * string)) (g v : nxgraph) : Prop :=
  (forall e, g_adj v !! e = if bool_decide (e ∈ L) then g_adj g !! e else None)
  /\ (forall n, g_node v !! n
               = if bool_decide (n ∈ endpoints L) then g_node g !! n else None).

(** The list of the edges a query matches. *)
Definition matching_edges `{Interpreter} (search : bool) (g : nxgraph)
    (query field : string) (L : list (string * string)) : Prop :=
  if search then
    get_filtered_list g (translate_query_string_for_search query) field
    = Return L
  else
    exists requery,
      translate_query_string_for_filter query = Return requery
      /\ get_filtered_list g requery field = Return L.


(** The [creation] of the node [n] in the graph a reference stands for. *)
Definition creation_in (h : store) (r : gref) (n : string)
  : option (result string) :=
  (fun g => Nx.node_attr g n "creation") <$> View.read h r.

(** Does the whole of [s] match the glob [p]?  A star stands for any run of
    characters, the empty one too; any other character stands for itself. *)
Fixpoint glob_match (p s : string) : bool :=
  match p with
  | EmptyString => String.eqb s EmptyString
  | String c p' =>
      if Ascii.eqb c "*" then
        (fix star (s : string) : bool :=
           glob_match p' s
           || match s with
              | String _ s' => star s'
              | EmptyString => false
              end) s
      else
        match s with
        | String x s' => Ascii.eqb c x && glob_match p' s'
        | EmptyString => false
        end
  end.

(** The characters of plain identifiers: the digits and the lower case
    letters of ASCII. *)
Definition plain_chr (c : ascii) : bool :=
  let n := PyStr.ord c in
  (((48 <=? n) && (n <=? 57)) || ((97 <=? n) && (n <=? 122)))%nat.

(** A plain value: plain characters only. *)
Definition plain (s : string) : bool :=
  forallb plain_chr (list_ascii_of_string s).

(** A plain search term: plain characters and stars. *)
Definition plain_term (s : string) : bool :=
  forallb (fun c => plain_chr c || Ascii.eqb c "*") (list_ascii_of_string s).

(** A search term of letters, digits and stars. *)
Definition search_term (s : string) : bool :=
  negb (String.eqb s EmptyString)
  && forallb (fun c => ReMatch.is_alnum c || Ascii.eqb c "*")
             (list_ascii_of_string s).

(** The records of the examples: a heading and citations. *)
Definition sample_rows : list (list string) :=
  [ ["citing"; "cited"; "creation"; "timespan"];
    ["a"; "b"; "2021-03"; "P1Y"];
    ["c"; "b"; "2021"; "P1Y1M"];
    ["b"; "d"; "2020-03"; "P2Y"] ].

(** The graph ingested from the sample rows. *)
Definition sample_graph : nxgraph :=
  match process_citations sample_rows with
  | Return g => g
  | Raise _ => Nx.empty DiGraph
  end.

(** The store of the examples: the sample graph is the object 1. *)
Definition sample_store : store := {[ 1%positive := sample_graph ]}.

(** The store after [G.add_node("a", creation="1999")] on the sample
    graph. *)
Definition sample_store_mutated : store :=
  <[ 1%positive := Nx.add_node sample_graph "a" {["creation" := "1999"]} ]>
    sample_store.



(** The graph of the search examples: the documents cite [z]. *)
Definition search_graph : nxgraph :=
  Nx.add_edges_from (Nx.empty DiGraph)
    [ ("ab", "z"); ("abc", "z"); ("abxyz", "z"); ("xab", "z");
      ("ac", "z"); ("abbbc", "z"); ("abcd", "z") ].

(** The store that holds it. *)
Definition search_store : store := {[ 1%positive := search_graph ]}.

(** A row of the right number of fields. *)
Definition four_fields (row : list string) : bool :=
  (length row =? 4)%nat.

(** The shape of an ingested graph: a directed graph whose nodes carry a
    [creation] and nothing else, and whose edges join nodes and carry a
    [timespan] and nothing else. *)
Definition ingested_shape (G : nxgraph) : Prop :=
  g_class G = DiGraph
  /\ (forall n a, g_node G !! n = Some a -> exists c, a = {["creation" := c]})
  /\ (forall u v a, g_adj G !! (u, v) = Some a ->
        (exists t, a = {["timespan" := t]})
        /\ is_Some (g_node G !! u) /\ is_Some (g_node G !! v)).

(** A graph none of whose nodes and edges carries an attribute. *)
Definition bare (G : nxgraph) : Prop :=
  (forall n a, g_node G !! n = Some a -> a = ∅)
  /\ (forall e a, g_adj G !! e = Some a -> a = ∅).

(** The bounds of a window the time-window function accepts. *)
Definition window_ok (start end_ : pyscalar) : bool :=
  String.leb (py_str start) (py_str end_)
  && (String.length (py_str start) =? 4)%nat
  && (String.length (py_str end_) =? 4)%nat.

(** The text of an identifier before its first slash, when it has one. *)
Fixpoint before_slash (s : string) : option string :=
  match s with
  | EmptyString => None
  | String c s' =>
      if Ascii.eqb c "/" then Some EmptyString
      else String c <$> before_slash s'
  end.

(** The end point of an edge the prefix is compared with. *)
Definition searched_end (is_citing : bool) (e : string * string) : string :=
  if is_citing then e.1 else e.2.

(** The graph of the prefix examples. *)
Definition prefix_graph : nxgraph :=
  Nx.add_edges_from (Nx.empty DiGraph)
    [ ("10.1/a", "10.2/b"); ("10.1/c/d", "10.1/a"); ("10.11/e", "10.2/b");
      ("x", "10.1/a") ].

(** The store that holds it. *)
Definition prefix_store : store := {[ 1%positive := prefix_graph ]}.

(** The value of a component that may be missing is zero. *)
Definition zero_opt (o : option string) : Prop :=
  from_option Calendar.digits_val 0 o = 0.

(** The date a step of [a] years reaches: the year moves, and the day is
    cut to the length of the month in the year reached. *)
Definition years_later (dt : Calendar.date) (a : Z) : Calendar.date :=
  Calendar.mkDate (Calendar.year dt + a) (Calendar.month dt)
    (Z.min (Calendar.days_in_month (Calendar.year dt + a) (Calendar.month dt))
           (Calendar.day dt)).

(** A creation date of the data model: one of the three precisions, with a
    year that reads as an integer. *)
Definition creation_ok (creation : string) : Prop :=
  String.length creation ∈ [4; 7; 10]%nat
  /\ is_Return (PyStr.int (PyStr.slice 0 4 creation)) = true.

(** Escaping character by character: a star is kept, any other character
    that has a meaning in a pattern gets a backslash. *)
Fixpoint escape_but_stars (s : string) : string :=
  match s with
  | EmptyString => EmptyString
  | String c s' =>
      if Ascii.eqb c "*" then String "*" (escape_but_stars s')
      else if Re.is_special c
      then String PyStr.backslash (String c (escape_but_stars s'))
      else String c (escape_but_stars s')
  end.

(** The placeholder of the filter compiler, in quotes. *)
Definition placeholder : string := dq +:+ "{0}" +:+ dq.

(** The filter compiler in one pass: the placeholder goes before each
    comparison operator, and the word after an operator is put in quotes
    ([quote] tells whether the word before was an operator). *)
Fixpoint placed (quote : bool) (wordlist : list string) : list string :=
  match wordlist with
  | [] => []
  | w :: rest =>
      let w' := if quote then dq +:+ w +:+ dq else w in
      if bool_decide (w ∈ comp_op)
      then placeholder :: w' :: placed true rest
      else w' :: placed false rest
  end.

(** Is the last word a comparison operator? *)
Definition ends_with_operator (wordlist : list string) : bool :=
  match last wordlist with
  | Some w => bool_decide (w ∈ comp_op)
  | None => false
  end.

(** The printable characters of ASCII but the double quote, the backslash
    and the braces. *)
Definition text_chr (c : ascii) : bool :=
  let n := PyStr.ord c in
  ((32 <=? n) && (n <=? 126))%nat
  && negb (Ascii.eqb c PyStr.dquote) && negb (Ascii.eqb c PyStr.backslash)
  && negb (Ascii.eqb c "{") && negb (Ascii.eqb c "}").

(** A text of such characters. *)
Definition text (s : string) : bool :=
  forallb text_chr (list_ascii_of_string s).

(** A word of such characters: not empty, and without a space. *)
Definition text_word (s : string) : bool :=
  negb (String.eqb s EmptyString)
  && forallb (fun c => text_chr c && negb (Ascii.eqb c " "))
             (list_ascii_of_string s).

(** The comparison an operator of the filter language stands for. *)
Definition operator_of (op : string) : option PyEval.cmpop :=
  if String.eqb op "<=" then Some PyEval.Le
  else if String.eqb op ">=" then Some PyEval.Ge
  else if String.eqb op "==" then Some PyEval.Eq
  else if String.eqb op "!=" then Some PyEval.Ne
  else if String.eqb op "<" then Some PyEval.Lt
  else if String.eqb op ">" then Some PyEval.Gt
  else None.

(** The truth value of two truth values joined by [and] or by [or]. *)
Definition joined (c : string) (b1 b2 : bool) : bool :=
  if String.eqb c "and" then b1 && b2 else b1 || b2.

(** The predicate holds of the value of the field of the edge. *)
Definition selects `{Interpreter} (g : nxgraph) (requery field : string)
    (e : string * string) : Prop :=
  exists value, field_value g field e = Return value /\ holds requery value.



(** ** Auxiliary notions of the proofs *)

(** What is checked of every ordinal of the first cycle of 400 years: its
    date is valid, lies in the cycle, and has that ordinal. *)
Definition ord_cycle_ok (o : Z) : bool :=
  let d := Calendar.ord2ymd o in
  Calendar.valid_date d && (Calendar.year d <=? 400) && ((145731 <? o) || (Calendar.year d <=? 399))
  && (Calendar.ymd2ord d =? o).

(** What is checked of every day of a year of the first cycle: the ordinal
    of a valid date leads back to the date. *)
Definition ymd_cycle_ok (y : Z) : bool :=
  all_range (fun m =>
    all_range (fun d =>
      let dt := Calendar.mkDate y m d in
      negb (Calendar.valid_date dt)
      || (match Calendar.ord2ymd (Calendar.ymd2ord dt) with
          | Calendar.mkDate y' m' d' => (y' =? y) && (m' =? m) && (d' =? d)
          end && (1 <=? Calendar.ymd2ord dt) && (Calendar.ymd2ord dt <=? 146097))) 1 31) 1 12.

(** Moving a date by [q] cycles of 400 years. *)
Definition shift_cycles (q : Z) (d : Calendar.date) : Calendar.date :=
  Calendar.mkDate (Calendar.year d + 400 * q) (Calendar.month d) (Calendar.day d).

(** The four digits of a year and the two digits of a month or day, as
    [%04d] and [%02d] write them. *)
Definition fmt4_ok (n : Z) : bool :=
  match PyStr.format_0d 4 n with
  | String a (String b (String c (String d EmptyString))) =>
      PyStr.is_digit a && PyStr.is_digit b && PyStr.is_digit c && PyStr.is_digit d
      && (PyStr.digit_val a * 1000 + PyStr.digit_val b * 100 + PyStr.digit_val c * 10
          + PyStr.digit_val d =? n)
  | _ => false
  end.

Definition fmt2_ok (n : Z) : bool :=
  match PyStr.format_0d 2 n with
  | String a (String b EmptyString) =>
      PyStr.is_digit a && PyStr.is_digit b && (PyStr.digit_val a * 10 + PyStr.digit_val b =? n)
  | _ => false
  end.

(** [s[:-1]] *)
Fixpoint drop_last (s : string) : string :=
  match s with
  | EmptyString => EmptyString
  | String c s' =>
      match s' with
      | EmptyString => EmptyString
      | _ => String c (drop_last s')
      end
  end.

(** The items of the pattern of a glob. *)
Fixpoint items_of (w : string) : list ReMatch.item :=
  match w with
  | EmptyString => []
  | String c w' =>
      (if Ascii.eqb c "*" then ReMatch.IStar ReMatch.CAny else ReMatch.IOne (ReMatch.CLit c)) :: items_of w'
  end.

(** The text of the pattern after the anchor. *)
Definition pattern_body (w : string) : string :=
  PyStr.replace_chr "*" ".*?" w +:+ "$".

(** The pattern of a plain term. *)
Definition pattern_of (w : string) : string := "^" +:+ pattern_body w.

(** The text of the call the search compiler emits for a pattern. *)
Definition call_text (pat arg : string) : string :=
  "re.search(" +:+ dq +:+ pat +:+ dq +:+ "," +:+ dq +:+ arg +:+ dq +:+ ")".

(** The characters of a search term: letters, digits and the star. *)
Definition term_chr (c : ascii) : bool :=
  ReMatch.is_alnum c || Ascii.eqb c "*".

(** The characters that stand for themselves in a format template and in a
    string literal. *)
Definition safe_chr (c : ascii) : bool :=
  negb (Ascii.eqb c "{") && negb (Ascii.eqb c "}")
  && negb (Ascii.eqb c PyStr.dquote) && negb (Ascii.eqb c PyStr.backslash)
  && negb (Ascii.eqb c PyStr.newline).

(** A text of such characters. *)
Definition safe (s : string) : bool :=
  forallb safe_chr (list_ascii_of_string s).

(** A character that [str.format] copies as it is. *)
Definition no_brace (c : ascii) : bool :=
  negb (Ascii.eqb c "{") && negb (Ascii.eqb c "}").

(** Every node has a [creation] whose year reads as an integer. *)
Definition years_read (G : nxgraph) : Prop :=
  forall n a, g_node G !! n = Some a ->
    exists c, a !! "creation" = Some c
         /\ is_Return (PyStr.int (PyStr.slice 0 4 c)) = true.

(** What the search compiler emits for one word. *)
Definition compiled_word (word : string) : string :=
  if bool_decide (word ∈ operators) then word
  else
    "re.search(" +:+ dq
    +:+ ("^" +:+ PyStr.replace_chr "*" ".*?"
                   (escape_query_string (PyStr.lower word))
         +:+ "$")
    +:+ dq +:+ "," +:+ dq +:+ "{0}" +:+ dq +:+ ")".

(** The text of a comparison of the filter language. *)
Definition comparison_text (arg op operand : string) : string :=
  dq +:+ arg +:+ dq +:+ " " +:+ op +:+ " " +:+ dq +:+ operand +:+ dq.


(** * Properties *)

(** * Checking a predicate over a range of integers *)

Lemma all_range_spec (P : Z -> bool) (len : positive) :
  forall lo, all_range P lo len = true ->
  forall z, lo <= z < lo + Z.pos len -> P z = true.
Proof.
  induction len as [p IH|p IH|]; simpl; intros lo H z Hz.
  - apply andb_prop in H as [H H3]. apply andb_prop in H as [H1 H2].
    destruct (Z.eq_dec z lo) as [->|]; [done|].
    destruct (Z_lt_dec z (lo + 1 + Z.pos p)).
    + apply (IH _ H2). lia.
    + apply (IH _ H3). lia.
  - apply andb_prop in H as [H1 H2].
    destruct (Z_lt_dec z (lo + Z.pos p)).
    + apply (IH _ H1). lia.
    + apply (IH _ H2). lia.
  - assert (z = lo) as -> by lia. done.
Qed.

Module CalendarFacts.
Import Calendar.

Lemma ord_cycle_check : all_range ord_cycle_ok 1 146097 = true.
Proof. vm_compute. reflexivity. Qed.

Lemma ymd_cycle_check : all_range ymd_cycle_ok 1 400 = true.
Proof. vm_compute. reflexivity. Qed.

Ltac boolP H :=
  rewrite ?andb_true_iff, ?orb_true_iff, ?negb_true_iff, ?Z.leb_le, ?Z.ltb_lt,
    ?Z.eqb_eq, ?Z.leb_gt, ?Z.ltb_ge, ?Z.eqb_neq in H.

Lemma isleap_shift y q : isleap (y + 400 * q) = isleap y.
Proof.
  unfold isleap.
  replace ((y + 400 * q) mod 4) with (y mod 4)
    by (replace (y + 400 * q) with (y + (100 * q) * 4) by ring;
        now rewrite Z_mod_plus_full).
  replace ((y + 400 * q) mod 100) with (y mod 100)
    by (replace (y + 400 * q) with (y + (4 * q) * 100) by ring;
        now rewrite Z_mod_plus_full).
  replace ((y + 400 * q) mod 400) with (y mod 400)
    by (replace (y + 400 * q) with (y + q * 400) by ring;
        now rewrite Z_mod_plus_full).
  reflexivity.
Qed.

Lemma days_in_month_shift y m q :
  days_in_month (y + 400 * q) m = days_in_month y m.
Proof. unfold days_in_month. now rewrite isleap_shift. Qed.

Lemma days_before_year_shift y q :
  days_before_year (y + 400 * q) = days_before_year y + 146097 * q.
Proof.
  unfold days_before_year. cbv zeta.
  replace ((y + 400 * q - 1) / 4) with ((y - 1) / 4 + 100 * q)
    by (replace (y + 400 * q - 1) with (y - 1 + (100 * q) * 4) by ring;
        now rewrite Z.div_add).
  replace ((y + 400 * q - 1) / 100) with ((y - 1) / 100 + 4 * q)
    by (replace (y + 400 * q - 1) with (y - 1 + (4 * q) * 100) by ring;
        now rewrite Z.div_add).
  replace ((y + 400 * q - 1) / 400) with ((y - 1) / 400 + q)
    by (replace (y + 400 * q - 1) with (y - 1 + q * 400) by ring;
        now rewrite Z.div_add).
  ring.
Qed.

Lemma ymd2ord_shift d q :
  ymd2ord (shift_cycles q d) = ymd2ord d + 146097 * q.
Proof.
  unfold ymd2ord, shift_cycles, days_before_month. simpl.
  rewrite days_before_year_shift, isleap_shift. ring.
Qed.

Lemma ord2ymd_shift o q :
  ord2ymd (o + 146097 * q) = shift_cycles q (ord2ymd o).
Proof.
  unfold ord2ymd, shift_cycles, DI400Y.
  replace (o + 146097 * q - 1) with (o - 1 + q * 146097) by ring.
  rewrite Z.div_add, Z_mod_plus_full by lia.
  cbv zeta.
  set (n := (o - 1) mod 146097).
  destruct ((n mod DI100Y mod DI4Y / 365 =? 4) || (n / DI100Y =? 4)); simpl.
  { f_equal. ring. }
  match goal with
  | |- (let '(m, p) := ?c in _) = _ => destruct c
  end.
  simpl. f_equal. ring.
Qed.

Lemma valid_date_fields d :
  valid_date d = true <->
  (1 <= year d <= 9999 /\ 1 <= month d <= 12
   /\ 1 <= day d <= days_in_month (year d) (month d)).
Proof.
  unfold valid_date, MINYEAR, MAXYEAR.
  rewrite !andb_true_iff, !Z.leb_le. tauto.
Qed.

Lemma days_in_month_le y m : days_in_month y m <= 31.
Proof.
  unfold days_in_month, mdays.
  destruct ((m =? 2) && isleap y); [lia|].
  destruct m as [|p|p]; try lia.
  do 4 (try destruct p as [p|p|]); lia.
Qed.

(** Every ordinal of the calendar is the ordinal of a valid date. *)
Lemma ord2ymd_valid o :
  1 <= o <= MAXORDINAL -> valid_date (ord2ymd o) = true.
Proof.
  unfold MAXORDINAL. intros Ho.
  set (q := (o - 1) / 146097).
  set (o0 := (o - 1) mod 146097 + 1).
  assert (Hq : 0 <= q <= 24) by (subst q; Z.div_mod_to_equations; lia).
  assert (Ho0 : 1 <= o0 < 1 + 146097) by (subst o0; Z.div_mod_to_equations; lia).
  assert (Heq : o = o0 + 146097 * q)
    by (subst q o0; Z.div_mod_to_equations; lia).
  pose proof (all_range_spec _ _ _ ord_cycle_check o0 Ho0) as Hc.
  unfold ord_cycle_ok in Hc. cbv zeta in Hc.
  apply andb_prop in Hc as [Hc _].
  apply andb_prop in Hc as [Hc H399]. apply andb_prop in Hc as [Hv H400].
  apply valid_date_fields in Hv. apply Z.leb_le in H400.
  rewrite Heq, ord2ymd_shift. apply valid_date_fields.
  unfold shift_cycles; simpl. rewrite days_in_month_shift.
  split; [|tauto].
  apply orb_prop in H399 as [H399|H399].
  - apply Z.ltb_lt in H399. lia.
  - apply Z.leb_le in H399. lia.
Qed.

(** The date of an ordinal of the calendar has that ordinal. *)
Lemma ymd2ord_ord2ymd o :
  1 <= o <= MAXORDINAL -> ymd2ord (ord2ymd o) = o.
Proof.
  unfold MAXORDINAL. intros Ho.
  set (q := (o - 1) / 146097).
  set (o0 := (o - 1) mod 146097 + 1).
  assert (Ho0 : 1 <= o0 < 1 + 146097) by (subst o0; Z.div_mod_to_equations; lia).
  assert (Heq : o = o0 + 146097 * q)
    by (subst q o0; Z.div_mod_to_equations; lia).
  pose proof (all_range_spec _ _ _ ord_cycle_check o0 Ho0) as Hc.
  unfold ord_cycle_ok in Hc. cbv zeta in Hc.
  apply andb_prop in Hc as [_ Hc]. apply Z.eqb_eq in Hc.
  rewrite Heq at 1. rewrite ord2ymd_shift, ymd2ord_shift, Hc. lia.
Qed.

(** The ordinal of a valid date is within the calendar and leads back to
    the date. *)
Lemma ord_roundtrip d :
  valid_date d = true ->
  ord2ymd (ymd2ord d) = d /\ 1 <= ymd2ord d <= MAXORDINAL.
Proof.
  intros Hv. apply valid_date_fields in Hv as (Hy & Hm & Hd).
  destruct d as [y m dd]. simpl in Hy, Hm, Hd.
  set (q := (y - 1) / 400).
  set (y0 := (y - 1) mod 400 + 1).
  assert (Hq : 0 <= q <= 24) by (subst q; Z.div_mod_to_equations; lia).
  assert (Hy0 : 1 <= y0 < 1 + 400) by (subst y0; Z.div_mod_to_equations; lia).
  assert (Heq : y = y0 + 400 * q)
    by (subst q y0; Z.div_mod_to_equations; lia).
  clearbody q y0. subst y.
  rewrite days_in_month_shift in Hd.
  pose proof (days_in_month_le y0 m) as Hle.
  pose proof (all_range_spec _ _ _ ymd_cycle_check y0 Hy0) as Hc.
  unfold ymd_cycle_ok in Hc.
  pose proof (all_range_spec _ _ _ Hc m ltac:(lia)) as Hc'.
  cbv beta in Hc'.
  pose proof (all_range_spec _ _ _ Hc' dd ltac:(lia)) as Hc''.
  cbv beta zeta in Hc''. clear Hc Hc'.
  assert (Hv0 : valid_date (mkDate y0 m dd) = true)
    by (apply valid_date_fields; simpl; lia).
  apply orb_prop in Hc'' as [Hc|Hc];
    [rewrite Hv0 in Hc; discriminate|].
  apply andb_prop in Hc as [Hc Hhi]. apply andb_prop in Hc as [Hc Hlo].
  apply Z.leb_le in Hhi, Hlo.
  change (mkDate (y0 + 400 * q) m dd) with (shift_cycles q (mkDate y0 m dd)).
  rewrite ymd2ord_shift. split.
  - rewrite ord2ymd_shift.
    destruct (ord2ymd (ymd2ord (mkDate y0 m dd))) as [y' m' d'].
    apply andb_prop in Hc as [Hc H3]. apply andb_prop in Hc as [H1 H2].
    apply Z.eqb_eq in H1, H2, H3. now subst.
  - unfold MAXORDINAL. split; [lia|].
    destruct (Z.eq_dec q 24) as [->|]; [|lia].
    assert (y0 <= 399) by lia.
    assert (ymd2ord (mkDate y0 m dd) <= 145731); [|lia].
    unfold ymd2ord, days_before_year, days_before_month.
    cbn [year month day].
    assert (days_before_month_tbl m + dd <= 365).
    { pose proof Hd as Hd'. unfold days_in_month, mdays in Hd'.
      unfold days_before_month_tbl.
      destruct ((m =? 2) && isleap y0);
      destruct m as [|p|p]; try lia;
      do 4 (try destruct p as [p|p|]); lia. }
    destruct ((2 <? m) && isleap y0) eqn:E.
    + apply andb_prop in E as [_ E]. unfold isleap in E.
      apply andb_prop in E as [E _]. apply Z.eqb_eq in E.
      Z.div_mod_to_equations. lia.
    + Z.div_mod_to_equations. lia.
Qed.

End CalendarFacts.

(** * Results *)

Lemma bind_Return {A B} (m : result A) (f : A -> result B) (b : B) :
  m ≫= f = Return b -> exists a, m = Return a /\ f a = Return b.
Proof. destruct m as [a|e]; [eauto | discriminate]. Qed.

Ltac inv_bind H :=
  let a := fresh "a" in
  let Ha := fresh "Ha" in
  apply bind_Return in H as (a & Ha & H).

(** * Strings *)

Module PyStrFacts.
Import PyStr.

Lemma length_take n s :
  String.length (take n s) = Nat.min n (String.length s).
Proof.
  revert s; induction n as [|n IH]; intros [|c s]; simpl; auto.
Qed.

Lemma length_drop n s :
  String.length (drop n s) = (String.length s - n)%nat.
Proof.
  revert s; induction n as [|n IH]; intros [|c s]; simpl; auto.
Qed.

Lemma length_prefix_to n s :
  (n <= String.length s)%nat -> String.length (prefix_to n s) = n.
Proof.
  intros Hn. unfold prefix_to, slice, clamp_index.
  rewrite length_take, length_drop.
  replace (0 <? 0) with false by reflexivity.
  destruct (Z.of_nat n <? 0) eqn:E; [apply Z.ltb_lt in E; lia|].
  lia.
Qed.

Lemma fmt4_check : all_range fmt4_ok 0 10000 = true.
Proof. vm_compute. reflexivity. Qed.

Lemma fmt2_check : all_range fmt2_ok 0 100 = true.
Proof. vm_compute. reflexivity. Qed.

(** A number below 10000 prints under [%04d] as four digits that read as
    the number. *)
Lemma format_0d_4 n :
  0 <= n <= 9999 ->
  exists a b c d,
    format_0d 4 n = String a (String b (String c (String d EmptyString)))
    /\ is_digit a = true /\ is_digit b = true /\ is_digit c = true
    /\ is_digit d = true
    /\ digit_val a * 1000 + digit_val b * 100 + digit_val c * 10
       + digit_val d = n.
Proof.
  intros Hn.
  pose proof (all_range_spec _ _ _ fmt4_check n ltac:(lia)) as H.
  unfold fmt4_ok in H.
  destruct (format_0d 4 n) as [|a [|b [|c [|d [|? ?]]]]]; try discriminate.
  exists a, b, c, d.
  rewrite !andb_true_iff, Z.eqb_eq in H. tauto.
Qed.

Lemma format_0d_2 n :
  0 <= n <= 99 ->
  exists a b,
    format_0d 2 n = String a (String b EmptyString)
    /\ is_digit a = true /\ is_digit b = true
    /\ digit_val a * 10 + digit_val b = n.
Proof.
  intros Hn.
  pose proof (all_range_spec _ _ _ fmt2_check n ltac:(lia)) as H.
  unfold fmt2_ok in H.
  destruct (format_0d 2 n) as [|a [|b [|? ?]]]; try discriminate.
  exists a, b.
  rewrite !andb_true_iff, Z.eqb_eq in H. tauto.
Qed.

End PyStrFacts.

Module DateFacts.
Import Calendar CalendarFacts PyStrFacts.

(** The text of a valid date: ten characters, digits but for the two
    hyphens, that read as the fields. *)
Lemma isoformat_chars d :
  valid_date d = true ->
  exists y1 y2 y3 y4 m1 m2 d1 d2,
    isoformat d =
      String y1 (String y2 (String y3 (String y4 (String "-"
        (String m1 (String m2 (String "-"
          (String d1 (String d2 EmptyString)))))))))
    /\ forallb PyStr.is_digit [y1; y2; y3; y4; m1; m2; d1; d2] = true
    /\ PyStr.digit_val y1 * 1000 + PyStr.digit_val y2 * 100
       + PyStr.digit_val y3 * 10 + PyStr.digit_val y4 = year d
    /\ PyStr.digit_val m1 * 10 + PyStr.digit_val m2 = month d
    /\ PyStr.digit_val d1 * 10 + PyStr.digit_val d2 = day d.
Proof.
  intros Hv. apply valid_date_fields in Hv as (Hy & Hm & Hd).
  pose proof (days_in_month_le (year d) (month d)).
  destruct (format_0d_4 (year d)) as (y1 & y2 & y3 & y4 & Ey & ? & ? & ? & ? & ?);
    [lia|].
  destruct (format_0d_2 (month d)) as (m1 & m2 & Em & ? & ? & ?); [lia|].
  destruct (format_0d_2 (day d)) as (d1 & d2 & Ed & ? & ? & ?); [lia|].
  exists y1, y2, y3, y4, m1, m2, d1, d2.
  unfold isoformat. rewrite Ey, Em, Ed. simpl.
  repeat match goal with H : PyStr.is_digit _ = true |- _ => rewrite H; clear H end.
  auto.
Qed.

Lemma isoformat_length d :
  valid_date d = true -> String.length (isoformat d) = 10%nat.
Proof.
  intros Hv.
  destruct (isoformat_chars d Hv) as (? & ? & ? & ? & ? & ? & ? & ? & E & _).
  now rewrite E.
Qed.

Lemma add_days_valid dt n r :
  add_days dt n = Return r -> valid_date r = true.
Proof.
  unfold add_days. destruct (999999999 <? Z.abs n); [discriminate|].
  destruct ((0 <? ymd2ord dt + n) && (ymd2ord dt + n <=? MAXORDINAL)) eqn:E;
    [|discriminate].
  intros [= <-]. apply andb_prop in E as [E1 E2].
  apply Z.ltb_lt in E1. apply Z.leb_le in E2.
  apply ord2ymd_valid. lia.
Qed.

(** What [dt + delta] returns is a date of the calendar. *)
Lemma add_delta_valid dt rd r :
  add_delta dt rd = Return r -> valid_date r = true.
Proof.
  unfold add_delta. intros H.
  destruct (if months rd =? 0 then _ else _) as [y m].
  inv_bind H. eauto using add_days_valid.
Qed.

End DateFacts.

Import Calendar DateFacts PyStrFacts.

(** What the resolver returns is the text of a date of the calendar, cut to
    the length of the reference date. *)
Lemma add_times_valid dt times r :
  add_times dt times = Return r -> valid_date r = true.
Proof.
  unfold add_times. intros H.
  destruct times as [|t0 [|t1 [|t2 ?]]]; [discriminate|..].
  - inv_bind H. injection H as <-. eauto using add_delta_valid.
  - inv_bind H. inv_bind H. injection H as <-. eauto using add_delta_valid.
  - inv_bind H. inv_bind H. eauto using add_delta_valid.
Qed.

Lemma find_cited_date_Return citing_date timespan s :
  find_cited_date citing_date timespan = Return s ->
  exists d, valid_date d = true
       /\ s = PyStr.prefix_to (String.length citing_date) (isoformat d).
Proof.
  unfold find_cited_date. intros H.
  inv_bind H. inv_bind H. inv_bind H. injection H as <-.
  eauto using add_times_valid.
Qed.

(** C1. Precision preservation: for a reference date of four, seven or ten
    characters (the precisions [YYYY], [YYYY-MM] and [YYYY-MM-DD]) and any
    descriptor, the date the resolver returns has as many characters as the
    reference date. *)
Theorem find_cited_date_precision citing_date timespan s :
  String.length citing_date ∈ [4; 7; 10]%nat ->
  find_cited_date citing_date timespan = Return s ->
  String.length s = String.length citing_date.
Proof.
  intros Hlen H.
  apply find_cited_date_Return in H as (d & Hv & ->).
  apply length_prefix_to. rewrite (isoformat_length d Hv).
  repeat (apply elem_of_cons in Hlen as [->|Hlen]); try lia.
  by apply elem_of_nil in Hlen.
Qed.

(** * Well-formed descriptors *)

Module ParseFacts.
Import PyStr PyStrFacts Calendar.

Lemma append_cons c s t : String c s +:+ t = String c (s +:+ t).
Proof. reflexivity. Qed.

Lemma append_nil_l t : EmptyString +:+ t = t.
Proof. reflexivity. Qed.

Lemma append_nil_r s : s +:+ EmptyString = s.
Proof.
  induction s as [|c s IH]; [reflexivity|]. now rewrite append_cons, IH.
Qed.

Lemma take_pred_length s :
  take (String.length s - 1) s = drop_last s.
Proof.
  induction s as [|c s IH]; [reflexivity|].
  destruct s as [|c' s']; [reflexivity|].
  simpl in *. rewrite Nat.sub_0_r in IH. now rewrite IH.
Qed.

Lemma slice_inner s :
  slice 1 (Z.of_nat (String.length s) - 1) s = drop_last (drop 1 s).
Proof.
  destruct s as [|a s]; [reflexivity|].
  unfold slice, clamp_index.
  change (1 <? 0) with false. cbv iota.
  destruct (Z.of_nat (String.length (String a s)) - 1 <? 0) eqn:E;
    [apply Z.ltb_lt in E; simpl in E; lia|].
  replace (Z.to_nat (Z.min (Z.max 1 0) (Z.of_nat (String.length (String a s)))))
    with 1%nat by (simpl String.length; lia).
  replace (Z.to_nat _) with (String.length s) by (simpl String.length; lia).
  simpl drop. apply take_pred_length.
Qed.

Lemma length_replace_chr_1 c x s :
  String.length (replace_chr c (String x EmptyString) s) = String.length s.
Proof.
  induction s as [|y s IH]; [reflexivity|].
  simpl. destruct (Ascii.eqb y c);
    rewrite ?append_cons, ?append_nil_l; simpl; now rewrite IH.
Qed.

Lemma drop_last_app s t :
  t <> EmptyString -> drop_last (s +:+ t) = s +:+ drop_last t.
Proof.
  intros Ht. induction s as [|c s IH]; [reflexivity|].
  simpl. rewrite IH.
  destruct (s +:+ t) eqn:E; [|reflexivity].
  destruct s; simpl in E; [contradiction|discriminate].
Qed.

Lemma drop_last_cons c s :
  s <> EmptyString -> drop_last (String c s) = String c (drop_last s).
Proof. destruct s; [contradiction|reflexivity]. Qed.

Lemma append_assoc s t u : (s +:+ t) +:+ u = s +:+ (t +:+ u).
Proof.
  induction s as [|c s IH]; [reflexivity|]. now rewrite !append_cons, IH.
Qed.

Lemma append_nonempty s c t : s +:+ String c t <> EmptyString.
Proof. destruct s; discriminate. Qed.

#[local] Arguments drop_last : simpl never.

Lemma all_digits_cons c s :
  all_digits (String c s) = is_digit c && all_digits s.
Proof. reflexivity. Qed.

Lemma replace_chr_digits c new s t :
  is_digit c = false -> all_digits s = true ->
  replace_chr c new (s +:+ t) = s +:+ replace_chr c new t.
Proof.
  intros Hc. induction s as [|x s IH]; [reflexivity|].
  rewrite all_digits_cons. intros [Hx Hs]%andb_prop. simpl.
  destruct (Ascii.eqb_spec x c) as [->|_]; [rewrite Hc in Hx; discriminate|].
  now rewrite IH.
Qed.

Lemma replace_chr_digits_end c new s :
  is_digit c = false -> all_digits s = true -> replace_chr c new s = s.
Proof.
  intros Hc Hs. rewrite <- (append_nil_r s) at 1.
  rewrite replace_chr_digits by assumption. apply append_nil_r.
Qed.

Lemma split_on_digits c s t :
  is_digit c = false -> all_digits s = true ->
  split_on c (s +:+ String c t) = s :: split_on c t.
Proof.
  intros Hc. induction s as [|x s IH].
  - intros _. simpl. now rewrite Ascii.eqb_refl.
  - rewrite all_digits_cons. intros [Hx Hs]%andb_prop. simpl.
    destruct (Ascii.eqb_spec x c) as [->|_]; [rewrite Hc in Hx; discriminate|].
    now rewrite IH.
Qed.

Lemma split_on_digits_end c s :
  is_digit c = false -> all_digits s = true -> split_on c s = [s].
Proof.
  intros Hc. induction s as [|x s IH]; [reflexivity|].
  rewrite all_digits_cons. intros [Hx Hs]%andb_prop. simpl.
  destruct (Ascii.eqb_spec x c) as [->|_]; [rewrite Hc in Hx; discriminate|].
  now rewrite IH.
Qed.

Lemma numeral_digits s : numeral s = true -> all_digits s = true.
Proof. unfold numeral. now intros [_ H]%andb_prop. Qed.

Lemma numeral_nonempty s : numeral s = true -> s <> EmptyString.
Proof.
  unfold numeral. intros [H _]%andb_prop ->. discriminate.
Qed.

(** The items the resolver reads off a well-formed descriptor: the numerals
    in their order. *)
Lemma timespan_items_descriptor neg ys ms ds :
  numeral ys = true -> numeral_opt ms = true -> numeral_opt ds = true ->
  timespan_items (descriptor neg ys ms ds)
  = ys :: option_list ms ++ option_list ds.
Proof.
  intros Hy%numeral_digits Hm Hd. unfold timespan_items.
  rewrite <- (length_replace_chr_1 "Y" ":" (descriptor neg ys ms ds)).
  rewrite <- (length_replace_chr_1 "M" ":" (replace_chr "Y" ":" _)).
  rewrite slice_inner.
  assert (Hm' : forall m, ms = Some m -> all_digits m = true)
    by (intros m ->; now apply numeral_digits).
  assert (Hd' : forall d, ds = Some d -> all_digits d = true)
    by (intros d ->; now apply numeral_digits).
  clear Hm Hd.
  unfold descriptor.
  destruct neg, ms as [m|], ds as [d|]; simpl from_option;
    try specialize (Hm' _ eq_refl); try specialize (Hd' _ eq_refl);
    repeat first
      [ rewrite append_assoc
      | rewrite append_cons
      | rewrite append_nil_l
      | rewrite append_nil_r
      | rewrite replace_chr_digits by (reflexivity || assumption)
      | rewrite replace_chr_digits_end by (reflexivity || assumption)
      | rewrite drop_last_app by discriminate
      | rewrite drop_last_cons by apply append_nonempty
      | rewrite split_on_digits by (reflexivity || assumption)
      | rewrite split_on_digits_end by (reflexivity || assumption)
      | progress simpl ];
    reflexivity.
Qed.

Lemma digit_not_space c : is_digit c = true -> is_space c = false.
Proof. destruct c as [[] [] [] [] [] [] [] []]; try discriminate; reflexivity. Qed.

Lemma lstrip_digits s : all_digits s = true -> lstrip s = s.
Proof.
  destruct s as [|c s]; [reflexivity|].
  rewrite all_digits_cons. intros [Hc _]%andb_prop.
  simpl. now rewrite (digit_not_space c Hc).
Qed.

Lemma rstrip_digits s : all_digits s = true -> rstrip s = s.
Proof.
  induction s as [|c s IH]; [reflexivity|].
  rewrite all_digits_cons. intros [Hc Hs]%andb_prop.
  simpl. rewrite (IH Hs), (digit_not_space c Hc). now destruct s.
Qed.

Lemma int_digits_all s : forall acc seen,
  all_digits s = true -> (seen = true \/ s <> EmptyString) ->
  int_digits acc seen s
  = Some (fold_left (fun a c => 10 * a + digit_val c)
                    (list_ascii_of_string s) acc).
Proof.
  induction s as [|c s IH]; intros acc seen Hs Hne.
  - destruct Hne as [->|Hne]; [reflexivity|contradiction].
  - rewrite all_digits_cons in Hs. apply andb_prop in Hs as [Hc Hs].
    simpl. rewrite Hc. apply IH; auto.
Qed.

(** [int] reads a numeral as its value. *)
Lemma int_numeral s : numeral s = true -> PyStr.int s = Return (digits_val s).
Proof.
  intros Hn. pose proof (numeral_digits s Hn) as Hs.
  pose proof (numeral_nonempty s Hn) as Hne.
  unfold PyStr.int, strip. rewrite rstrip_digits, lstrip_digits by assumption.
  destruct s as [|c s]; [contradiction|].
  assert (Hc : is_digit c = true)
    by (rewrite all_digits_cons in Hs; now apply andb_prop in Hs as [? _]).
  assert (E : int_digits 0 false (String c s) = Some (digits_val (String c s)))
    by (apply int_digits_all; auto).
  destruct c as [[] [] [] [] [] [] [] []]; try discriminate Hc;
    now rewrite E.
Qed.

Lemma mapR_Return {A B} (f : A -> result B) (g : A -> B) l :
  Forall (fun x => f x = Return (g x)) l -> mapR f l = Return (map g l).
Proof.
  induction 1 as [|x l Hx _ IH]; [reflexivity|].
  simpl. now rewrite Hx, IH.
Qed.

Lemma first_chr_descriptor neg ys ms ds :
  first_chr (descriptor neg ys ms ds)
  = Return (if neg then "-"%char else "P"%char).
Proof. now destruct neg. Qed.

(** The numbers the resolver reads off a well-formed descriptor. *)
Lemma timespan_times_descriptor neg ys ms ds :
  numeral ys = true -> numeral_opt ms = true -> numeral_opt ds = true ->
  timespan_times (descriptor neg ys ms ds)
  = Return (map (fun s => signed neg (digits_val s))
                (ys :: option_list ms ++ option_list ds)).
Proof.
  intros Hy Hm Hd. unfold timespan_times.
  rewrite timespan_items_descriptor by assumption.
  rewrite first_chr_descriptor.
  assert (Hall : Forall (fun s => numeral s = true)
                        (ys :: option_list ms ++ option_list ds)).
  { constructor; [assumption|]. apply Forall_app.
    destruct ms, ds; simpl in *; repeat constructor; assumption. }
  apply mapR_Return. eapply Forall_impl; [exact Hall|].
  intros s Hs. simpl. rewrite (int_numeral s Hs). now destruct neg.
Qed.

Lemma invert_descriptor neg ys ms ds :
  invert (descriptor neg ys ms ds) = descriptor (negb neg) ys ms ds.
Proof. now destruct neg. Qed.

End ParseFacts.

Module DateTextFacts.
Import Calendar CalendarFacts PyStrFacts DateFacts ParseFacts.

Lemma digits_val_4 a b c d :
  digits_val (String a (String b (String c (String d EmptyString))))
  = PyStr.digit_val a * 1000 + PyStr.digit_val b * 100
    + PyStr.digit_val c * 10 + PyStr.digit_val d.
Proof. unfold digits_val. simpl. ring. Qed.

Lemma digits_val_2 a b :
  digits_val (String a (String b EmptyString))
  = PyStr.digit_val a * 10 + PyStr.digit_val b.
Proof. unfold digits_val. simpl. ring. Qed.

(** Reading the text of a valid date gives the date back. *)
Lemma fromisoformat_isoformat d :
  valid_date d = true -> fromisoformat (isoformat d) = Return d.
Proof.
  intros Hv.
  destruct (isoformat_chars d Hv)
    as (y1 & y2 & y3 & y4 & m1 & m2 & d1 & d2 & E & Hdig & Hy & Hm & Hd).
  rewrite E. unfold fromisoformat.
  set (S := String y1 _).
  replace (PyStr.slice 0 4 S)
    with (String y1 (String y2 (String y3 (String y4 EmptyString))))
    by reflexivity.
  replace (PyStr.slice 5 7 S) with (String m1 (String m2 EmptyString))
    by reflexivity.
  replace (PyStr.slice 8 10 S) with (String d1 (String d2 EmptyString))
    by reflexivity.
  replace (PyStr.slice 4 5 S) with "-"%string by reflexivity.
  replace (PyStr.slice 7 8 S) with "-"%string by reflexivity.
  rewrite digits_val_4, !digits_val_2, Hy, Hm, Hd.
  simpl in Hdig. rewrite !andb_true_iff in Hdig.
  destruct Hdig as (H1 & H2 & H3 & H4 & H5 & H6 & H7 & H8 & _).
  unfold all_digits. simpl forallb.
  rewrite H1, H2, H3, H4, H5, H6, H7, H8. simpl.
  destruct d as [y m dd]. simpl. now rewrite Hv.
Qed.

Lemma length_prefix_iso n d :
  valid_date d = true -> precision_of n d ->
  String.length (PyStr.prefix_to n (isoformat d)) = n.
Proof.
  intros Hv Hp. apply length_prefix_to. rewrite isoformat_length by assumption.
  unfold precision_of in Hp. lia.
Qed.

(** Completing the reference date of a precision gives the text of the
    date. *)
Lemma complete_date_prefix n d :
  valid_date d = true -> precision_of n d ->
  complete_date (PyStr.prefix_to n (isoformat d)) = isoformat d.
Proof.
  intros Hv Hp.
  pose proof (proj1 (valid_date_fields d) Hv) as (Hy & Hm & Hd).
  destruct (format_0d_4 (year d)) as (y1 & y2 & y3 & y4 & Ey & _); [lia|].
  destruct (format_0d_2 (month d)) as (m1 & m2 & Em & _); [lia|].
  pose proof (days_in_month_le (year d) (month d)).
  destruct (format_0d_2 (day d)) as (d1 & d2 & Ed & _); [lia|].
  unfold isoformat.
  destruct Hp as [->|[(-> & H1)|(-> & H1 & H2)]].
  - rewrite Ey, Em, Ed. reflexivity.
  - rewrite H1, Ey, Em. reflexivity.
  - rewrite H1, H2, Ey. reflexivity.
Qed.

End DateTextFacts.

Module ShiftFacts.
Import Calendar CalendarFacts DateFacts.

Lemma add_days_0 r : valid_date r = true -> add_days r 0 = Return r.
Proof.
  intros Hv. destruct (ord_roundtrip r Hv) as (E & Hlo & Hhi).
  unfold add_days. simpl Z.abs. change (999999999 <? 0) with false. cbv iota.
  rewrite Z.add_0_r, E.
  replace ((0 <? ymd2ord r) && (ymd2ord r <=? MAXORDINAL)) with true;
    [reflexivity|].
  symmetry. apply andb_true_iff. split; [apply Z.ltb_lt|apply Z.leb_le]; lia.
Qed.

Lemma days_in_month_ge y m : 1 <= m <= 12 -> 28 <= days_in_month y m.
Proof.
  intros Hm. unfold days_in_month, mdays.
  destruct ((m =? 2) && isleap y); [lia|].
  destruct m as [|p|p]; try lia.
  do 4 (try destruct p as [p|p|]); lia.
Qed.

Lemma replace_valid y m d :
  valid_date (mkDate y m d) = true -> replace y m d = Return (mkDate y m d).
Proof.
  intros Hv. unfold replace. rewrite Hv.
  apply valid_date_fields in Hv as (Hy & _). simpl in Hy.
  replace ((y <? - 2 ^ 31) || (2 ^ 31 - 1 <? y)) with false; [reflexivity|].
  symmetry. apply orb_false_iff. split; [apply Z.ltb_ge|apply Z.ltb_ge]; lia.
Qed.

Lemma month_length_ge i : 28 <= month_length i.
Proof.
  apply days_in_month_ge. Z.div_mod_to_equations. lia.
Qed.

Lemma month_length_index d :
  1 <= month d <= 12 ->
  month_length (month_index d) = days_in_month (year d) (month d).
Proof.
  intros Hm. unfold month_length, month_index.
  f_equal; Z.div_mod_to_equations; lia.
Qed.

Lemma of_month_index_valid i dd :
  12 <= i <= 119999 -> 1 <= dd <= month_length i ->
  valid_date (of_month_index i dd) = true.
Proof.
  intros Hi Hd. apply valid_date_fields. unfold of_month_index; simpl.
  unfold month_length in Hd.
  repeat split; try lia; Z.div_mod_to_equations; lia.
Qed.

Lemma of_month_index_self d :
  1 <= month d <= 12 -> of_month_index (month_index d) (day d) = d.
Proof.
  intros Hm. destruct d as [y m dd]. unfold of_month_index, month_index.
  simpl in *. f_equal; Z.div_mod_to_equations; lia.
Qed.

(** Adding years moves the month count by twelve a year and keeps the day,
    when the day exists in the month reached and the year reached is in the
    calendar. *)
Lemma add_delta_years dt a :
  valid_date dt = true ->
  12 <= month_index dt + 12 * a <= 119999 ->
  day dt <= month_length (month_index dt + 12 * a) ->
  add_delta dt (delta_years a)
  = Return (of_month_index (month_index dt + 12 * a) (day dt)).
Proof.
  intros Hv Hi Hd.
  pose proof (proj1 (valid_date_fields dt) Hv) as (Hy & Hm & Hdd).
  assert (Hv' : valid_date (of_month_index (month_index dt + 12 * a) (day dt))
                = true) by (apply of_month_index_valid; lia).
  assert (E : of_month_index (month_index dt + 12 * a) (day dt)
              = mkDate (year dt + a) (month dt) (day dt)).
  { unfold of_month_index, month_index. f_equal; Z.div_mod_to_equations; lia. }
  assert (El : month_length (month_index dt + 12 * a)
               = days_in_month (year dt + a) (month dt)).
  { unfold month_length, month_index. f_equal; Z.div_mod_to_equations; lia. }
  rewrite E in *. rewrite El in Hd.
  unfold add_delta, delta_years, fix_delta. simpl.
  rewrite Z.min_r by lia.
  rewrite replace_valid by assumption. simpl.
  now apply add_days_0.
Qed.

(** Adding months moves the month count and keeps the day, under the same
    conditions. *)
Lemma add_delta_months dt b :
  valid_date dt = true ->
  12 <= month_index dt + b <= 119999 ->
  day dt <= month_length (month_index dt + b) ->
  add_delta dt (delta_months b)
  = Return (of_month_index (month_index dt + b) (day dt)).
Proof.
  intros Hv Hi Hd.
  pose proof (proj1 (valid_date_fields dt) Hv) as (Hy & Hm & Hdd).
  pose proof (of_month_index_valid _ (day dt) Hi ltac:(lia)) as Hv'.
  unfold of_month_index in *. unfold month_length in Hd.
  unfold month_index in *.
  set (i := 12 * year dt + (month dt - 1) + b) in *.
  assert (Hstep : forall y m,
            y = i / 12 -> m = i mod 12 + 1 ->
            (r ← replace y m (Z.min (days_in_month y m) (day dt));
             add_days r 0) = Return (mkDate (i / 12) (i mod 12 + 1) (day dt))).
  { intros y m -> ->. rewrite Z.min_r by lia.
    rewrite replace_valid by assumption. simpl. now apply add_days_0. }
  unfold add_delta, delta_months, fix_delta, sign.
  destruct (11 <? Z.abs b) eqn:Eabs; [destruct (b <? 0) eqn:Eneg|];
    cbn [years months days];
    repeat match goal with
           | |- context [if ?c then _ else _] => destruct c eqn:?
           end;
    apply Hstep; subst i; clear Hstep Hv' Hd;
    repeat match goal with
           | H : (_ <? _) = _ |- _ =>
               first [apply Z.ltb_lt in H | apply Z.ltb_ge in H]
           | H : (_ =? _) = _ |- _ =>
               first [apply Z.eqb_eq in H | apply Z.eqb_neq in H]
           end;
    Z.div_mod_to_equations; lia.
Qed.

End ShiftFacts.

Module ResolveFacts.
Import Calendar CalendarFacts PyStrFacts DateFacts ParseFacts
  DateTextFacts ShiftFacts.

Lemma digit_val_range c : PyStr.is_digit c = true -> 0 <= PyStr.digit_val c <= 9.
Proof.
  destruct c as [[] [] [] [] [] [] [] []]; try discriminate;
    intros _; vm_compute; split; discriminate.
Qed.

Lemma digits_val_nonneg s : all_digits s = true -> 0 <= digits_val s.
Proof.
  unfold digits_val.
  assert (G : forall acc, 0 <= acc -> all_digits s = true ->
              0 <= fold_left (fun a c => 10 * a + PyStr.digit_val c)
                             (list_ascii_of_string s) acc).
  { induction s as [|c s IH]; intros acc Hacc Hs; [exact Hacc|].
    rewrite all_digits_cons in Hs. apply andb_prop in Hs as [Hc Hs].
    simpl. apply IH; [|assumption].
    pose proof (digit_val_range c Hc). lia. }
  apply G. lia.
Qed.

Lemma month_index_of i dd : month_index (of_month_index i dd) = i.
Proof.
  unfold month_index, of_month_index. simpl. Z.div_mod_to_equations. lia.
Qed.

(** Adding nothing leaves a date of the calendar as it is. *)
Lemma add_delta_none dt :
  valid_date dt = true -> add_delta dt (mkDelta 0 0 0) = Return dt.
Proof.
  intros Hv.
  pose proof (proj1 (valid_date_fields dt) Hv) as (Hy & Hm & Hdd).
  destruct dt as [y m d]. simpl in *.
  unfold add_delta. simpl. rewrite Z.add_0_r.
  rewrite Z.min_r by lia.
  rewrite replace_valid by assumption. simpl.
  now apply add_days_0.
Qed.

(** Adding days moves the ordinal of the date. *)
Lemma add_delta_days dt k :
  valid_date dt = true -> 1 <= ymd2ord dt + k <= MAXORDINAL ->
  add_delta dt (delta_days k) = Return (ord2ymd (ymd2ord dt + k)).
Proof.
  intros Hv Hk.
  pose proof (proj1 (valid_date_fields dt) Hv) as (Hy & Hm & Hdd).
  destruct (ord_roundtrip dt Hv) as (_ & Hlo & Hhi).
  destruct dt as [y m d]. simpl in Hy, Hm, Hdd.
  unfold add_delta, delta_days, fix_delta. simpl. rewrite Z.add_0_r.
  rewrite Z.min_r by lia.
  rewrite replace_valid by assumption. simpl.
  unfold add_days. unfold MAXORDINAL in *.
  replace (999999999 <? Z.abs k) with false
    by (symmetry; apply Z.ltb_ge; lia).
  cbv zeta.
  replace ((0 <? ymd2ord (mkDate y m d) + k)
           && (ymd2ord (mkDate y m d) + k <=? 3652059)) with true;
    [reflexivity|].
  symmetry. apply andb_true_iff. split; [apply Z.ltb_lt|apply Z.leb_le]; lia.
Qed.

Lemma prefix_to_full d :
  valid_date d = true -> PyStr.prefix_to 10 (isoformat d) = isoformat d.
Proof.
  intros Hv. pose proof (isoformat_length d Hv) as H.
  revert H. generalize (isoformat d). intros s.
  unfold PyStr.prefix_to.
  do 10 (destruct s as [|? s]; [discriminate|]).
  destruct s; [reflexivity|discriminate].
Qed.

(** Adding days within the month moves the day. *)
Lemma add_delta_days_within dt k :
  valid_date dt = true ->
  1 <= day dt + k <= days_in_month (year dt) (month dt) ->
  add_delta dt (delta_days k)
  = Return (mkDate (year dt) (month dt) (day dt + k)).
Proof.
  intros Hv Hk.
  pose proof (proj1 (valid_date_fields dt) Hv) as (Hy & Hm & Hdd).
  assert (Hv' : valid_date (mkDate (year dt) (month dt) (day dt + k)) = true)
    by (apply valid_date_fields; simpl; lia).
  destruct (ord_roundtrip _ Hv') as (E & Hlo & Hhi).
  assert (Eo : ymd2ord (mkDate (year dt) (month dt) (day dt + k))
               = ymd2ord dt + k) by (unfold ymd2ord; simpl; lia).
  rewrite Eo in *.
  rewrite add_delta_days by (assumption || lia). now rewrite E.
Qed.

Lemma signed_0 neg : signed neg 0 = 0.
Proof. now destruct neg. Qed.

Lemma signed_negb neg v : signed (negb neg) v = - signed neg v.
Proof. unfold signed. destruct neg; simpl; lia. Qed.

Lemma step_years_negb neg ys : step_years (negb neg) ys = - step_years neg ys.
Proof. apply signed_negb. Qed.

Lemma step_months_negb neg ms ds :
  step_months (negb neg) ms ds = - step_months neg ms ds.
Proof. apply signed_negb. Qed.

Lemma step_days_negb neg ms ds :
  step_days (negb neg) ms ds = - step_days neg ms ds.
Proof. apply signed_negb. Qed.

(** The years and the months of a descriptor go the same way. *)
Lemma steps_same_way neg ys ms ds :
  numeral ys = true -> numeral_opt ms = true -> numeral_opt ds = true ->
  (0 <= step_years neg ys /\ 0 <= step_months neg ms ds)
  \/ (step_years neg ys <= 0 /\ step_months neg ms ds <= 0).
Proof.
  intros Hy Hm Hd.
  pose proof (digits_val_nonneg ys (numeral_digits _ Hy)) as HY.
  assert (HM : 0 <= match ms, ds with
                    | Some m, _ => digits_val m
                    | None, Some d => digits_val d
                    | None, None => 0
                    end).
  { destruct ms as [m|]; [apply digits_val_nonneg, numeral_digits, Hm|].
    destruct ds as [d|]; [apply digits_val_nonneg, numeral_digits, Hd|lia]. }
  unfold step_years, step_months, signed.
  destruct neg; cbv iota; lia.
Qed.

(** The steps of the resolver on the numbers of a well-formed descriptor,
    when no step cuts the day and the days stay in the month. *)
Lemma add_times_within dt neg ys ms ds :
  valid_date dt = true ->
  numeral ys = true -> numeral_opt ms = true -> numeral_opt ds = true ->
  12 <= month_index dt + 12 * step_years neg ys + step_months neg ms ds
     <= 119999 ->
  day dt <= month_length (month_index dt + 12 * step_years neg ys) ->
  day dt <= month_length (month_index dt + 12 * step_years neg ys
                          + step_months neg ms ds) ->
  1 <= day dt + step_days neg ms ds
    <= month_length (month_index dt + 12 * step_years neg ys
                     + step_months neg ms ds) ->
  add_times dt (map (fun s => signed neg (digits_val s))
                    (ys :: option_list ms ++ option_list ds))
  = Return (of_month_index (month_index dt + 12 * step_years neg ys
                            + step_months neg ms ds)
                           (day dt + step_days neg ms ds)).
Proof.
  intros Hv Hy Hm Hd Hi H1 H2 H3.
  pose proof (proj1 (valid_date_fields dt) Hv) as (Hyr & Hmo & Hdd).
  assert (Hi0 : 12 <= month_index dt <= 119999) by (unfold month_index; lia).
  pose proof (steps_same_way neg ys ms ds Hy Hm Hd) as Hway.
  set (a := step_years neg ys) in *.
  set (b := step_months neg ms ds) in *.
  set (d := step_days neg ms ds) in *.
  assert (Hi1 : 12 <= month_index dt + 12 * a <= 119999) by lia.
  assert (Hva : valid_date (of_month_index (month_index dt + 12 * a) (day dt))
                = true) by (apply of_month_index_valid; lia).
  assert (Hvb : valid_date (of_month_index (month_index dt + 12 * a + b)
                                           (day dt)) = true)
    by (apply of_month_index_valid; lia).
  assert (Eyears : add_delta dt (delta_years (signed neg (digits_val ys)))
                   = Return (of_month_index (month_index dt + 12 * a) (day dt)))
    by (apply add_delta_years; assumption).
  assert (Emonths : forall v, signed neg v = b ->
            add_delta (of_month_index (month_index dt + 12 * a) (day dt))
                      (delta_months (signed neg v))
            = Return (of_month_index (month_index dt + 12 * a + b) (day dt))).
  { intros v ->.
    rewrite add_delta_months; rewrite ?month_index_of; simpl;
      try assumption; reflexivity. }
  cbn [map app add_times]. rewrite Eyears. cbn [mbind result_bind].
  destruct ms as [m|]; [destruct ds as [dd|]|destruct ds as [dd|]];
    simpl (map _ (_ ++ _)); cbv iota.
  - rewrite (Emonths (digits_val m) eq_refl). cbn [mbind result_bind].
    rewrite add_delta_days_within by (assumption || exact H3).
    reflexivity.
  - rewrite (Emonths (digits_val m) eq_refl). cbn [mbind result_bind].
    subst d. unfold step_days. rewrite signed_0, Z.add_0_r. reflexivity.
  - rewrite (Emonths (digits_val dd) eq_refl). cbn [mbind result_bind].
    subst d. unfold step_days. rewrite signed_0, Z.add_0_r. reflexivity.
  - subst b d. unfold step_months, step_days.
    rewrite signed_0, !Z.add_0_r. reflexivity.
Qed.

(** The resolver on a well-formed descriptor, under the same conditions:
    the date moves by the months and the days of the descriptor. *)
Lemma resolve_within dt n neg ys ms ds :
  valid_date dt = true -> precision_of n dt ->
  numeral ys = true -> numeral_opt ms = true -> numeral_opt ds = true ->
  12 <= month_index dt + 12 * step_years neg ys + step_months neg ms ds
     <= 119999 ->
  day dt <= month_length (month_index dt + 12 * step_years neg ys) ->
  day dt <= month_length (month_index dt + 12 * step_years neg ys
                          + step_months neg ms ds) ->
  1 <= day dt + step_days neg ms ds
    <= month_length (month_index dt + 12 * step_years neg ys
                     + step_months neg ms ds) ->
  find_cited_date (PyStr.prefix_to n (isoformat dt)) (descriptor neg ys ms ds)
  = Return (PyStr.prefix_to n
              (isoformat (of_month_index
                            (month_index dt + 12 * step_years neg ys
                             + step_months neg ms ds)
                            (day dt + step_days neg ms ds)))).
Proof.
  intros Hv Hp Hy Hm Hd Hi H1 H2 H3.
  unfold find_cited_date.
  rewrite length_prefix_iso, complete_date_prefix by assumption.
  rewrite timespan_times_descriptor by auto.
  rewrite fromisoformat_isoformat by assumption.
  cbn [mbind result_bind].
  now rewrite add_times_within by assumption.
Qed.

(** The resolver on a well-formed descriptor of days, with no years and no
    months: the date moves by the days of the descriptor. *)
Lemma resolve_days dt neg ys ms ds :
  valid_date dt = true ->
  numeral ys = true -> numeral_opt ms = true -> numeral_opt ds = true ->
  step_years neg ys = 0 -> step_months neg ms ds = 0 ->
  1 <= ymd2ord dt + step_days neg ms ds <= MAXORDINAL ->
  find_cited_date (PyStr.prefix_to 10 (isoformat dt)) (descriptor neg ys ms ds)
  = Return (PyStr.prefix_to 10
              (isoformat (ord2ymd (ymd2ord dt + step_days neg ms ds)))).
Proof.
  intros Hv Hy Hm Hd Ey Em Hr.
  destruct (ord_roundtrip dt Hv) as (E & _).
  assert (Hp : precision_of 10 dt) by now left.
  unfold find_cited_date.
  rewrite length_prefix_iso, complete_date_prefix by assumption.
  rewrite timespan_times_descriptor by assumption.
  rewrite fromisoformat_isoformat by assumption.
  unfold step_years in Ey. unfold step_months in Em. unfold step_days in *.
  cbn [mbind result_bind map app add_times]. rewrite Ey.
  change (delta_years 0) with (mkDelta 0 0 0).
  rewrite add_delta_none by assumption. cbn [mbind result_bind].
  destruct ms as [m|]; [destruct ds as [d|]|destruct ds as [d|]];
    simpl (map _ (_ ++ _)); cbv iota.
  - rewrite Em. change (delta_months 0) with (mkDelta 0 0 0).
    rewrite add_delta_none by assumption. cbn [mbind result_bind].
    now rewrite add_delta_days by assumption.
  - rewrite Em. change (delta_months 0) with (mkDelta 0 0 0).
    rewrite add_delta_none by assumption.
    now rewrite signed_0, Z.add_0_r, E.
  - rewrite Em. change (delta_months 0) with (mkDelta 0 0 0).
    rewrite add_delta_none by assumption.
    now rewrite signed_0, Z.add_0_r, E.
  - now rewrite signed_0, Z.add_0_r, E.
Qed.

End ResolveFacts.

Import Calendar CalendarFacts ParseFacts DateTextFacts ShiftFacts ResolveFacts.

(** C2, as amended. Round trip when no step cuts the day.  Take a reference
    date cut to one of the three precisions and a well-formed descriptor,
    read by the resolver as a step of years, months and days that keeps the
    fields the precision cuts off.  Either no step cuts the day to the end
    of a month, on the way there and on the way back, and the days stay
    within the month reached (in particular when the descriptor has no
    days); or the descriptor has days only and the date reached is in the
    calendar.  Then resolving the descriptor and, from the date reached,
    the descriptor of the opposite direction returns the reference date. *)
Theorem round_trip_resolution dt n neg ys ms ds :
  valid_date dt = true -> precision_of n dt ->
  numeral ys = true -> numeral_opt ms = true -> numeral_opt ds = true ->
  precision_kept n (step_months neg ms ds) (step_days neg ms ds) ->
  within_months dt (step_years neg ys) (step_months neg ms ds)
                (step_days neg ms ds)
  \/ days_alone dt (step_years neg ys) (step_months neg ms ds)
                (step_days neg ms ds) ->
  let reference := PyStr.prefix_to n (isoformat dt) in
  let d := descriptor neg ys ms ds in
  exists derived,
    find_cited_date reference d = Return derived
    /\ find_cited_date derived (invert d) = Return reference.
Proof.
  intros Hv Hp Hy Hm Hds [Hk7 Hk4] Hcase reference d.
  pose proof (proj1 (valid_date_fields dt) Hv) as (Hyr & Hmo & Hdd).
  pose proof (month_length_index dt Hmo) as Hlen.
  assert (Hi0 : 12 <= month_index dt <= 119999) by (unfold month_index; lia).
  assert (Hcase' :
            within_months dt (step_years neg ys) (step_months neg ms ds)
                          (step_days neg ms ds)
            \/ (n = 10%nat
                /\ days_alone dt (step_years neg ys) (step_months neg ms ds)
                              (step_days neg ms ds))).
  { destruct Hcase as [Hw|(Ea & Eb & Hr)]; [now left|].
    destruct (decide (n = 10%nat)) as [->|Hn]; [right; now repeat split|].
    left. rewrite Ea, Eb, (Hk7 Hn). unfold within_months.
    rewrite Z.mul_0_r, !Z.add_0_r. lia. }
  clear Hcase.
  destruct Hcase' as [(Hi & H1 & H2 & H3 & H4 & H5)|(-> & Ea & Eb & Hr)].
  - set (a := step_years neg ys) in *.
    set (b := step_months neg ms ds) in *.
    set (k := step_days neg ms ds) in *.
    set (r := of_month_index (month_index dt + 12 * a + b) (day dt + k)).
    exists (PyStr.prefix_to n (isoformat r)). split.
    { now apply resolve_within. }
    assert (Hvr : valid_date r = true) by (apply of_month_index_valid; lia).
    assert (Hpr : precision_of n r).
    { destruct Hp as [->|[(-> & Hd1)|(-> & Hd1 & Hm1)]].
      - now left.
      - right; left. split; [reflexivity|]. subst r. simpl.
        rewrite Hk7 by discriminate. lia.
      - right; right. split; [reflexivity|]. subst r. simpl.
        rewrite Hk7 by discriminate. split; [lia|].
        specialize (Hk4 eq_refl). unfold month_index. rewrite Hm1.
        clear - Hk4. Z.div_mod_to_equations. lia. }
    subst d. rewrite invert_descriptor.
    assert (Ei : month_index r = month_index dt + 12 * a + b)
      by (subst r; apply month_index_of).
    assert (Ed : day r = day dt + k) by reflexivity.
    rewrite resolve_within; try assumption;
      rewrite ?step_years_negb, ?step_months_negb, ?step_days_negb, ?Ei, ?Ed;
      fold a b k.
    + subst reference. do 2 f_equal.
      replace (month_index dt + 12 * a + b + 12 * - a + - b)
        with (month_index dt) by lia.
      replace (day dt + k + - k) with (day dt) by lia.
      now rewrite of_month_index_self.
    + lia.
    + replace (month_index dt + 12 * a + b + 12 * - a)
        with (month_index dt + b) by lia. exact H4.
    + replace (month_index dt + 12 * a + b + 12 * - a + - b)
        with (month_index dt) by lia. exact H5.
    + replace (month_index dt + 12 * a + b + 12 * - a + - b)
        with (month_index dt) by lia. lia.
  - set (k := step_days neg ms ds) in *.
    destruct (ord_roundtrip dt Hv) as (E & Hlo & Hhi).
    set (r := ord2ymd (ymd2ord dt + k)).
    assert (Hvr : valid_date r = true) by (apply ord2ymd_valid; assumption).
    assert (Er : ymd2ord r = ymd2ord dt + k)
      by (apply ymd2ord_ord2ymd; assumption).
    exists (PyStr.prefix_to 10 (isoformat r)). split.
    { now apply resolve_days. }
    subst d. rewrite invert_descriptor.
    rewrite resolve_days; try assumption;
      rewrite ?step_years_negb, ?step_months_negb, ?step_days_negb, ?Er;
      fold k.
    + subst reference.
      replace (ymd2ord dt + k + - k) with (ymd2ord dt) by lia.
      now rewrite E.
    + lia.
    + lia.
    + lia.
Qed.

Lemma round_trip_resolution_witness :
  (exists derived,
     find_cited_date "2020-03-31" "P0Y2M" = Return derived
     /\ find_cited_date derived "-P0Y2M" = Return "2020-03-31")
  /\ (exists derived,
        find_cited_date "2021-05-30" "P1Y1M" = Return derived
        /\ find_cited_date derived "-P1Y1M" = Return "2021-05-30")
  /\ (exists derived,
        find_cited_date "2020-03" "P1Y2M" = Return derived
        /\ find_cited_date derived "-P1Y2M" = Return "2020-03")
  /\ (exists derived,
        find_cited_date "2020" "P3Y24M" = Return derived
        /\ find_cited_date derived "-P3Y24M" = Return "2020")
  /\ (exists derived,
        find_cited_date "2020-03-15" "P0Y1M1D" = Return derived
        /\ find_cited_date derived "-P0Y1M1D" = Return "2020-03-15")
  /\ (exists derived,
        find_cited_date "2020-03-31" "P0Y0M45D" = Return derived
        /\ find_cited_date derived "-P0Y0M45D" = Return "2020-03-31").
Proof.
  assert (Hk10 : forall b k, precision_kept 10 b k)
    by (intros b k; split; [intros H; now contradict H|discriminate]).
  split; [|split; [|split; [|split; [|split]]]].
  - apply (round_trip_resolution (mkDate 2020 3 31) 10 false "0" (Some "2")
             None); try reflexivity.
    + now left.
    + apply Hk10.
    + left. vm_compute. repeat split; discriminate.
  - apply (round_trip_resolution (mkDate 2021 5 30) 10 false "1" (Some "1")
             None); try reflexivity.
    + now left.
    + apply Hk10.
    + left. vm_compute. repeat split; discriminate.
  - apply (round_trip_resolution (mkDate 2020 3 1) 7 false "1" (Some "2") None);
      try reflexivity.
    + right; left. split; reflexivity.
    + split; [reflexivity|discriminate].
    + left. vm_compute. repeat split; discriminate.
  - apply (round_trip_resolution (mkDate 2020 1 1) 4 false "3" (Some "24")
             None); try reflexivity.
    + right; right. repeat split; reflexivity.
    + split; reflexivity.
    + left. vm_compute. repeat split; discriminate.
  - apply (round_trip_resolution (mkDate 2020 3 15) 10 false "0" (Some "1")
             (Some "1")); try reflexivity.
    + now left.
    + apply Hk10.
    + left. vm_compute. repeat split; discriminate.
  - apply (round_trip_resolution (mkDate 2020 3 31) 10 false "0" (Some "0")
             (Some "45")); try reflexivity.
    + now left.
    + apply Hk10.
    + right. vm_compute. repeat split; discriminate.
Defined.

(** * The graph invariants *)

Module ImpactFacts.

Lemma count_if_cons {A} (p : A -> bool) x l :
  count_if p (x :: l) = ((if p x then 1 else 0) + count_if p l)%nat.
Proof. unfold count_if. simpl. now destruct (p x). Qed.

Lemma count_if_ext {A} (p q : A -> bool) l :
  (forall x, In x l -> p x = q x) -> count_if p l = count_if q l.
Proof.
  induction l as [|x l IH]; intros H; [reflexivity|].
  rewrite !count_if_cons, (H x (or_introl eq_refl)), IH; [reflexivity|].
  intros y Hy. apply H. now right.
Qed.

Lemma count_if_omap {A B} (f : A -> option B) (p : B -> bool) l :
  count_if p (omap f l)
  = count_if (fun x => from_option p false (f x)) l.
Proof.
  induction l as [|x l IH]; [reflexivity|].
  rewrite count_if_cons. cbn [omap list_omap].
  destruct (f x) as [b|]; cbn [from_option];
    rewrite ?count_if_cons, IH; reflexivity.
Qed.

(** Counting a disjoint alternative adds up. *)
Lemma count_if_or {A} (p q : A -> bool) l :
  (forall x, In x l -> p x = true -> q x = true -> False) ->
  count_if (fun x => p x || q x) l = (count_if p l + count_if q l)%nat.
Proof.
  induction l as [|x l IH]; intros H; [reflexivity|].
  rewrite !count_if_cons, IH by (intros y Hy; apply H; now right).
  specialize (H x (or_introl eq_refl)).
  destruct (p x), (q x); simpl; try lia.
Qed.

Lemma count_if_none {A} (p : A -> bool) l :
  (forall x, In x l -> p x = false) -> count_if p l = 0%nat.
Proof.
  induction l as [|x l IH]; intros H; [reflexivity|].
  rewrite count_if_cons, (H x (or_introl eq_refl)), IH; [reflexivity|].
  intros y Hy. apply H. now right.
Qed.

Lemma count_if_zero {A} (p : A -> bool) l :
  count_if p l = 0%nat <-> forall x, In x l -> p x = false.
Proof.
  split; [|apply count_if_none].
  induction l as [|x l IH]; intros H y Hy; [destruct Hy|].
  rewrite count_if_cons in H. destruct Hy as [->|Hy].
  - destruct (p y); [discriminate|reflexivity].
  - apply IH; [lia|assumption].
Qed.

Lemma year_is_Return data n y z :
  creation_year data n = Return z -> year_is data n y = (z =? y).
Proof. unfold year_is. now intros ->. Qed.

Section Loop.
Variable data : nxgraph.
Variable year : Z.
Hypothesis Hwf : well_formed data.
Hypothesis Hdated : dated data.

Lemma elem_of_edges u v :
  In (u, v) (Nx.edges data) <-> is_Some (g_adj data !! (u, v)).
Proof.
  unfold Nx.edges. rewrite <- list_elem_of_In, list_elem_of_fmap. split.
  - intros ([e a] & E & H). simpl in E. subst e.
    apply elem_of_map_to_list in H. eauto.
  - intros [a H]. exists ((u, v), a). split; [reflexivity|].
    now apply elem_of_map_to_list.
Qed.

Lemma predecessor_node doi citing :
  In citing (Nx.predecessors data doi) -> is_Some (g_node data !! citing).
Proof.
  unfold Nx.predecessors. rewrite <- list_elem_of_In, list_elem_of_omap.
  intros ([u v] & Hin & E). simpl in E.
  destruct (decide (v = doi)); [|discriminate]. injection E as ->.
  apply list_elem_of_In, elem_of_edges, Hwf in Hin. tauto.
Qed.

(** The inner loop counts the predecessors of the year. *)
Lemma count_citing_spec preds : forall cntr,
  (forall c, In c preds -> is_Some (g_node data !! c)) ->
  count_citing data year preds cntr
  = Return (cntr + count_if (fun c => year_is data c year) preds)%nat.
Proof.
  induction preds as [|c preds IH]; intros cntr Hn.
  - simpl. f_equal. unfold count_if. simpl. lia.
  - simpl. pose proof (Hdated c (Hn c (or_introl eq_refl))) as Hc.
    destruct (creation_year data c) as [z|] eqn:E; [|discriminate].
    simpl. rewrite IH by (intros; apply Hn; now right).
    rewrite count_if_cons, (year_is_Return _ _ _ _ E).
    f_equal. destruct (z =? year); lia.
Qed.

Lemma count_predecessors doi :
  count_if (fun c => year_is data c year) (Nx.predecessors data doi)
  = cited_in_year data year doi.
Proof.
  unfold Nx.predecessors, cited_in_year. rewrite count_if_omap.
  apply count_if_ext. intros [u v] _. simpl.
  destruct (decide (v = doi)) as [->|Hne].
  - now rewrite bool_decide_eq_true_2.
  - now rewrite bool_decide_eq_false_2.
Qed.

(** The outer loop adds, for the documents in the graph, the citations of
    the year and the documents of the two years before. *)
Lemma impact_loop_spec dois : forall c p,
  impact_loop data year dois (c, p)
  = Return
      ((c + fold_right
              (fun doi acc =>
                 ((if Nx.has_node data doi then cited_in_year data year doi else 0)
                  + acc)%nat) 0%nat dois)%nat,
       (p + published_before data dois year)%nat).
Proof.
  induction dois as [|doi dois IH]; intros c p.
  - simpl. unfold published_before, count_if. simpl. do 2 f_equal; lia.
  - simpl. unfold published_before in *. rewrite count_if_cons.
    destruct (Nx.has_node data doi) eqn:Hn.
    + rewrite count_citing_spec by (intros ?; apply predecessor_node).
      rewrite count_predecessors. simpl.
      apply bool_decide_eq_true_1 in Hn.
      pose proof (Hdated doi Hn) as Hd.
      destruct (creation_year data doi) as [z|] eqn:E; [|discriminate].
      simpl. rewrite IH.
      rewrite !(year_is_Return _ _ _ _ E).
      do 2 f_equal; [lia|].
      destruct ((z =? year - 1) || (z =? year - 2)); simpl; lia.
    + rewrite IH. simpl. do 2 f_equal.
Qed.

(** Over a set of documents, the citations of the documents add up to the
    pooled count of the edges. *)
Lemma pooled_citations dois :
  NoDup dois ->
  fold_right (fun doi acc =>
                ((if Nx.has_node data doi then cited_in_year data year doi else 0)
                 + acc)%nat) 0%nat dois
  = citations_in_year data dois year.
Proof.
  unfold citations_in_year.
  induction 1 as [|doi dois Hnotin Hnd IH].
  - simpl. symmetry. apply count_if_none. now intros e _.
  - simpl. rewrite IH.
    transitivity (cited_in_year data year doi
                  + count_if (fun e : string * string =>
                                bool_decide (e.2 ∈ dois)
                                && year_is data e.1 year) (Nx.edges data))%nat.
    { f_equal. destruct (Nx.has_node data doi) eqn:Hn; [reflexivity|].
      symmetry. apply count_if_none. intros [u v] Hin. simpl.
      destruct (decide (v = doi)) as [->|Hne];
        [|now rewrite bool_decide_eq_false_2].
      apply elem_of_edges, Hwf in Hin as [_ Hin].
      apply bool_decide_eq_false_1 in Hn. contradiction. }
    unfold cited_in_year. rewrite <- count_if_or.
    + apply count_if_ext. intros [u v] _. simpl.
      destruct (decide (v = doi)) as [->|Hne].
      * rewrite (bool_decide_eq_true_2 (doi ∈ doi :: dois))
          by (apply elem_of_cons; auto).
        rewrite (bool_decide_eq_true_2 (doi = doi)) by reflexivity.
        rewrite (bool_decide_eq_false_2 (doi ∈ dois)) by assumption.
        now destruct (year_is data u year).
      * rewrite (bool_decide_eq_false_2 (v = doi)) by assumption. simpl.
        f_equal. apply bool_decide_ext. rewrite elem_of_cons. tauto.
    + intros [u v] _. simpl.
      intros [H1 _]%andb_prop [H2 _]%andb_prop.
      apply bool_decide_eq_true_1 in H1, H2. subst. contradiction.
Qed.

End Loop.
End ImpactFacts.

Import ImpactFacts.

(** C4. Impact factor: for a graph that satisfies the data model, a set of
    documents and a year, the result is [None] exactly when no document of
    the set in the graph was created in one of the two years before; else it
    is the pooled number of citation edges into the documents of the set
    whose citing document was created in the year, divided by the number of
    those documents, whatever the citations are.  The year of a node reads
    the first four characters of its [creation]. *)
Theorem impact_factor_spec data dois year y :
  well_formed data -> dated data -> NoDup dois -> py_int year = Return y ->
  do_compute_impact_factor data dois year
  = Return (if (published_before data dois y =? 0)%nat then None
            else Some (Z.of_nat (citations_in_year data dois y)
                       # Pos.of_nat (published_before data dois y)))
  /\ (published_before data dois y = 0%nat <->
      forall doi, doi ∈ dois -> Nx.has_node data doi = true ->
        creation_year data doi <> Return (y - 1)
        /\ creation_year data doi <> Return (y - 2)).
Proof.
  intros Hwf Hdated Hnd Hy. split.
  - unfold do_compute_impact_factor. rewrite Hy. simpl.
    rewrite impact_loop_spec by assumption. simpl.
    rewrite pooled_citations by assumption.
    now destruct (published_before data dois y =? 0)%nat.
  - unfold published_before. rewrite count_if_zero. split.
    + intros H doi Hin Hn. specialize (H doi (proj1 (list_elem_of_In _ _) Hin)).
      rewrite Hn in H. simpl in H. apply orb_false_iff in H as [H1 H2].
      unfold year_is in *.
      split; intros E; rewrite E in *; rewrite Z.eqb_refl in *; discriminate.
    + intros H doi Hin%list_elem_of_In.
      destruct (Nx.has_node data doi) eqn:Hn; [|reflexivity].
      destruct (H doi Hin Hn) as [H1 H2]. simpl. unfold year_is.
      destruct (creation_year data doi) as [z|]; [|reflexivity].
      apply orb_false_iff.
      split; apply Z.eqb_neq; intros ->; [now apply H1|now apply H2].
Qed.

Module GraphFacts.

Lemma has_node_true G n :
  Nx.has_node G n = true <-> is_Some (g_node G !! n).
Proof. unfold Nx.has_node. apply bool_decide_eq_true. Qed.

Lemma node_attr_created G n :
  created G -> is_Some (g_node G !! n) ->
  exists c, Nx.node_attr G n "creation" = Return c.
Proof.
  intros Hc [a Ha]. destruct (Hc n a Ha) as [c Hcr].
  exists c. unfold Nx.node_attr, Nx.getitem. now rewrite Ha, Hcr.
Qed.

Lemma add_edge_adj G u v attr e :
  g_class G = DiGraph ->
  is_Some (g_adj (Nx.add_edge G u v attr) !! e)
  <-> e = (u, v) \/ is_Some (g_adj G !! e).
Proof.
  intros Hc. unfold Nx.add_edge. rewrite Hc. simpl.
  destruct (decide (e = (u, v))) as [->|Hne].
  - rewrite lookup_insert_eq. split; eauto.
  - rewrite lookup_insert_ne by congruence. split; [auto|].
    now intros [?|?].
Qed.

Lemma add_edge_class G u v attr :
  g_class (Nx.add_edge G u v attr) = g_class G.
Proof. reflexivity. Qed.

Lemma add_edges_from_class G es :
  g_class (Nx.add_edges_from G es) = g_class G.
Proof.
  unfold Nx.add_edges_from. revert G.
  induction es as [|e es IH]; intros G; [reflexivity|].
  simpl. now rewrite IH.
Qed.

(** The edges of a graph built by [add_edges_from]. *)
Lemma add_edges_from_adj es : forall G e,
  g_class G = DiGraph ->
  is_Some (g_adj (Nx.add_edges_from G es) !! e)
  <-> e ∈ es \/ is_Some (g_adj G !! e).
Proof.
  unfold Nx.add_edges_from.
  induction es as [|[u v] es IH]; intros G e Hc; simpl.
  - rewrite elem_of_nil. tauto.
  - rewrite IH by assumption. rewrite add_edge_adj by assumption.
    rewrite elem_of_cons. simpl. tauto.
Qed.

(** The nodes [add_edges_from] creates carry no attribute. *)
Lemma add_edges_from_node es : forall G n a,
  (forall m b, g_node G !! m = Some b -> b = ∅) ->
  g_node (Nx.add_edges_from G es) !! n = Some a -> a = ∅.
Proof.
  unfold Nx.add_edges_from.
  induction es as [|[u v] es IH]; intros G n a HG; simpl.
  - apply HG.
  - apply IH. intros m b. unfold Nx.add_edge. simpl.
    destruct (g_node G !! u) as [au|] eqn:Eu.
    + destruct (g_node G !! v) as [av|] eqn:Ev; [apply HG|].
      destruct (decide (m = v)) as [->|Hne].
      * rewrite lookup_insert_eq. congruence.
      * rewrite lookup_insert_ne by congruence. apply HG.
    + destruct (decide (v = u)) as [->|Hvu].
      * rewrite lookup_insert_eq.
        destruct (decide (m = u)) as [->|Hne].
        -- rewrite lookup_insert_eq. congruence.
        -- rewrite lookup_insert_ne by congruence. apply HG.
      * rewrite (lookup_insert_ne _ u v) by congruence.
        destruct (g_node G !! v) as [av|] eqn:Ev.
        -- destruct (decide (m = u)) as [->|Hne].
           ++ rewrite lookup_insert_eq. congruence.
           ++ rewrite lookup_insert_ne by congruence. apply HG.
        -- destruct (decide (m = v)) as [->|Hne].
           ++ rewrite lookup_insert_eq. congruence.
           ++ rewrite lookup_insert_ne by congruence.
              destruct (decide (m = u)) as [->|Hne'].
              ** rewrite lookup_insert_eq. congruence.
              ** rewrite lookup_insert_ne by congruence. apply HG.
Qed.

End GraphFacts.

Module NetworkFacts.
Import GraphFacts ImpactFacts.

(** The loop keeps the edges within the window. *)
Lemma eligible_edges_spec data start end_ es :
  created data ->
  (forall u v, (u, v) ∈ es ->
     is_Some (g_node data !! u) /\ is_Some (g_node data !! v)) ->
  exists l, eligible_edges data start end_ es = Return l
       /\ forall e, e ∈ l <-> e ∈ es /\ in_window data start end_ e.
Proof.
  intros Hc. induction es as [|[u v] es IH]; intros Hn.
  - exists []. split; [reflexivity|]. intros e. rewrite elem_of_nil. tauto.
  - destruct IH as (l & El & Hl).
    { intros u' v' H. apply Hn. now right. }
    destruct (Hn u v (list_elem_of_here _ _)) as [Hu Hv].
    destruct (node_attr_created data u Hc Hu) as [cu Ecu].
    destruct (node_attr_created data v Hc Hv) as [cv Ecv].
    simpl. rewrite Ecu, Ecv. simpl. rewrite El. simpl.
    eexists. split; [reflexivity|]. intros e.
    destruct (str_between start end_ (PyStr.slice 0 4 cu)
              && str_between start end_ (PyStr.slice 0 4 cv)) eqn:Eb.
    + apply andb_prop in Eb as [E1 E2].
      rewrite !elem_of_cons, Hl. split.
      * intros [->|[? ?]]; [|tauto]. split; [now left|].
        exists cu, cv. auto.
      * intros [[->|?] ?]; [now left|right; tauto].
    + rewrite Hl, elem_of_cons. split; [tauto|].
      intros [[->|?] Hw]; [|tauto]. exfalso.
      destruct Hw as (c1 & c2 & H1 & H2 & H3 & H4). simpl in H1, H2.
      rewrite Ecu in H1. rewrite Ecv in H2.
      injection H1 as <-. injection H2 as <-.
      rewrite H3, H4 in Eb. discriminate.
Qed.

Lemma str_between_same s y : str_between s s y = true -> y = s.
Proof.
  unfold str_between. intros [H1 H2]%andb_prop.
  now apply String.leb_antisym.
Qed.

End NetworkFacts.

Import GraphFacts NetworkFacts ImpactFacts.

(** C5. Time window: when [start > end] as strings or a bound is not of four
    characters the result is the empty graph; else, on a graph of the data
    model, the result holds an edge exactly when the edge is in the graph
    and the first four characters of the [creation] of both end points are
    between [start] and [end] as strings; for [start = end] both end points
    were created in that year. *)
Theorem citation_network_spec data start end_ :
  well_formed data -> created data ->
  let s := py_str start in
  let e := py_str end_ in
  exists result,
    do_get_citation_network data start end_ = Return result
    /\ (String.leb s e = false \/ String.length s <> 4%nat
        \/ String.length e <> 4%nat -> result = Nx.empty DiGraph)
    /\ (String.leb s e = true -> String.length s = 4%nat ->
        String.length e = 4%nat ->
        forall u v,
          is_Some (g_adj result !! (u, v))
          <-> is_Some (g_adj data !! (u, v)) /\ in_window data s e (u, v))
    /\ (s = e ->
        forall u v, is_Some (g_adj result !! (u, v)) ->
          exists c_from c_to,
            Nx.node_attr data u "creation" = Return c_from
            /\ Nx.node_attr data v "creation" = Return c_to
            /\ PyStr.slice 0 4 c_from = s /\ PyStr.slice 0 4 c_to = s).
Proof.
  intros Hwf Hc s e.
  destruct (eligible_edges_spec data s e (Nx.edges data) Hc) as (l & El & Hl).
  { intros u v H. apply Hwf. now apply elem_of_edges, list_elem_of_In. }
  assert (Hedges : forall u v,
            (u, v) ∈ Nx.edges data <-> is_Some (g_adj data !! (u, v))).
  { intros u v. rewrite list_elem_of_In. apply elem_of_edges. }
  assert (Hempty : forall u v : string,
            is_Some (g_adj (Nx.empty DiGraph) !! (u, v)) -> False).
  { intros u v [a H]. simpl in H. rewrite lookup_empty in H. discriminate. }
  unfold do_get_citation_network. fold s e. rewrite El. simpl.
  destruct (String.leb s e) eqn:Ele; simpl.
  2:{ eexists. split; [reflexivity|].
      split; [reflexivity|]. split; [discriminate|].
      intros _ u v H. now apply Hempty in H. }
  destruct (String.length s =? String.length e)%nat eqn:E1; simpl.
  2:{ apply Nat.eqb_neq in E1. eexists. split; [reflexivity|].
      split; [reflexivity|]. split; [intros _ H1 H2; congruence|].
      intros _ u v H. now apply Hempty in H. }
  apply Nat.eqb_eq in E1.
  destruct (String.length e =? 4)%nat eqn:E2; simpl.
  2:{ apply Nat.eqb_neq in E2. eexists. split; [reflexivity|].
      split; [reflexivity|]. split; [intros _ _ H2; congruence|].
      intros _ u v H. now apply Hempty in H. }
  apply Nat.eqb_eq in E2.
  assert (Hres : forall u v,
            is_Some (g_adj (Nx.add_edges_from (Nx.empty DiGraph) l) !! (u, v))
            <-> is_Some (g_adj data !! (u, v)) /\ in_window data s e (u, v)).
  { intros u v. rewrite add_edges_from_adj by reflexivity.
    rewrite Hl, Hedges. split; [|auto].
    intros [H|H]; [exact H|]. now apply Hempty in H. }
  eexists. split; [reflexivity|].
  split; [intros [H|[H|H]]; [discriminate|lia|lia]|].
  split; [intros _ _ _; apply Hres|].
  intros Hse u v H. apply Hres in H as [_ (cu & cv & H1 & H2 & H3 & H4)].
  exists cu, cv. simpl in H1, H2. rewrite <- Hse in H3, H4.
  repeat split; auto using str_between_same.
Qed.

(** C7. Merge: the call returns a graph exactly when the two graphs are of
    the same class; the graph returned has the nodes of both and the edges
    of both, and an attribute of a node or of an edge is the one of the
    second graph when it has one and the one of the first graph otherwise.
    For graphs of different classes the call returns [None]. *)
Theorem merge_graphs_spec data g1 g2 :
  match do_merge_graphs data g1 g2 with
  | Some r =>
      g_class g1 = g_class g2
      /\ g_class r = g_class g1
      /\ dom (g_node r) = dom (g_node g1) ∪ dom (g_node g2)
      /\ dom (g_adj r) = dom (g_adj g1) ∪ dom (g_adj g2)
      /\ (forall n key,
            (g_node r !! n ≫= (.!! key))
            = match g_node g2 !! n ≫= (.!! key) with
              | Some v => Some v
              | None => g_node g1 !! n ≫= (.!! key)
              end)
      /\ (forall e key,
            (g_adj r !! e ≫= (.!! key))
            = match g_adj g2 !! e ≫= (.!! key) with
              | Some v => Some v
              | None => g_adj g1 !! e ≫= (.!! key)
              end)
  | None => g_class g1 <> g_class g2
  end.
Proof.
  unfold do_merge_graphs.
  destruct (decide (g_class g1 = g_class g2)) as [Hc|Hc]; [|exact Hc].
  assert (Hattr : forall {K} `{Countable K} (m1 m2 : gmap K attrs) k key,
            (union_with (fun a b => Some (Nx.update a b)) m1 m2 !! k
               ≫= (.!! key))
            = match m2 !! k ≫= (.!! key) with
              | Some v => Some v
              | None => m1 !! k ≫= (.!! key)
              end).
  { intros K ? ? m1 m2 k key. rewrite lookup_union_with.
    destruct (m1 !! k) as [a|], (m2 !! k) as [b|]; simpl; try reflexivity.
    - unfold Nx.update. rewrite lookup_union.
      destruct (b !! key), (a !! key); reflexivity.
    - now destruct (b !! key). }
  assert (Hdom : forall {K} `{Countable K} (m1 m2 : gmap K attrs),
            dom (union_with (fun a b => Some (Nx.update a b)) m1 m2)
            = dom m1 ∪ dom m2).
  { intros K ? ? m1 m2. apply set_eq. intros k.
    rewrite elem_of_union, !elem_of_dom, lookup_union_with.
    destruct (m1 !! k), (m2 !! k); simpl;
      split; intros; try (eauto; fail);
      repeat match goal with
             | H : _ \/ _ |- _ => destruct H
             | H : is_Some None |- _ => destruct H; discriminate
             end. }
  simpl. repeat split; auto.
Qed.

Module IngestFacts.
Import GraphFacts.

Lemma add_node_lookup G n attr m :
  g_node (Nx.add_node G n attr) !! m
  = if decide (m = n)
    then Some (Nx.update (default ∅ (g_node G !! n)) attr)
    else g_node G !! m.
Proof.
  unfold Nx.add_node. simpl. destruct (decide (m = n)) as [->|Hne].
  - apply lookup_insert_eq.
  - now apply lookup_insert_ne.
Qed.

Lemma add_node_ingested G n c :
  ingested G -> ingested (Nx.add_node G n {["creation" := c]}).
Proof.
  intros (Hwf & Hc & Hcl). split; [|split; [|exact Hcl]].
  - intros u v H. apply Hwf in H as [[a Ha] [b Hb]].
    rewrite !add_node_lookup.
    split; [destruct (decide (u = n))|destruct (decide (v = n))]; eauto.
  - intros m a. rewrite add_node_lookup.
    destruct (decide (m = n)) as [->|_]; [|apply Hc].
    intros [= <-]. unfold Nx.update. exists c.
    apply lookup_union_Some_l. apply lookup_singleton_eq.
Qed.

Lemma add_edge_node_present G u v attr :
  is_Some (g_node G !! u) -> is_Some (g_node G !! v) ->
  g_node (Nx.add_edge G u v attr) = g_node G.
Proof.
  intros [a Ha] [b Hb]. unfold Nx.add_edge. simpl. now rewrite Ha, Hb.
Qed.

Lemma add_edge_ingested G u v attr :
  ingested G -> is_Some (g_node G !! u) -> is_Some (g_node G !! v) ->
  ingested (Nx.add_edge G u v attr).
Proof.
  intros (Hwf & Hc & Hcl) Hu Hv. split; [|split; [|exact Hcl]].
  - intros x y H. rewrite (add_edge_node_present G u v attr Hu Hv).
    apply add_edge_adj in H as [[= -> ->]|H]; [auto| |assumption].
    now apply Hwf in H.
  - unfold created. rewrite (add_edge_node_present G u v attr Hu Hv).
    apply Hc.
Qed.

Lemma process_row_ingested G row G' :
  ingested G -> process_row G row = Return G' -> ingested G'.
Proof.
  intros HG. unfold process_row.
  destruct row as [|citing [|cited [|creation [|timespan [|? ?]]]]];
    try (intros [= <-]; exact HG).
  set (G1 := if Nx.has_node G citing then G
             else Nx.add_node G citing {["creation" := creation]}).
  assert (H1 : ingested G1)
    by (subst G1; destruct (Nx.has_node G citing); auto using add_node_ingested).
  assert (Hciting : is_Some (g_node G1 !! citing)).
  { subst G1. destruct (Nx.has_node G citing) eqn:E.
    - now apply has_node_true.
    - rewrite add_node_lookup. destruct (decide (citing = citing)); eauto.
      contradiction. }
  intros H. inv_bind H. rename a into G2. injection H as <-.
  assert (H2 : ingested G2 /\ is_Some (g_node G2 !! citing)
               /\ is_Some (g_node G2 !! cited)).
  { destruct (Nx.has_node G1 cited) eqn:E.
    - injection Ha as <-. apply has_node_true in E. auto.
    - inv_bind Ha. injection Ha as <-.
      split; [now apply add_node_ingested|].
      rewrite !add_node_lookup.
      split; [destruct (decide (citing = cited)); eauto|].
      destruct (decide (cited = cited)); [eauto|contradiction]. }
  destruct H2 as (H2 & Hu & Hv). now apply add_edge_ingested.
Qed.

Lemma process_rows_ingested rows : forall G G',
  ingested G -> process_rows G rows = Return G' -> ingested G'.
Proof.
  induction rows as [|row rows IH]; intros G G' HG H; simpl in H.
  - now injection H as <-.
  - inv_bind H. eauto using process_row_ingested.
Qed.

(** The graph [process_citations] returns satisfies the invariants: its
    edges join nodes, and every node has a [creation]. *)
Lemma process_citations_ingested csv_rows G :
  process_citations csv_rows = Return G -> ingested G.
Proof.
  unfold process_citations. destruct csv_rows as [|heading rows];
    [discriminate|].
  apply process_rows_ingested. split; [|split; [|reflexivity]].
  - intros u v [a H]. simpl in H. now rewrite lookup_empty in H.
  - intros n a H. simpl in H. now rewrite lookup_empty in H.
Qed.

(** The nodes of a time-window network carry no attribute at all. *)
Lemma citation_network_bare data start end_ r :
  do_get_citation_network data start end_ = Return r ->
  forall n a, g_node r !! n = Some a -> a = ∅.
Proof.
  unfold do_get_citation_network.
  assert (He : forall m b, g_node (Nx.empty DiGraph) !! m = Some b -> b = ∅)
    by (intros m b H; simpl in H; now rewrite lookup_empty in H).
  destruct (_ && _).
  - intros H. inv_bind H. injection H as <-.
    intros n a'. now apply add_edges_from_node.
  - intros [= <-]. exact He.
Qed.

End IngestFacts.

Lemma sample_graph_ingested : ingested sample_graph.
Proof.
  apply (IngestFacts.process_citations_ingested sample_rows).
  vm_compute. reflexivity.
Qed.

Lemma dated_check G :
  forallb (fun kv : string * attrs => is_Return (creation_year G kv.1))
          (map_to_list (g_node G)) = true ->
  dated G.
Proof.
  intros H n [a Hn]. rewrite forallb_forall in H.
  apply (H (n, a)). apply list_elem_of_In. now apply elem_of_map_to_list.
Qed.

Lemma sample_graph_dated : dated sample_graph.
Proof. apply dated_check. vm_compute. reflexivity. Qed.

(** * Query evaluation *)

Module EvalFacts.
Import ImpactFacts.

Section WithInterpreter.
Context `{Interpreter}.

Lemma evaluate_true requery value :
  evaluate_query_string requery value = true <-> holds requery value.
Proof.
  unfold evaluate_query_string, holds. split.
  - destruct (str_format requery value) as [source|] eqn:E1; [|discriminate].
    simpl. destruct (py_eval source) as [v|] eqn:E2; [|discriminate].
    simpl. eauto.
  - intros (source & v & -> & E2 & Ht). simpl. now rewrite E2.
Qed.



Lemma elem_of_edges_data data e :
  e ∈ Nx.edges data <-> is_Some (g_adj data !! e).
Proof. destruct e as [u v]. rewrite list_elem_of_In. apply elem_of_edges. Qed.

End WithInterpreter.
End EvalFacts.

Import EvalFacts.


(** * Query results *)

Module ViewFacts.
Import EvalFacts.

Lemma elem_of_endpoints n L :
  n ∈ endpoints L <-> exists e, e ∈ L /\ (n = e.1 \/ n = e.2).
Proof.
  unfold endpoints. rewrite elem_of_list_to_set, list_elem_of_In, in_flat_map.
  split.
  - intros (e & He & Hn). exists e. rewrite list_elem_of_In. simpl in Hn.
    intuition.
  - intros (e & He & Hn). exists e. rewrite <- list_elem_of_In. simpl.
    intuition.
Qed.

Lemma restrict_adj L g e :
  g_adj (View.restrict (endpoints L) (list_to_set L) g) !! e
  = if bool_decide (e ∈ L) then g_adj g !! e else None.
Proof.
  unfold View.restrict. simpl. destruct (bool_decide (e ∈ L)) eqn:E.
  - apply bool_decide_eq_true_1 in E.
    destruct (g_adj g !! e) as [a|] eqn:Ea.
    + apply map_lookup_filter_Some. split; [assumption|]. simpl.
      rewrite !elem_of_endpoints, elem_of_list_to_set.
      split; [exists e; auto|split; [exists e; auto|assumption]].
    + apply map_lookup_filter_None. now left.
  - apply bool_decide_eq_false_1 in E.
    apply map_lookup_filter_None. right. intros a _. simpl.
    rewrite elem_of_list_to_set. tauto.
Qed.

Lemma restrict_node L g n :
  g_node (View.restrict (endpoints L) (list_to_set L) g) !! n
  = if bool_decide (n ∈ endpoints L) then g_node g !! n else None.
Proof.
  unfold View.restrict. simpl. destruct (bool_decide (n ∈ endpoints L)) eqn:E.
  - apply bool_decide_eq_true_1 in E.
    destruct (g_node g !! n) as [a|] eqn:Ea.
    + now apply map_lookup_filter_Some.
    + apply map_lookup_filter_None. now left.
  - apply bool_decide_eq_false_1 in E.
    apply map_lookup_filter_None. right. now intros a _.
Qed.

Lemma restrict_induced L g :
  induced_by L g (View.restrict (endpoints L) (list_to_set L) g).
Proof. split; [apply restrict_adj|apply restrict_node]. Qed.

Lemma filterR_subset {A} (cond : A -> result bool) (l L : list A) :
  filterR cond l = Return L -> forall x, x ∈ L -> x ∈ l.
Proof.
  revert L. induction l as [|x l IH]; intros L H; simpl in H.
  - injection H as <-. auto.
  - inv_bind H. inv_bind H. injection H as <-.
    intros y Hy. destruct a.
    + apply elem_of_cons in Hy as [->|Hy]; [now left|right; eauto].
    + right. eauto.
Qed.

(** The edges [get_filtered_list] returns are edges of the graph. *)
Lemma get_filtered_list_subset `{Interpreter} data requery field L :
  get_filtered_list data requery field = Return L ->
  forall e, e ∈ L -> e ∈ Nx.edges data.
Proof.
  unfold get_filtered_list.
  destruct (_ || _).
  { intros [= <-] e He. now apply list_elem_of_filter in He as [_ ?]. }
  destruct (String.eqb field "creation"); [apply filterR_subset|].
  destruct (String.eqb field "timespan").
  - intros HL. destruct (filterR _ _) as [L'|] eqn:E; [|discriminate].
    injection HL as <-. intros e He.
    apply list_elem_of_fmap in He as ([e' a] & -> & He).
    apply (filterR_subset _ _ _ E) in He.
    unfold Nx.edges, Nx.edges_data in *.
    apply list_elem_of_fmap. now exists (e', a).
  - intros [= <-] e He. now apply elem_of_nil in He.
Qed.

End ViewFacts.

Import ViewFacts.

(** C9, as amended. What search and filter return: a view of the source
    graph, not a new graph.  The view is tied to [data]; read in the store
    of the call it shows the sub-graph induced by the matching edges and
    their end points, and read in any later store it shows what the lists of
    the call select of the source graph as it then is. *)
Theorem query_result_is_view `{Interpreter} h data query field (search : bool) r :
  (if search then do_search h data query field
   else do_filter_by_value h data query field) = Return r ->
  exists g L,
    View.read h data = Some g
    /\ matching_edges search g query field L
    /\ (forall e, e ∈ L -> e ∈ Nx.edges g)
    /\ r = GView data (endpoints L) (list_to_set L)
    /\ (exists v, View.read h r = Some v /\ induced_by L g v)
    /\ (forall h' g',
          View.read h' data = Some g' ->
          exists v', View.read h' r = Some v' /\ induced_by L g' v').
Proof.
  intros Hr.
  assert (Hread : forall L h' g',
            View.read h' data = Some g' ->
            exists v', View.read h' (GView data (endpoints L) (list_to_set L))
                       = Some v' /\ induced_by L g' v').
  { intros L h' g' Hg. simpl. rewrite Hg. simpl.
    eexists. split; [reflexivity|]. apply restrict_induced. }
  destruct search; unfold do_search, do_filter_by_value in Hr;
    destruct (View.read h data) as [g|] eqn:Hg; try discriminate.
  - inv_bind Hr. rename a into L. injection Hr as <-.
    exists g, L. repeat split; eauto using get_filtered_list_subset.
  - inv_bind Hr. rename a into requery. inv_bind Hr. rename a into L.
    injection Hr as <-.
    exists g, L. split; [reflexivity|]. split; [now exists requery|].
    repeat split; eauto using get_filtered_list_subset.
Qed.

Import Calendar.

Module MalformedFacts.

Lemma int_raises s e : PyStr.int s = Raise e -> e = ValueError.
Proof.
  unfold PyStr.int.
  destruct (PyStr.strip s) as [|c r];
    [simpl; intros [= <-]; reflexivity|].
  destruct c as [[] [] [] [] [] [] [] []];
    match goal with
    | |- context [PyStr.int_digits ?a ?b ?t] =>
        destruct (PyStr.int_digits a b t); simpl; congruence
    end.
Qed.

(** A loop over the items raises what the first failing item raises. *)
Lemma mapR_raises {A B} (f : A -> result B) (l : list A) (e : exn) x :
  x ∈ l -> f x = Raise e ->
  (forall y e', f y = Raise e' -> e' = e) ->
  mapR f l = Raise e.
Proof.
  intros Hin Hx Hall. induction l as [|y l IH]; [now apply elem_of_nil in Hin|].
  simpl. destruct (f y) as [b|e'] eqn:Ey.
  - apply elem_of_cons in Hin as [->|Hin]; [congruence|].
    simpl. now rewrite (IH Hin).
  - simpl. f_equal. eauto.
Qed.

End MalformedFacts.

Import MalformedFacts.

(** C3, as amended. A descriptor that is not empty and one of whose items
    (the texts between the first character, the marks [Y] and [M] and the
    last character) does not read as an integer makes the resolver raise
    [ValueError] to its caller, whatever the reference date: the failure is
    an exception, not a value returned. *)
Theorem unparseable_descriptor_raises citing_date timespan item :
  timespan <> EmptyString ->
  item ∈ timespan_items timespan ->
  PyStr.int item = Raise ValueError ->
  find_cited_date citing_date timespan = Raise ValueError.
Proof.
  intros Hne Hin Hitem. unfold find_cited_date, timespan_times.
  destruct timespan as [|c t]; [contradiction|].
  rewrite (mapR_raises _ _ ValueError item Hin); [reflexivity| |].
  - simpl. now rewrite Hitem.
  - intros y e'. simpl. destruct (PyStr.int y) as [n|e0] eqn:E; [discriminate|].
    simpl. intros [= <-]. eauto using int_raises.
Qed.

Lemma unparseable_descriptor_raises_witness :
  find_cited_date "2020-01-01" "PxY" = Raise ValueError.
Proof.
  apply (unparseable_descriptor_raises "2020-01-01" "PxY" "x").
  - discriminate.
  - vm_compute. apply list_elem_of_here.
  - vm_compute. reflexivity.
Defined.

(** C3 fails as stated: an unknown unit marker is not detected and the
    descriptor resolves as years; an unparseable number and a missing year
    raise [ValueError], and an empty descriptor raises [IndexError]; in no
    case is a [MalformedDescriptor] value returned. *)
Lemma malformed_descriptor_counterexample :
  find_cited_date "2020-01-01" "P1Z" = Return "2019-01-01"
  /\ find_cited_date "2020-01-01" "X1Y" = Return "2021-01-01"
  /\ find_cited_date "2020-01-01" "PxY" = Raise ValueError
  /\ find_cited_date "2020-01-01" "PY" = Raise ValueError
  /\ find_cited_date "2020-01-01" "" = Raise IndexError.
Proof. vm_compute. repeat split. Qed.

(** C2 fails as stated.  With months and days in the descriptor the round
    trip misses the reference date although no step cuts the day to the end
    of a month: from 2020-03-15 the month step reaches 2020-02-15 and the
    day step 2020-01-26; back, the month step reaches 2020-02-26 and the day
    step 2020-03-17.  Years and days miss it the same way across the end of
    February.  With a reference date of the precision of a year or a month,
    the months or the days of the descriptor are lost.  And a day that no
    step cuts on the way there may be cut on the way back: from 2021-03-29,
    [P1Y1M] reaches 2020-02-29, and back the year step reaches 2021-02-28
    and the month step 2021-03-28. *)
Lemma round_trip_counterexample :
  find_cited_date "2020-03-15" "P0Y1M20D" = Return "2020-01-26"
  /\ find_cited_date "2020-01-26" (invert "P0Y1M20D") = Return "2020-03-17"
  /\ add_delta (mkDate 2020 3 15) (delta_months (-1))
     = Return (mkDate 2020 2 15)
  /\ add_delta (mkDate 2020 1 26) (delta_months 1)
     = Return (mkDate 2020 2 26)
  /\ find_cited_date "2021-03-03" "P1Y0M5D" = Return "2020-02-27"
  /\ find_cited_date "2020-02-27" (invert "P1Y0M5D") = Return "2021-03-04"
  /\ find_cited_date "2020" "P0Y6M" = Return "2019"
  /\ find_cited_date "2019" (invert "P0Y6M") = Return "2019"
  /\ find_cited_date "2020-03" "P0Y0M5D" = Return "2020-02"
  /\ find_cited_date "2020-02" (invert "P0Y0M5D") = Return "2020-02"
  /\ find_cited_date "2021-03-29" "P1Y1M" = Return "2020-02-29"
  /\ find_cited_date "2020-02-29" (invert "P1Y1M") = Return "2021-03-28"
  /\ add_delta (mkDate 2020 2 29) (delta_years 1)
     = Return (mkDate 2021 2 28).
Proof. vm_compute. repeat split. Qed.

Lemma find_cited_date_precision_witness :
  find_cited_date "2020-03" "P1Y2M" = Return "2019-01"
  /\ String.length "2019-01" = String.length "2020-03".
Proof.
  split; [vm_compute; reflexivity|].
  apply (find_cited_date_precision "2020-03" "P1Y2M" "2019-01").
  - apply elem_of_cons. right. apply list_elem_of_here.
  - vm_compute. reflexivity.
Defined.

Lemma impact_factor_spec_witness :
  do_compute_impact_factor sample_graph ["b"] (PStr "2021")
  = Return (Some (2 # 1)).
Proof.
  destruct (impact_factor_spec sample_graph ["b"] (PStr "2021") 2021) as [E _].
  - apply sample_graph_ingested.
  - apply sample_graph_dated.
  - apply NoDup_singleton.
  - vm_compute. reflexivity.
  - rewrite E. vm_compute. reflexivity.
Defined.

Lemma citation_network_spec_witness :
  exists result,
    do_get_citation_network sample_graph (PInt 2020) (PStr "2021")
    = Return result
    /\ is_Some (g_adj result !! ("a", "b"))
    /\ ~ is_Some (g_adj result !! ("b", "d")).
Proof.
  destruct (citation_network_spec sample_graph (PInt 2020) (PStr "2021"))
    as (result & E & _ & Hin & _).
  - apply sample_graph_ingested.
  - apply sample_graph_ingested.
  - exists result. split; [exact E|].
    specialize (Hin eq_refl eq_refl eq_refl).
    split.
    + apply Hin. split; [vm_compute; eauto|].
      exists "2021-03", "2020-03". vm_compute. auto.
    + intros H. apply Hin in H as [_ (c1 & c2 & H1 & H2 & _ & H4)].
      vm_compute in H2. injection H2 as <-. vm_compute in H4. discriminate.
Defined.

(** C10 fails on the code: in the time-window network of the sample graph
    the edge from [a] to [b] is kept, but the node [a], which has its
    [creation] in the source graph, has no attribute, and reading its
    [creation] raises [KeyError]. *)
Theorem citation_network_drops_creation :
  ingested sample_graph
  /\ Nx.node_attr sample_graph "a" "creation" = Return "2021-03"
  /\ match do_get_citation_network sample_graph (PInt 2020) (PInt 2021) with
     | Return r =>
         is_Some (g_adj r !! ("a", "b"))
         /\ g_node r !! "a" = Some ∅
         /\ Nx.node_attr r "a" "creation" = Raise KeyError
     | Raise _ => False
     end.
Proof.
  split; [apply sample_graph_ingested|].
  split; [vm_compute; reflexivity|].
  vm_compute. repeat split. eauto.
Qed.

(** * Anchored glob matching *)

Module GlobFacts.
Import ReMatch ParseFacts.

Lemma plain_cons c s : plain (String c s) = plain_chr c && plain s.
Proof. reflexivity. Qed.

Lemma plain_term_cons c s :
  plain_term (String c s) = (plain_chr c || Ascii.eqb c "*") && plain_term s.
Proof. reflexivity. Qed.

Ltac by_chars c :=
  destruct c as [[] [] [] [] [] [] [] []]; try discriminate; try reflexivity.

Lemma plain_chr_atom c rest :
  plain_chr c = true ->
  parse_atom (String c rest) = Some (Return (IOne (CLit c), rest)).
Proof. by_chars c. Qed.

Lemma plain_not_star c : plain_chr c = true -> Ascii.eqb c "*" = false.
Proof. by_chars c. Qed.

Lemma plain_not_newline c :
  plain_chr c = true -> Ascii.eqb c PyStr.newline = false.
Proof. by_chars c. Qed.

Lemma pattern_body_cons_star w :
  pattern_body (String "*" w)
  = String "." (String "*" (String "?" (pattern_body w))).
Proof. reflexivity. Qed.

Lemma pattern_body_cons_plain c w :
  plain_chr c = true -> pattern_body (String c w) = String c (pattern_body w).
Proof.
  intros Hc. unfold pattern_body. simpl.
  now rewrite (plain_not_star c Hc).
Qed.

Lemma pattern_body_head w :
  plain_term w = true ->
  exists h t, pattern_body w = String h t /\ Ascii.eqb h "*" = false.
Proof.
  destruct w as [|c w]; [intros _; now exists "$"%char, EmptyString|].
  rewrite plain_term_cons. intros [Hc _]%andb_prop.
  apply orb_prop in Hc as [Hc|Hc].
  - rewrite pattern_body_cons_plain by assumption.
    eexists _, _. split; [reflexivity|]. now apply plain_not_star.
  - apply Ascii.eqb_eq in Hc as ->. rewrite pattern_body_cons_star.
    now eexists _, _.
Qed.

Lemma length_pattern_body w :
  (String.length w < String.length (pattern_body w))%nat.
Proof.
  unfold pattern_body. induction w as [|c w IH]; [simpl; lia|].
  simpl. destruct (Ascii.eqb c "*");
    rewrite ?append_cons, ?append_nil_l; simpl; lia.
Qed.

Lemma compile_step_one fuel p a h t :
  parse_atom p = Some (Return (IOne a, String h t)) ->
  Ascii.eqb h "*" = false ->
  compile (S fuel) p
  = (its ← compile fuel (String h t); Return (IOne a :: its)).
Proof.
  intros Hp Hh. cbn [compile]. rewrite Hp. by_chars h.
Qed.

(** Compiling the pattern of a plain term gives its items. *)
Lemma compile_pattern_body w : forall fuel,
  plain_term w = true -> (String.length w < fuel)%nat ->
  compile fuel (pattern_body w) = Return (items_of w ++ [IEol]).
Proof.
  induction w as [|c w IH]; intros fuel Hw Hf.
  - destruct fuel as [|fuel]; [simpl in Hf; lia|].
    simpl. now destruct fuel.
  - rewrite plain_term_cons in Hw. apply andb_prop in Hw as [Hc Hw].
    destruct fuel as [|fuel]; [simpl in Hf; lia|]. simpl in Hf.
    apply orb_prop in Hc as [Hc|Hc].
    + rewrite pattern_body_cons_plain by assumption.
      destruct (pattern_body_head w Hw) as (h & t & Eh & Hh).
      rewrite (compile_step_one fuel _ (CLit c) h t);
        [|rewrite <- Eh; now apply plain_chr_atom|assumption].
      rewrite <- Eh, IH by (assumption || lia). simpl.
      now rewrite (plain_not_star c Hc).
    + apply Ascii.eqb_eq in Hc as ->. rewrite pattern_body_cons_star.
      cbn [compile parse_atom]. simpl Ascii.eqb. cbv iota.
      rewrite IH by (assumption || lia). reflexivity.
Qed.

Lemma plain_not_newline_str s :
  plain s = true -> String.eqb s (String PyStr.newline EmptyString) = false.
Proof.
  destruct s as [|c s]; [reflexivity|].
  rewrite plain_cons. intros [Hc _]%andb_prop. revert Hc.
  destruct c as [[] [] [] [] [] [] [] []]; intros Hc;
    try discriminate Hc; reflexivity.
Qed.

(** Matching the items of a plain term is matching the glob. *)
Lemma match_items w : forall at_start s,
  plain_term w = true -> plain s = true ->
  match_here (items_of w ++ [IEol]) at_start s = glob_match w s.
Proof.
  induction w as [|c w IH]; intros at_start s Hw Hs.
  - simpl. rewrite (plain_not_newline_str s Hs).
    now rewrite orb_false_r, andb_true_r.
  - rewrite plain_term_cons in Hw. apply andb_prop in Hw as [Hc Hw].
    simpl items_of. simpl glob_match.
    destruct (Ascii.eqb c "*") eqn:Ec.
    + cbn [app match_here]. revert at_start.
      induction s as [|x s IHs]; intros at_start.
      * rewrite (IH at_start EmptyString Hw Hs). now rewrite !orb_false_r.
      * rewrite plain_cons in Hs. apply andb_prop in Hs as [Hx Hs'].
        rewrite (IH at_start (String x s) Hw)
          by (rewrite plain_cons; now rewrite Hx, Hs').
        f_equal. cbn [atom_ok].
        rewrite (plain_not_newline x Hx). simpl negb. cbv iota.
        rewrite andb_true_l. apply (IHs Hs' false).
    + cbn [app match_here]. destruct s as [|x s]; [reflexivity|].
      rewrite plain_cons in Hs. apply andb_prop in Hs as [Hx Hs'].
      cbn [atom_ok]. now rewrite (IH false s Hw Hs').
Qed.

Lemma search_from_anchored p s :
  search_from (IBol :: p) true s = match_here p true s.
Proof.
  assert (Hno : forall s', search_from (IBol :: p) false s' = false)
    by (induction s' as [|x s' IHs']; simpl; [reflexivity|exact IHs']).
  destruct s as [|x s]; simpl; [now rewrite orb_false_r|].
  now rewrite Hno, orb_false_r.
Qed.

Lemma compile_step_anchor fuel rest :
  compile (S fuel) (String "^" rest)
  = (its ← compile fuel rest; Return (IBol :: its)).
Proof. reflexivity. Qed.

(** [re.search] with the pattern of a plain term is the glob. *)
Lemma search_pattern_of w s :
  plain_term w = true -> plain s = true ->
  search (pattern_of w) s
  = Return (if glob_match w s then VMatch else VNone).
Proof.
  intros Hw Hs. unfold search, pattern_of.
  rewrite append_cons, append_nil_l.
  cbn [String.length]. rewrite compile_step_anchor.
  rewrite compile_pattern_body
    by (assumption || (pose proof (length_pattern_body w); lia)).
  simpl. now rewrite search_from_anchored, match_items.
Qed.

End GlobFacts.

Module CompileFacts.
Import ParseFacts GlobFacts.

Ltac by_chars c :=
  destruct c as [[] [] [] [] [] [] [] []]; try discriminate; try reflexivity.

Ltac norm_str :=
  repeat first [rewrite append_assoc | rewrite append_cons
               | rewrite append_nil_l].

Lemma search_term_cons c s :
  forallb term_chr (list_ascii_of_string (String c s))
  = term_chr c && forallb term_chr (list_ascii_of_string s).
Proof. reflexivity. Qed.

Lemma term_chr_not_space c : term_chr c = true -> PyStr.is_space c = false.
Proof. by_chars c. Qed.

Lemma term_chr_lower c :
  term_chr c = true ->
  (plain_chr (PyStr.lower_chr c) || Ascii.eqb (PyStr.lower_chr c) "*") = true.
Proof. by_chars c. Qed.

Lemma lower_plain_term s :
  forallb term_chr (list_ascii_of_string s) = true ->
  plain_term (PyStr.lower s) = true.
Proof.
  induction s as [|c s IH]; [reflexivity|].
  rewrite search_term_cons. intros [Hc Hs]%andb_prop.
  simpl PyStr.lower. rewrite plain_term_cons, (term_chr_lower c Hc).
  now apply IH.
Qed.

Lemma split_ws_aux_term s : forall cur,
  forallb term_chr (list_ascii_of_string s) = true ->
  (cur <> [] \/ s <> EmptyString) ->
  PyStr.split_ws_aux cur s = [string_of_list_ascii (rev cur) +:+ s].
Proof.
  induction s as [|c s IH]; intros cur Hs Hne.
  - simpl. destruct cur; [destruct Hne; contradiction|].
    now rewrite append_nil_r.
  - rewrite search_term_cons in Hs. apply andb_prop in Hs as [Hc Hs].
    simpl. rewrite (term_chr_not_space c Hc).
    rewrite IH by (assumption || (left; discriminate)).
    f_equal. simpl rev.
    assert (E : forall l (x : ascii) t,
              string_of_list_ascii (l ++ [x]) +:+ t
              = string_of_list_ascii l +:+ String x t).
    { induction l as [|y l IHl]; intros x t; [reflexivity|].
      simpl. now rewrite !append_cons, IHl. }
    apply E.
Qed.

(** A search term is one word. *)
Lemma split_ws_term s : search_term s = true -> PyStr.split_ws s = [s].
Proof.
  unfold search_term. intros [Hne Hs]%andb_prop.
  unfold PyStr.split_ws. rewrite split_ws_aux_term; [reflexivity|exact Hs|].
  right. intros ->. discriminate.
Qed.

Lemma plain_chr_not_special c : plain_chr c = true -> Re.is_special c = false.
Proof. by_chars c. Qed.

Lemma escape_plain s : plain s = true -> Re.escape s = s.
Proof.
  induction s as [|c s IH]; [reflexivity|].
  rewrite plain_cons. intros [Hc Hs]%andb_prop.
  simpl. now rewrite (plain_chr_not_special c Hc), IH.
Qed.

Lemma fold_left_escape parts : forall acc,
  fold_left (fun esc part => esc +:+ "*" +:+ Re.escape part) parts acc
  = acc +:+ foldr (fun p r => "*" +:+ Re.escape p +:+ r) EmptyString parts.
Proof.
  induction parts as [|p parts IH]; intros acc; simpl.
  - now rewrite append_nil_r.
  - rewrite IH. now rewrite !append_assoc.
Qed.

Lemma split_on_nonempty c s : PyStr.split_on c s <> [].
Proof.
  destruct s as [|x s]; simpl; [discriminate|].
  destruct (Ascii.eqb x c); [discriminate|].
  destruct (PyStr.split_on c s); discriminate.
Qed.

(** Escaping the parts between the stars of a plain term and joining them
    with stars gives the term back. *)
Lemma escape_parts w :
  plain_term w = true ->
  foldr (fun p r => "*" +:+ Re.escape p +:+ r) EmptyString
        (PyStr.split_on "*" w)
  = "*" +:+ w.
Proof.
  induction w as [|c w IH]; intros Hw; [reflexivity|].
  rewrite plain_term_cons in Hw. apply andb_prop in Hw as [Hc Hw].
  specialize (IH Hw). simpl PyStr.split_on.
  destruct (Ascii.eqb c "*") eqn:Ec.
  - apply Ascii.eqb_eq in Ec as ->. simpl foldr. now rewrite IH.
  - rewrite orb_false_r in Hc.
    destruct (PyStr.split_on "*" w) as [|p ps] eqn:Ep;
      [now apply split_on_nonempty in Ep|].
    simpl foldr in *. simpl Re.escape.
    rewrite (plain_chr_not_special c Hc).
    rewrite !append_cons, !append_nil_l in *.
    injection IH as IH. now rewrite IH.
Qed.

Lemma slice_tail c s :
  PyStr.slice 1 (Z.of_nat (String.length (String c s))) (String c s) = s.
Proof.
  unfold PyStr.slice, PyStr.clamp_index.
  change (1 <? 0) with false. cbv iota.
  destruct (Z.of_nat (String.length (String c s)) <? 0) eqn:E;
    [apply Z.ltb_lt in E; lia|].
  replace (Z.to_nat (Z.min (Z.max 1 0) (Z.of_nat (String.length (String c s)))))
    with 1%nat by (simpl String.length; lia).
  replace (Z.to_nat _) with (S (String.length s)) by (simpl String.length; lia).
  simpl PyStr.drop. replace (S (String.length s) - 1)%nat with (String.length s) by lia.
  clear. induction s as [|x s IH]; [reflexivity|]. simpl. now rewrite IH.
Qed.

Lemma escape_query_string_plain w :
  plain_term w = true -> escape_query_string w = w.
Proof.
  intros Hw. unfold escape_query_string.
  rewrite fold_left_escape, append_nil_l, escape_parts by assumption.
  apply slice_tail.
Qed.

(** What the search compiler emits for one search term. *)
Lemma translate_term w :
  search_term w = true -> w ∉ operators ->
  translate_query_string_for_search w
  = " " +:+ call_text (pattern_of (PyStr.lower w)) "{0}" +:+ " ".
Proof.
  intros Hw Hop. unfold translate_query_string_for_search.
  rewrite split_ws_term by assumption. simpl fold_left.
  rewrite bool_decide_eq_false_2 by assumption.
  rewrite escape_query_string_plain; [reflexivity|].
  apply lower_plain_term. unfold search_term in Hw.
  now apply andb_prop in Hw as [_ Hw].
Qed.

Lemma safe_cons c s : safe (String c s) = safe_chr c && safe s.
Proof. reflexivity. Qed.

Lemma safe_app s t : safe (s +:+ t) = safe s && safe t.
Proof.
  induction s as [|c s IH]; [reflexivity|].
  now rewrite append_cons, !safe_cons, IH, andb_assoc.
Qed.

Lemma plain_chr_safe c : plain_chr c = true -> safe_chr c = true.
Proof. by_chars c. Qed.

Lemma plain_safe s : plain s = true -> safe s = true.
Proof.
  induction s as [|c s IH]; [reflexivity|].
  rewrite plain_cons, safe_cons. intros [Hc Hs]%andb_prop.
  now rewrite (plain_chr_safe c Hc), IH.
Qed.

Lemma pattern_of_safe w : plain_term w = true -> safe (pattern_of w) = true.
Proof.
  intros Hw. unfold pattern_of. rewrite append_cons, append_nil_l, safe_cons.
  apply andb_true_intro. split; [reflexivity|].
  induction w as [|c w IH]; [reflexivity|].
  rewrite plain_term_cons in Hw. apply andb_prop in Hw as [Hc Hw].
  apply orb_prop in Hc as [Hc|Hc].
  - rewrite pattern_body_cons_plain, safe_cons by assumption.
    now rewrite (plain_chr_safe c Hc), IH.
  - apply Ascii.eqb_eq in Hc as ->. rewrite pattern_body_cons_star.
    rewrite !safe_cons, IH by assumption. reflexivity.
Qed.

Lemma safe_no_brace c : safe_chr c = true -> no_brace c = true.
Proof. by_chars c. Qed.

Lemma format_aux_chr auto value c t :
  no_brace c = true ->
  PyFormat.format_aux auto value (String c t)
  = (r ← PyFormat.format_aux auto value t; Return (String c r)).
Proof. by_chars c. Qed.

Lemma format_aux_safe auto value s t :
  safe s = true ->
  PyFormat.format_aux auto value (s +:+ t)
  = (r ← PyFormat.format_aux auto value t; Return (s +:+ r)).
Proof.
  induction s as [|c s IH]; intros Hs.
  - rewrite append_nil_l. now destruct (PyFormat.format_aux auto value t).
  - rewrite safe_cons in Hs. apply andb_prop in Hs as [Hc Hs].
    rewrite append_cons, format_aux_chr, IH
      by (assumption || now apply safe_no_brace).
    now destruct (PyFormat.format_aux auto value t).
Qed.

(** Filling the placeholder of the call. *)
Lemma format_call pat value :
  safe pat = true ->
  PyFormat.format (" " +:+ call_text pat "{0}" +:+ " ") value
  = Return (" " +:+ call_text pat value +:+ " ").
Proof.
  intros Hp. unfold PyFormat.format, call_text, dq.
  norm_str.
  do 12 (rewrite format_aux_chr by reflexivity).
  rewrite format_aux_safe by assumption.
  do 2 (rewrite format_aux_chr by reflexivity).
  reflexivity.
Qed.

Lemma rstrip_keep s c t :
  PyStr.is_space c = false ->
  PyStr.rstrip (s +:+ String c t) = s +:+ String c (PyStr.rstrip t).
Proof.
  intros Hc.
  assert (H0 : PyStr.rstrip (String c t) = String c (PyStr.rstrip t)).
  { simpl. rewrite Hc. now destruct (PyStr.rstrip t). }
  induction s as [|x s IH]; [exact H0|].
  rewrite append_cons. simpl PyStr.rstrip. rewrite IH.
  destruct (s +:+ String c (PyStr.rstrip t)) eqn:E.
  - now apply append_nonempty in E.
  - now rewrite append_cons, E.
Qed.

Lemma read_literal_safe body rest :
  safe body = true ->
  PyEval.read_literal PyStr.dquote (body +:+ String PyStr.dquote rest)
  = Return (body, rest).
Proof.
  induction body as [|c body IH]; intros Hs; [reflexivity|].
  rewrite safe_cons in Hs. apply andb_prop in Hs as [Hc Hs].
  rewrite append_cons. cbn [PyEval.read_literal].
  unfold safe_chr in Hc. rewrite !andb_true_iff, !negb_true_iff in Hc.
  destruct Hc as ((((_ & _) & Hq) & Hb) & Hn).
  rewrite Hq, Hn, Hb, IH by assumption. reflexivity.
Qed.

Lemma tokenize_literal fuel body rest :
  safe body = true ->
  PyEval.tokenize (S fuel) (String PyStr.dquote (body +:+ String PyStr.dquote rest))
  = (ts ← PyEval.tokenize fuel rest; Return (PyEval.TStr body :: ts)).
Proof.
  intros Hs. cbn [PyEval.tokenize].
  change (Ascii.eqb PyStr.dquote " " || Ascii.eqb PyStr.dquote (PyStr.chr 9))
    with false.
  change (Ascii.eqb PyStr.dquote PyStr.dquote || Ascii.eqb PyStr.dquote "'")
    with true.
  cbv iota. now rewrite read_literal_safe.
Qed.

Lemma tokenize_lparen fuel rest :
  PyEval.tokenize (S fuel) (String "(" rest)
  = (ts ← PyEval.tokenize fuel rest; Return (PyEval.TLParen :: ts)).
Proof. reflexivity. Qed.

Lemma tokenize_comma fuel rest :
  PyEval.tokenize (S fuel) (String "," rest)
  = (ts ← PyEval.tokenize fuel rest; Return (PyEval.TComma :: ts)).
Proof. reflexivity. Qed.

Lemma tokenize_search fuel rest :
  PyEval.tokenize (S fuel) ("re.search" +:+ String "(" rest)
  = (ts ← PyEval.tokenize fuel (String "(" rest);
     Return (PyEval.TName "re.search" :: ts)).
Proof. reflexivity. Qed.

(** The tokens of the call. *)
Lemma tokenize_call pat value fuel :
  safe pat = true -> safe value = true -> (7 <= fuel)%nat ->
  PyEval.tokenize fuel (call_text pat value)
  = Return [PyEval.TName "re.search"; PyEval.TLParen; PyEval.TStr pat;
            PyEval.TComma; PyEval.TStr value; PyEval.TRParen].
Proof.
  intros Hp Hv Hf.
  do 7 (destruct fuel as [|fuel]; [lia|]). clear Hf.
  replace (call_text pat value)
    with ("re.search" +:+ String "("
            (String PyStr.dquote (pat +:+ String PyStr.dquote
               (String "," (String PyStr.dquote
                  (value +:+ String PyStr.dquote ")"))))))
    by (unfold call_text, dq; now norm_str).
  rewrite tokenize_search, tokenize_lparen.
  rewrite tokenize_literal by assumption.
  rewrite tokenize_comma.
  rewrite tokenize_literal by assumption.
  reflexivity.
Qed.

Lemma strip_call pat value :
  PyStr.strip (" " +:+ call_text pat value +:+ " ") = call_text pat value.
Proof.
  unfold PyStr.strip.
  replace (" " +:+ call_text pat value +:+ " ")
    with ((" re.search(" +:+ dq +:+ pat +:+ dq +:+ "," +:+ dq +:+ value +:+ dq)
          +:+ String ")" " ")
    by (unfold call_text; now norm_str).
  rewrite rstrip_keep by reflexivity.
  change (PyStr.rstrip " ") with EmptyString.
  unfold call_text. now norm_str.
Qed.

(** Evaluating the call is searching the pattern in the argument. *)
Lemma eval_call pat value :
  safe pat = true -> safe value = true ->
  PyEval.eval (" " +:+ call_text pat value +:+ " ") = ReMatch.search pat value.
Proof.
  intros Hp Hv. unfold PyEval.eval. rewrite strip_call.
  rewrite tokenize_call; [|assumption|assumption|].
  2:{ unfold call_text. norm_str.
      simpl String.length. lia. }
  reflexivity.
Qed.

End CompileFacts.

Import CompileFacts.

(** C9 fails as stated: the result of a search on the sample graph is a
    view of the object searched, and after a later change of the source
    graph the result shows the changed attribute. *)
Lemma query_result_aliases_source :
  match do_search (H := fragment) sample_store (GObj 1) "a*" "citing" with
  | Return r =>
      r = GView (GObj 1) {[ "a"; "b" ]} {[ ("a", "b") ]}
      /\ creation_in sample_store r "a" = Some (Return "2021-03")
      /\ creation_in sample_store_mutated r "a" = Some (Return "1999")
  | Raise _ => False
  end.
Proof. vm_compute. repeat split. Qed.

Lemma query_result_is_view_witness :
  exists g L,
    View.read sample_store (GObj 1) = Some g
    /\ matching_edges (H := fragment) true g "a*" "citing" L
    /\ (forall e, e ∈ L -> e ∈ Nx.edges g)
    /\ GView (GObj 1) {[ "a"; "b" ]} {[ ("a", "b") ]}
       = GView (GObj 1) (endpoints L) (list_to_set L)
    /\ (exists v,
          View.read sample_store
            (GView (GObj 1) {[ "a"; "b" ]} {[ ("a", "b") ]}) = Some v
          /\ induced_by L g v)
    /\ (forall h' g',
          View.read h' (GObj 1) = Some g' ->
          exists v',
            View.read h' (GView (GObj 1) {[ "a"; "b" ]} {[ ("a", "b") ]})
            = Some v'
            /\ induced_by L g' v').
Proof.
  apply (query_result_is_view (H := fragment) sample_store (GObj 1) "a*"
           "citing" true).
  vm_compute. reflexivity.
Defined.


(** * Ingestion *)

Module RowFacts.
Import GraphFacts IngestFacts.

Lemma process_row_other data row :
  four_fields row = false -> process_row data row = Return data.
Proof.
  destruct row as [|a [|b [|c [|d [|? ?]]]]]; try reflexivity; discriminate.
Qed.

Lemma process_rows_app rows1 : forall data rows2,
  process_rows data (rows1 ++ rows2)
  = (d ← process_rows data rows1; process_rows d rows2).
Proof.
  induction rows1 as [|row rows1 IH]; intros data rows2; simpl; [reflexivity|].
  destruct (process_row data row); simpl; auto.
Qed.

Lemma singleton_union_same (k : string) (x y : string) :
  ({[k := x]} : attrs) ∪ {[k := y]} = {[k := x]}.
Proof.
  apply map_eq. intros i. rewrite lookup_union.
  destruct (decide (i = k)) as [->|Hne].
  - now rewrite !lookup_singleton_eq.
  - now rewrite !lookup_singleton_ne by congruence.
Qed.

Lemma update_fresh (attr : attrs) : Nx.update ∅ attr = attr.
Proof. unfold Nx.update. apply (right_id ∅ (∪)). Qed.

Lemma has_node_false G n : Nx.has_node G n = false <-> g_node G !! n = None.
Proof.
  unfold Nx.has_node. rewrite bool_decide_eq_false, <- eq_None_not_Some.
  reflexivity.
Qed.

(** What a row of four fields does when it returns. *)
Lemma process_row_Return G citing cited creation timespan G' :
  process_row G [citing; cited; creation; timespan] = Return G' ->
  exists G2,
    G' = Nx.add_edge G2 citing cited {["timespan" := timespan]}
    /\ g_class G2 = g_class G /\ g_adj G2 = g_adj G
    /\ is_Some (g_node G2 !! citing) /\ is_Some (g_node G2 !! cited)
    /\ (forall n a, g_node G !! n = Some a -> g_node G2 !! n = Some a)
    /\ (forall n a, g_node G2 !! n = Some a ->
          g_node G !! n = Some a \/ exists c, a = {["creation" := c]}).
Proof.
  unfold process_row.
  set (G1 := if Nx.has_node G citing then G
             else Nx.add_node G citing {["creation" := creation]}).
  assert (H1 : g_class G1 = g_class G /\ g_adj G1 = g_adj G
               /\ is_Some (g_node G1 !! citing)
               /\ (forall n a, g_node G !! n = Some a -> g_node G1 !! n = Some a)
               /\ (forall n a, g_node G1 !! n = Some a ->
                     g_node G !! n = Some a
                     \/ exists c, a = {["creation" := c]})).
  { subst G1. destruct (Nx.has_node G citing) eqn:E.
    - apply has_node_true in E. repeat split; auto.
    - apply has_node_false in E. repeat split.
      + rewrite add_node_lookup. destruct (decide (citing = citing)); eauto.
        contradiction.
      + intros n a Hn. rewrite add_node_lookup.
        destruct (decide (n = citing)) as [->|_]; [congruence|assumption].
      + intros n a. rewrite add_node_lookup.
        destruct (decide (n = citing)) as [->|_]; [|auto].
        rewrite E. simpl. rewrite update_fresh. intros [= <-]. eauto. }
  destruct H1 as (Hc1 & Ha1 & Hn1 & Hk1 & Hs1).
  intros H. inv_bind H. rename a into G2. injection H as <-.
  exists G2. split; [reflexivity|].
  destruct (Nx.has_node G1 cited) eqn:E.
  - injection Ha as <-. apply has_node_true in E. repeat split; auto.
  - inv_bind Ha. rename a into cited_date. injection Ha as <-.
    apply has_node_false in E. split; [exact Hc1|]. split; [exact Ha1|].
    split; [|split; [|split]].
    + rewrite add_node_lookup. destruct (decide (citing = cited)); eauto.
    + rewrite add_node_lookup. destruct (decide (cited = cited)); eauto.
      contradiction.
    + intros n a Hn. rewrite add_node_lookup.
      destruct (decide (n = cited)) as [->|_]; [|auto].
      apply Hk1 in Hn. congruence.
    + intros n a. rewrite add_node_lookup.
      destruct (decide (n = cited)) as [->|_]; [|auto].
      rewrite E. simpl. rewrite update_fresh. intros [= <-]. eauto.
Qed.

Lemma add_edge_lookup G u v attr e :
  g_class G = DiGraph ->
  g_adj (Nx.add_edge G u v attr) !! e
  = if decide (e = (u, v))
    then Some (Nx.update (default ∅ (g_adj G !! (u, v))) attr)
    else g_adj G !! e.
Proof.
  intros Hc. unfold Nx.add_edge. rewrite Hc. simpl.
  destruct (decide (e = (u, v))) as [->|Hne].
  - apply lookup_insert_eq.
  - now apply lookup_insert_ne.
Qed.

Lemma process_row_shape G row G' :
  ingested_shape G -> process_row G row = Return G' -> ingested_shape G'.
Proof.
  intros (Hcl & Hn & He) H.
  destruct (four_fields row) eqn:E4.
  2:{ rewrite process_row_other in H by assumption. injection H as <-.
      repeat split; auto; now apply (He u v a). }
  destruct row as [|citing [|cited [|creation [|timespan [|? ?]]]]];
    try discriminate.
  apply process_row_Return in H
    as (G2 & -> & Hc2 & Ha2 & Hu & Hv & Hk & Hs).
  assert (Hcl2 : g_class G2 = DiGraph) by congruence.
  split; [exact Hcl2|].
  rewrite (add_edge_node_present G2 citing cited _ Hu Hv).
  split.
  - intros n a Ha. apply Hs in Ha as [Ha|Ha]; eauto.
  - intros u v a. rewrite add_edge_lookup by assumption.
    destruct (decide ((u, v) = (citing, cited))) as [[= -> ->]|Hne].
    + intros [= <-]. split; [|auto]. exists timespan.
      rewrite Ha2. destruct (g_adj G !! (citing, cited)) as [old|] eqn:Eo.
      * destruct (He _ _ _ Eo) as [[t ->] _]. simpl. unfold Nx.update.
        apply singleton_union_same.
      * simpl. apply update_fresh.
    + rewrite Ha2. intros Ha. destruct (He _ _ _ Ha) as (Ht & [x Hx] & [y Hy]).
      split; [exact Ht|]. split; eauto.
Qed.

Lemma process_rows_shape rows : forall G G',
  ingested_shape G -> process_rows G rows = Return G' -> ingested_shape G'.
Proof.
  induction rows as [|row rows IH]; intros G G' HG H; simpl in H.
  - now injection H as <-.
  - inv_bind H. eauto using process_row_shape.
Qed.

Lemma empty_shape : ingested_shape (Nx.empty DiGraph).
Proof.
  split; [reflexivity|]. split.
  - intros n a H. simpl in H. now rewrite lookup_empty in H.
  - intros u v a H. simpl in H. now rewrite lookup_empty in H.
Qed.

Lemma process_citations_shape csv_rows G :
  process_citations csv_rows = Return G -> ingested_shape G.
Proof.
  unfold process_citations. destruct csv_rows as [|heading rows];
    [discriminate|].
  apply process_rows_shape, empty_shape.
Qed.

(** What a row keeps: the nodes with their attributes, and the edges. *)
Lemma process_row_keeps G row G' :
  g_class G = DiGraph -> process_row G row = Return G' ->
  g_class G' = DiGraph
  /\ (forall n a, g_node G !! n = Some a -> g_node G' !! n = Some a)
  /\ (forall e, is_Some (g_adj G' !! e)
        <-> is_Some (g_adj G !! e)
            \/ exists c t, row = [e.1; e.2; c; t])
  /\ (forall e, (forall c t, row <> [e.1; e.2; c; t]) ->
        g_adj G' !! e = g_adj G !! e).
Proof.
  intros Hcl H.
  destruct (four_fields row) eqn:E4.
  2:{ rewrite process_row_other in H by assumption. injection H as <-.
      split; [assumption|]. split; [auto|]. split; [|auto].
      intros e. split; [auto|]. intros [?|(c & t & ->)]; [assumption|].
      discriminate. }
  destruct row as [|citing [|cited [|creation [|timespan [|? ?]]]]];
    try discriminate.
  apply process_row_Return in H
    as (G2 & -> & Hc2 & Ha2 & Hu & Hv & Hk & Hs).
  assert (Hcl2 : g_class G2 = DiGraph) by congruence.
  split; [exact Hcl2|].
  rewrite (add_edge_node_present G2 citing cited _ Hu Hv).
  split; [exact Hk|]. split.
  - intros [u v]. rewrite add_edge_adj by assumption. rewrite Ha2. simpl.
    split.
    + intros [[= -> ->]|?]; [right; eauto|now left].
    + intros [?|(c & t & [= -> -> _ _])]; [now right|now left].
  - intros [u v] Hne. rewrite add_edge_lookup by assumption.
    rewrite Ha2. destruct (decide ((u, v) = (citing, cited))) as [[= -> ->]|_];
      [|reflexivity].
    now destruct (Hne creation timespan).
Qed.

Lemma process_rows_keeps rows : forall G G',
  g_class G = DiGraph -> process_rows G rows = Return G' ->
  g_class G' = DiGraph
  /\ (forall n a, g_node G !! n = Some a -> g_node G' !! n = Some a)
  /\ (forall e, is_Some (g_adj G' !! e)
        <-> is_Some (g_adj G !! e)
            \/ exists c t, [e.1; e.2; c; t] ∈ rows)
  /\ (forall e, (forall c t, [e.1; e.2; c; t] ∉ rows) ->
        g_adj G' !! e = g_adj G !! e).
Proof.
  induction rows as [|row rows IH]; intros G G' Hcl H; simpl in H.
  - injection H as <-. split; [assumption|]. split; [auto|]. split; [|auto].
    intros e. split; [auto|]. intros [?|(c & t & Hin)]; [assumption|].
    now apply elem_of_nil in Hin.
  - inv_bind H. rename a into G1.
    destruct (process_row_keeps G row G1 Hcl Ha) as (Hc1 & Hn1 & He1 & Hs1).
    destruct (IH G1 G' Hc1 H) as (Hc' & Hn' & He' & Hs').
    split; [assumption|]. split; [auto|]. split.
    + intros e. rewrite He', He1. split.
      * intros [[?|(c & t & ->)]|(c & t & Hin)]; [now left| |].
        -- right. exists c, t. now left.
        -- right. exists c, t. now right.
      * intros [?|(c & t & Hin)]; [auto|].
        apply elem_of_cons in Hin as [<-|Hin]; [left; right; eauto|].
        right. eauto.
    + intros e Hne. rewrite Hs', Hs1; [reflexivity| |].
      * intros c t ->. apply (Hne c t). now left.
      * intros c t Hin. apply (Hne c t). now right.
Qed.

End RowFacts.

Import GraphFacts IngestFacts RowFacts EvalFacts NetworkFacts ImpactFacts.

(** X1. Rows that do not have four fields are skipped: the call does on the
    file what it does on the file without them. *)
Theorem ingestion_skips_short_rows heading rows :
  process_citations (heading :: rows)
  = process_citations (heading :: List.filter four_fields rows).
Proof.
  unfold process_citations. generalize (Nx.empty DiGraph).
  induction rows as [|row rows IH]; intros data; [reflexivity|].
  simpl. destruct (four_fields row) eqn:E.
  - simpl. destruct (process_row data row); simpl; auto.
  - rewrite process_row_other by assumption. simpl. apply IH.
Qed.

(** X2. The graph the call returns is a directed graph whose nodes carry
    exactly a [creation], and whose edges join nodes of the graph and carry
    exactly a [timespan]. *)
Theorem ingestion_shape csv_rows G :
  process_citations csv_rows = Return G -> ingested_shape G.
Proof. apply process_citations_shape. Qed.

Lemma ingestion_shape_witness : ingested_shape sample_graph.
Proof.
  apply (ingestion_shape sample_rows). vm_compute. reflexivity.
Defined.

(** X3. Ingestion is monotone in the file: when the call returns on a file, it
    returns on every file that stops earlier, and the rows that follow
    change no attribute of a document met before and drop no edge. *)
Theorem ingestion_monotone heading rows1 rows2 G' :
  process_citations (heading :: rows1 ++ rows2) = Return G' ->
  exists G,
    process_citations (heading :: rows1) = Return G
    /\ (forall n a, g_node G !! n = Some a -> g_node G' !! n = Some a)
    /\ (forall e, is_Some (g_adj G !! e) -> is_Some (g_adj G' !! e)).
Proof.
  unfold process_citations. rewrite process_rows_app. intros H.
  inv_bind H. rename a into G. exists G. split; [exact Ha|].
  destruct (process_rows_keeps rows1 (Nx.empty DiGraph) G eq_refl Ha) as (Hcl & _).
  destruct (process_rows_keeps rows2 G G' Hcl H) as (_ & Hn & He & _).
  split; [exact Hn|]. intros e He0. apply He. now left.
Qed.

Lemma ingestion_monotone_witness :
  exists G,
    process_citations (firstn 2 sample_rows) = Return G
    /\ (forall n a, g_node G !! n = Some a -> g_node sample_graph !! n = Some a)
    /\ (forall e, is_Some (g_adj G !! e) -> is_Some (g_adj sample_graph !! e)).
Proof.
  apply (ingestion_monotone
           ["citing"; "cited"; "creation"; "timespan"]
           [["a"; "b"; "2021-03"; "P1Y"]]
           [["c"; "b"; "2021"; "P1Y1M"]; ["b"; "d"; "2020-03"; "P2Y"]]).
  vm_compute. reflexivity.
Defined.

(** X4. The edges of the graph are the pairs of the rows of four fields. *)
Theorem ingestion_edges heading rows G :
  process_citations (heading :: rows) = Return G ->
  forall u v,
    is_Some (g_adj G !! (u, v)) <-> exists c t, [u; v; c; t] ∈ rows.
Proof.
  unfold process_citations. intros H u v.
  destruct (process_rows_keeps rows (Nx.empty DiGraph) G eq_refl H) as (_ & _ & He & _).
  rewrite (He (u, v)). simpl. rewrite lookup_empty. split.
  - intros [[a Ha]|?]; [discriminate|assumption].
  - now right.
Qed.

Lemma ingestion_edges_witness :
  is_Some (g_adj sample_graph !! ("a", "b"))
  <-> exists c t, ["a"; "b"; c; t] ∈ tail sample_rows.
Proof.
  apply (ingestion_edges ["citing"; "cited"; "creation"; "timespan"]).
  vm_compute. reflexivity.
Defined.

(** X5. The descriptor an edge keeps is the one of the last row of its pair. *)
Theorem ingestion_last_timespan heading rows1 rows2 u v c t G :
  process_citations (heading :: rows1 ++ [u; v; c; t] :: rows2) = Return G ->
  (forall c' t', [u; v; c'; t'] ∉ rows2) ->
  g_adj G !! (u, v) = Some {["timespan" := t]}.
Proof.
  unfold process_citations. rewrite process_rows_app. intros H Hlast.
  inv_bind H. rename a into G1. cbn [process_rows] in H.
  inv_bind H. rename a into G2.
  pose proof (process_rows_shape rows1 _ G1 empty_shape Ha) as HS1.
  pose proof (process_row_shape G1 _ G2 HS1 Ha0) as HS2.
  destruct HS2 as (Hcl2 & _ & He2).
  destruct (process_rows_keeps rows2 G2 G Hcl2 H) as (_ & _ & _ & Hs).
  rewrite (Hs (u, v)) by exact Hlast.
  apply process_row_Return in Ha0 as (G3 & -> & Hc3 & Ha3 & _).
  assert (Hcl3 : g_class G3 = DiGraph) by (destruct HS1; congruence).
  pose proof (He2 u v) as Hshape.
  rewrite add_edge_lookup in Hshape |- * by assumption.
  destruct (decide ((u, v) = (u, v))) as [_|Hne]; [|contradiction].
  destruct (Hshape _ eq_refl) as [[t0 Et0] _]. rewrite Et0. f_equal.
  assert (Hl : Nx.update (default ∅ (g_adj G3 !! (u, v))) {["timespan" := t]}
               !! "timespan" = Some t).
  { unfold Nx.update. apply lookup_union_Some_l. apply lookup_singleton_eq. }
  rewrite Et0, lookup_singleton_eq in Hl. now injection Hl as ->.
Qed.

Lemma ingestion_last_timespan_witness :
  (match process_citations
           [ ["citing"; "cited"; "creation"; "timespan"];
             ["a"; "b"; "2021"; "P1Y"]; ["a"; "b"; "2021"; "P3Y"];
             ["c"; "b"; "2021"; "P2Y"] ] with
   | Return G => g_adj G !! ("a", "b")
   | Raise _ => None
   end) = Some {["timespan" := "P3Y"]}.
Proof.
  destruct (process_citations _) as [G|e] eqn:E; [|vm_compute in E; discriminate].
  apply (ingestion_last_timespan
           ["citing"; "cited"; "creation"; "timespan"]
           [["a"; "b"; "2021"; "P1Y"]] [["c"; "b"; "2021"; "P2Y"]]
           "a" "b" "2021" "P3Y" G E).
  intros c' t' Hin. apply list_elem_of_singleton in Hin. discriminate.
Defined.

(** X6. The outcome of one more row: after a file on which the call returns, a
    row of four fields makes it raise exactly when the cited document is
    new, is not the citing document, and its date cannot be resolved. *)
Theorem ingestion_row_outcome heading rows citing cited creation timespan G :
  process_citations (heading :: rows) = Return G ->
  is_Return (process_citations
               (heading :: rows ++ [[citing; cited; creation; timespan]]))
  = Nx.has_node G cited || String.eqb citing cited
    || is_Return (find_cited_date creation timespan).
Proof.
  unfold process_citations. rewrite process_rows_app. intros ->. simpl.
  destruct (Nx.has_node G citing) eqn:Eu.
  - destruct (Nx.has_node G cited) eqn:Ev; [reflexivity|]. simpl.
    destruct (String.eqb_spec citing cited) as [->|Hne]; [congruence|].
    simpl. now destruct (find_cited_date creation timespan).
  - assert (Ev1 : Nx.has_node
                    (Nx.add_node G citing {["creation" := creation]}) cited
                  = Nx.has_node G cited || String.eqb citing cited).
    { unfold Nx.has_node at 1. rewrite add_node_lookup.
      destruct (String.eqb_spec citing cited) as [->|Hne].
      - rewrite orb_true_r. destruct (decide (cited = cited)); [|contradiction].
        apply bool_decide_eq_true. eauto.
      - rewrite orb_false_r. destruct (decide (cited = citing)); [congruence|].
        reflexivity. }
    rewrite Ev1. destruct (Nx.has_node G cited || String.eqb citing cited);
      [reflexivity|].
    simpl. now destruct (find_cited_date creation timespan).
Qed.

Lemma ingestion_row_outcome_witness :
  is_Return (process_citations (sample_rows ++ [["e"; "f"; "2020"; "PxY"]]))
  = false
  /\ is_Return (process_citations (sample_rows ++ [["e"; "b"; "2020"; "PxY"]]))
     = true.
Proof.
  split.
  - etransitivity;
      [apply (ingestion_row_outcome
                ["citing"; "cited"; "creation"; "timespan"]
                (tail sample_rows) "e" "f" "2020" "PxY" sample_graph)|];
      vm_compute; reflexivity.
  - etransitivity;
      [apply (ingestion_row_outcome
                ["citing"; "cited"; "creation"; "timespan"]
                (tail sample_rows) "e" "b" "2020" "PxY" sample_graph)|];
      vm_compute; reflexivity.
Defined.

(** A row that raises ends the call: what the call raises on a file it
    raises on every file that goes on, whatever the rows that follow. *)
Corollary ingestion_aborts heading rows1 rows2 e :
  process_citations (heading :: rows1) = Raise e ->
  process_citations (heading :: rows1 ++ rows2) = Raise e.
Proof.
  unfold process_citations. rewrite process_rows_app. now intros ->.
Qed.

Lemma ingestion_aborts_witness :
  process_citations
    ([ ["citing"; "cited"; "creation"; "timespan"];
       ["a"; "b"; "2021"; "PxY"] ] ++ tail sample_rows)
  = Raise ValueError.
Proof.
  apply (ingestion_aborts ["citing"; "cited"; "creation"; "timespan"]
           [["a"; "b"; "2021"; "PxY"]] (tail sample_rows)).
  vm_compute. reflexivity.
Defined.

(** * Analytics on any graph *)

Module AnalyticsFacts.
Import GraphFacts IngestFacts RowFacts ImpactFacts NetworkFacts.

Lemma elem_of_predecessors data n c :
  c ∈ Nx.predecessors data n <-> is_Some (g_adj data !! (c, n)).
Proof.
  unfold Nx.predecessors. rewrite list_elem_of_omap. split.
  - intros ([u v] & Hin & E). simpl in E.
    destruct (decide (v = n)) as [->|]; [|discriminate]. injection E as ->.
    now apply list_elem_of_In, elem_of_edges in Hin.
  - intros H. exists (c, n). split.
    + now apply list_elem_of_In, elem_of_edges.
    + simpl. destruct (decide (n = n)); [reflexivity|contradiction].
Qed.

Lemma elem_of_successors data n c :
  c ∈ Nx.successors data n <-> is_Some (g_adj data !! (n, c)).
Proof.
  unfold Nx.successors. rewrite list_elem_of_omap. split.
  - intros ([u v] & Hin & E). simpl in E.
    destruct (decide (u = n)) as [->|]; [|discriminate]. injection E as ->.
    now apply list_elem_of_In, elem_of_edges in Hin.
  - intros H. exists (n, c). split.
    + now apply list_elem_of_In, elem_of_edges.
    + simpl. destruct (decide (n = n)); [reflexivity|contradiction].
Qed.

Lemma common_count_comm a b : common_count a b = common_count b a.
Proof. unfold common_count. f_equal. apply (comm_L (∩)). Qed.

(** Reading [creation] off a node without attributes. *)
Lemma bare_creation G n :
  (forall m a, g_node G !! m = Some a -> a = ∅) ->
  Nx.node_attr G n "creation" = Raise KeyError.
Proof.
  intros Hb. unfold Nx.node_attr.
  destruct (g_node G !! n) as [a|] eqn:E; [|reflexivity].
  rewrite (Hb n a E). reflexivity.
Qed.

Lemma bare_creation_year G n :
  (forall m a, g_node G !! m = Some a -> a = ∅) ->
  creation_year G n = Raise KeyError.
Proof. intros Hb. unfold creation_year. now rewrite bare_creation. Qed.

(** The edges [add_edges_from] creates carry no attribute. *)
Lemma add_edges_from_bare_adj es : forall G e a,
  g_class G = DiGraph ->
  (forall e' b, g_adj G !! e' = Some b -> b = ∅) ->
  g_adj (Nx.add_edges_from G es) !! e = Some a -> a = ∅.
Proof.
  unfold Nx.add_edges_from.
  induction es as [|[u v] es IH]; intros G e a Hc HG; simpl.
  - apply HG.
  - apply IH; [exact Hc|]. intros e' b. rewrite add_edge_lookup by assumption.
    simpl. destruct (decide (e' = (u, v))) as [->|_]; [|apply HG].
    intros [= <-]. unfold Nx.update. rewrite (left_id ∅ (∪)).
    destruct (g_adj G !! (u, v)) as [old|] eqn:E; [|reflexivity].
    simpl. now apply (HG (u, v)).
Qed.

Lemma touch_is_Some (m : gmap string attrs) n x :
  is_Some (match m !! n with Some _ => m | None => <[n := ∅]> m end !! x)
  <-> is_Some (m !! x) \/ x = n.
Proof.
  destruct (m !! n) as [a|] eqn:E.
  - split; [auto|]. intros [?| ->]; eauto.
  - rewrite lookup_insert_is_Some. split.
    + intros [->|[_ ?]]; auto.
    + intros [?| ->]; [|auto]. destruct (decide (n = x)); auto.
Qed.

(** The nodes of a graph built by [add_edges_from]. *)
Lemma add_edges_from_nodes es : forall G n,
  is_Some (g_node (Nx.add_edges_from G es) !! n)
  <-> is_Some (g_node G !! n) \/ exists e, e ∈ es /\ (n = e.1 \/ n = e.2).
Proof.
  unfold Nx.add_edges_from.
  induction es as [|[u v] es IH]; intros G n; simpl.
  - split; [auto|]. intros [?|(e & He & _)]; [assumption|].
    now apply elem_of_nil in He.
  - rewrite IH.
    assert (Hn : is_Some (g_node (Nx.add_edge G u v ∅) !! n)
                 <-> is_Some (g_node G !! n) \/ n = u \/ n = v).
    { unfold Nx.add_edge. cbn [g_node]. rewrite !touch_is_Some. tauto. }
    rewrite Hn. split.
    + intros [[?|Huv]|(e & He & Hne)]; [auto| |].
      * right. exists (u, v). split; [now left|exact Huv].
      * right. exists e. split; [now right|exact Hne].
    + intros [?|(e & He & Hne)]; [auto|].
      apply elem_of_cons in He as [->|He]; [left; right; exact Hne|].
      right. eauto.
Qed.

(** What the time-window function returns is built from pairs alone. *)
Lemma network_structure data start end_ net :
  do_get_citation_network data start end_ = Return net ->
  g_class net = DiGraph /\ bare net
  /\ forall n, is_Some (g_node net !! n)
       <-> exists u v, is_Some (g_adj net !! (u, v)) /\ (n = u \/ n = v).
Proof.
  unfold do_get_citation_network.
  assert (He : g_class (Nx.empty DiGraph) = DiGraph /\ bare (Nx.empty DiGraph)
               /\ forall n, is_Some (g_node (Nx.empty DiGraph) !! n)
                    <-> exists u v,
                          is_Some (g_adj (Nx.empty DiGraph) !! (u, v))
                          /\ (n = u \/ n = v)).
  { split; [reflexivity|]. split.
    - split; intros ? ? H; simpl in H; now rewrite lookup_empty in H.
    - intros n. simpl. rewrite lookup_empty. split.
      + intros [? ?]; discriminate.
      + intros (u & v & [? H] & _). now rewrite lookup_empty in H. }
  destruct (_ && _); [|intros [= <-]; exact He].
  intros H. inv_bind H. rename a into l. injection H as <-.
  split; [now rewrite add_edges_from_class|].
  split; [split|].
  - intros n a. apply add_edges_from_node.
    intros m b Hm. simpl in Hm. now rewrite lookup_empty in Hm.
  - intros e a. apply add_edges_from_bare_adj; [reflexivity|].
    intros e' b Hm. simpl in Hm. now rewrite lookup_empty in Hm.
  - intros n. rewrite add_edges_from_nodes. simpl. rewrite lookup_empty. split.
    + intros [[? ?]|([u v] & Hin & Hn)]; [discriminate|].
      exists u, v. split; [|exact Hn].
      apply add_edges_from_adj; [reflexivity|now left].
    + intros (u & v & Huv & Hn). right. exists (u, v). split; [|exact Hn].
      apply add_edges_from_adj in Huv as [?|[? Huv]]; [assumption| |reflexivity].
      simpl in Huv. now rewrite lookup_empty in Huv.
Qed.

Lemma edges_nil G : Nx.edges G = [] <-> g_adj G = ∅.
Proof.
  unfold Nx.edges. rewrite <- map_to_list_empty_iff.
  destruct (map_to_list (g_adj G)); simpl; split; congruence.
Qed.

(** The loop of the time-window function on a graph without attributes. *)
Lemma eligible_edges_bare G start end_ es :
  (forall m a, g_node G !! m = Some a -> a = ∅) ->
  eligible_edges G start end_ es
  = match es with [] => Return [] | _ => Raise KeyError end.
Proof.
  intros Hb. destruct es as [|[u v] es]; [reflexivity|].
  cbn [eligible_edges]. rewrite (bare_creation G u) by assumption.
  reflexivity.
Qed.

Lemma count_citing_bare G year preds cntr :
  (forall m a, g_node G !! m = Some a -> a = ∅) ->
  count_citing G year preds cntr
  = match preds with [] => Return cntr | _ => Raise KeyError end.
Proof.
  intros Hb. destruct preds as [|c preds]; [reflexivity|].
  cbn [count_citing]. rewrite bare_creation_year by assumption. reflexivity.
Qed.

Lemma impact_loop_bare G year dois : forall cntrs,
  (forall m a, g_node G !! m = Some a -> a = ∅) ->
  (exists doi, doi ∈ dois /\ Nx.has_node G doi = true) ->
  impact_loop G year dois cntrs = Raise KeyError.
Proof.
  induction dois as [|doi dois IH]; intros cntrs Hb (d & Hin & Hd).
  - now apply elem_of_nil in Hin.
  - cbn [impact_loop]. destruct (Nx.has_node G doi) eqn:E.
    + rewrite count_citing_bare by assumption.
      destruct (Nx.predecessors G doi); [|reflexivity].
      rewrite bare_creation_year by assumption. reflexivity.
    + apply IH; [assumption|]. exists d. split; [|assumption].
      apply elem_of_cons in Hin as [->|Hin]; [congruence|assumption].
Qed.

Lemma impact_loop_known data year dois : forall cntrs,
  impact_loop data year dois cntrs
  = impact_loop data year (List.filter (Nx.has_node data) dois) cntrs.
Proof.
  induction dois as [|doi dois IH]; intros cntrs; [reflexivity|].
  cbn [impact_loop List.filter].
  destruct (Nx.has_node data doi) eqn:E; [|apply IH].
  cbn [impact_loop]. rewrite E.
  destruct (count_citing _ _ _ _) as [c|]; [|reflexivity].
  destruct (creation_year data doi) as [z|]; [|reflexivity].
  apply IH.
Qed.

Lemma ascii_compare_trans_le a b c :
  Ascii.compare a b <> Gt -> Ascii.compare b c <> Gt ->
  Ascii.compare a c <> Gt
  /\ (Ascii.compare a c = Eq ->
      Ascii.compare a b = Eq /\ Ascii.compare b c = Eq).
Proof.
  unfold Ascii.compare. rewrite !N.compare_gt_iff, !N.compare_eq_iff.
  intros H1 H2. split; [lia|]. intros E. rewrite E in *. lia.
Qed.

Lemma string_leb_trans a : forall b c,
  String.leb a b = true -> String.leb b c = true -> String.leb a c = true.
Proof.
  unfold String.leb.
  induction a as [|x a IH]; intros [|y b] [|z c]; simpl; try congruence.
  intros H1 H2.
  destruct (ascii_compare_trans_le x y z) as [Hle Heq].
  { destruct (Ascii.compare x y); congruence. }
  { destruct (Ascii.compare y z); congruence. }
  destruct (Ascii.compare x z) eqn:E; [|reflexivity|congruence].
  destruct (Heq eq_refl) as [E1 E2]. rewrite E1 in H1. rewrite E2 in H2.
  now apply (IH b c).
Qed.

Lemma str_between_widen s e s' e' y :
  String.leb s' s = true -> String.leb e e' = true ->
  str_between s e y = true -> str_between s' e' y = true.
Proof.
  unfold str_between. intros Hs He [H1 H2]%andb_prop.
  apply andb_true_iff. split; eauto using string_leb_trans.
Qed.

Lemma compose_node G H n :
  g_node (Nx.compose G H) !! n
  = union_with (fun a b => Some (Nx.update a b)) (g_node G !! n) (g_node H !! n).
Proof. unfold Nx.compose. simpl. apply lookup_union_with. Qed.

Lemma compose_adj G H e :
  g_adj (Nx.compose G H) !! e
  = union_with (fun a b => Some (Nx.update a b)) (g_adj G !! e) (g_adj H !! e).
Proof. unfold Nx.compose. simpl. apply lookup_union_with. Qed.

Lemma graph_eq G H :
  g_class G = g_class H ->
  (forall n, g_node G !! n = g_node H !! n) ->
  (forall e, g_adj G !! e = g_adj H !! e) ->
  G = H.
Proof.
  destruct G as [c n a], H as [c' n' a']. simpl.
  intros -> Hn Ha. f_equal; now apply map_eq.
Qed.

Lemma update_idemp (a : attrs) : Nx.update a a = a.
Proof. unfold Nx.update. apply (idemp_L (∪)). Qed.

Lemma update_assoc (a b c : attrs) :
  Nx.update (Nx.update a b) c = Nx.update a (Nx.update b c).
Proof. unfold Nx.update. apply (assoc_L (∪)). Qed.

Lemma compose_idemp G : Nx.compose G G = G.
Proof.
  apply graph_eq; [reflexivity| |].
  - intros n. rewrite compose_node. destruct (g_node G !! n); simpl;
      [now rewrite update_idemp|reflexivity].
  - intros e. rewrite compose_adj. destruct (g_adj G !! e); simpl;
      [now rewrite update_idemp|reflexivity].
Qed.

Lemma compose_assoc G H K :
  Nx.compose (Nx.compose G H) K = Nx.compose G (Nx.compose H K).
Proof.
  apply graph_eq; [reflexivity| |].
  - intros n. rewrite !compose_node.
    destruct (g_node G !! n), (g_node H !! n), (g_node K !! n); simpl;
      try reflexivity. now rewrite update_assoc.
  - intros e. rewrite !compose_adj.
    destruct (g_adj G !! e), (g_adj H !! e), (g_adj K !! e); simpl;
      try reflexivity. now rewrite update_assoc.
Qed.

Lemma compose_empty_r G : Nx.compose G (Nx.empty (g_class G)) = G.
Proof.
  apply graph_eq; [reflexivity| |].
  - intros n. rewrite compose_node. simpl. rewrite lookup_empty.
    now destruct (g_node G !! n).
  - intros e. rewrite compose_adj. simpl. rewrite lookup_empty.
    now destruct (g_adj G !! e).
Qed.

Lemma compose_empty_l G : Nx.compose (Nx.empty (g_class G)) G = G.
Proof.
  apply graph_eq; [reflexivity| |].
  - intros n. rewrite compose_node. simpl. rewrite lookup_empty.
    now destruct (g_node G !! n).
  - intros e. rewrite compose_adj. simpl. rewrite lookup_empty.
    now destruct (g_adj G !! e).
Qed.

End AnalyticsFacts.

Import GraphFacts IngestFacts RowFacts ImpactFacts NetworkFacts AnalyticsFacts
  EvalFacts ViewFacts.

(** X7. Co-citations: the number of the documents that cite both, and 0 when
    one of the two is not a node of the graph; the count is symmetric in
    the two documents. *)
Theorem co_citations_spec data doi1 doi2 :
  (exists citing_both : gset string,
     (forall c, c ∈ citing_both
        <-> is_Some (g_adj data !! (c, doi1))
            /\ is_Some (g_adj data !! (c, doi2)))
     /\ do_get_co_citations data doi1 doi2
        = if Nx.has_node data doi1 && Nx.has_node data doi2
          then size citing_both else 0%nat)
  /\ do_get_co_citations data doi1 doi2 = do_get_co_citations data doi2 doi1.
Proof.
  split.
  - exists (list_to_set (Nx.predecessors data doi1)
            ∩ list_to_set (Nx.predecessors data doi2)).
    split; [|reflexivity].
    intros c. rewrite elem_of_intersection, !elem_of_list_to_set.
    now rewrite !elem_of_predecessors.
  - unfold do_get_co_citations.
    rewrite (andb_comm (Nx.has_node data doi1)).
    now rewrite (common_count_comm (Nx.predecessors data doi1)).
Qed.

(** X8. Bibliographic coupling: the number of the documents that both cite, and
    0 when one of the two is not a node of the graph; the count is
    symmetric in the two documents. *)
Theorem bibliographic_coupling_spec data doi1 doi2 :
  (exists cited_both : gset string,
     (forall c, c ∈ cited_both
        <-> is_Some (g_adj data !! (doi1, c))
            /\ is_Some (g_adj data !! (doi2, c)))
     /\ do_get_bibliographic_coupling data doi1 doi2
        = if Nx.has_node data doi1 && Nx.has_node data doi2
          then size cited_both else 0%nat)
  /\ do_get_bibliographic_coupling data doi1 doi2
     = do_get_bibliographic_coupling data doi2 doi1.
Proof.
  split.
  - exists (list_to_set (Nx.successors data doi1)
            ∩ list_to_set (Nx.successors data doi2)).
    split; [|reflexivity].
    intros c. rewrite elem_of_intersection, !elem_of_list_to_set.
    now rewrite !elem_of_successors.
  - unfold do_get_bibliographic_coupling.
    rewrite (andb_comm (Nx.has_node data doi1)).
    now rewrite (common_count_comm (Nx.successors data doi1)).
Qed.

(** X9. The impact factor ignores the documents that are not in the graph. *)
Theorem impact_factor_ignores_unknown data dois year :
  do_compute_impact_factor data dois year
  = do_compute_impact_factor data (List.filter (Nx.has_node data) dois) year.
Proof.
  unfold do_compute_impact_factor.
  destruct (py_int year) as [y|]; [|reflexivity]. simpl.
  now rewrite impact_loop_known.
Qed.

(** X10. The network of a time window is built from pairs alone: a directed
    graph in which no node and no edge carries an attribute (the [timespan]
    of the edges is not kept either), and every node is an end point of an
    edge. *)
Theorem citation_network_structure data start end_ net :
  do_get_citation_network data start end_ = Return net ->
  g_class net = DiGraph /\ bare net
  /\ forall n, is_Some (g_node net !! n)
       <-> exists u v, is_Some (g_adj net !! (u, v)) /\ (n = u \/ n = v).
Proof. apply network_structure. Qed.

Lemma citation_network_structure_witness :
  exists net,
    do_get_citation_network sample_graph (PInt 2020) (PInt 2021) = Return net
    /\ g_class net = DiGraph /\ bare net
    /\ g_adj net !! ("a", "b") = Some ∅.
Proof.
  destruct (do_get_citation_network sample_graph (PInt 2020) (PInt 2021))
    as [net|] eqn:E; [|vm_compute in E; discriminate].
  exists net. split; [reflexivity|].
  destruct (citation_network_structure _ _ _ _ E) as (Hc & Hb & _).
  split; [exact Hc|]. split; [exact Hb|].
  vm_compute in E. injection E as <-. vm_compute. reflexivity.
Defined.

(** The time-window function cannot be applied to its own result: on the
    network of a window it raises [KeyError] as soon as the network has an
    edge and the bounds are accepted, and returns the empty graph
    otherwise. *)
Corollary citation_network_twice data start end_ net start' end_' :
  do_get_citation_network data start end_ = Return net ->
  do_get_citation_network net start' end_'
  = if window_ok start' end_' && negb (bool_decide (g_adj net = ∅))
    then Raise KeyError else Return (Nx.empty DiGraph).
Proof.
  intros H. apply network_structure in H as (_ & [Hb _] & _).
  unfold do_get_citation_network, window_ok.
  rewrite eligible_edges_bare by assumption.
  replace (String.leb (py_str start') (py_str end_')
           && (String.length (py_str start') =? String.length (py_str end_'))%nat
           && (String.length (py_str end_') =? 4)%nat)
    with (String.leb (py_str start') (py_str end_')
          && (String.length (py_str start') =? 4)%nat
          && (String.length (py_str end_') =? 4)%nat).
  2:{ destruct (String.length (py_str end_') =? 4)%nat eqn:E;
        [|now rewrite !andb_false_r].
      apply Nat.eqb_eq in E. now rewrite E. }
  destruct (_ && _ && _); [|reflexivity]. simpl.
  destruct (Nx.edges net) as [|e es] eqn:E.
  - apply edges_nil in E. rewrite bool_decide_eq_true_2 by assumption.
    reflexivity.
  - rewrite bool_decide_eq_false_2; [reflexivity|].
    intros Hempty. apply edges_nil in Hempty. congruence.
Qed.

Lemma citation_network_twice_witness :
  exists net,
    do_get_citation_network sample_graph (PInt 2020) (PInt 2021) = Return net
    /\ do_get_citation_network net (PInt 2020) (PInt 2021) = Raise KeyError.
Proof.
  destruct (do_get_citation_network sample_graph (PInt 2020) (PInt 2021))
    as [net|] eqn:E; [|vm_compute in E; discriminate].
  exists net. split; [reflexivity|].
  rewrite (citation_network_twice _ _ _ _ (PInt 2020) (PInt 2021) E).
  vm_compute in E. injection E as <-. vm_compute. reflexivity.
Defined.

(** X11. The impact factor cannot be computed on the network of a time window:
    with a year that reads as an integer and a document of the set in the
    network, the call raises [KeyError]. *)
Theorem impact_factor_on_network data start end_ net dois year y doi :
  do_get_citation_network data start end_ = Return net ->
  py_int year = Return y -> doi ∈ dois -> Nx.has_node net doi = true ->
  do_compute_impact_factor net dois year = Raise KeyError.
Proof.
  intros H Hy Hin Hd. apply network_structure in H as (_ & [Hb _] & _).
  unfold do_compute_impact_factor. rewrite Hy. simpl.
  rewrite impact_loop_bare; [reflexivity|assumption|eauto].
Qed.

Lemma impact_factor_on_network_witness :
  exists net,
    do_get_citation_network sample_graph (PInt 2020) (PInt 2021) = Return net
    /\ do_compute_impact_factor net ["b"] (PInt 2021) = Raise KeyError.
Proof.
  destruct (do_get_citation_network sample_graph (PInt 2020) (PInt 2021))
    as [net|] eqn:E; [|vm_compute in E; discriminate].
  exists net. split; [reflexivity|].
  apply (impact_factor_on_network _ _ _ _ _ _ 2021 "b" E); [reflexivity| |].
  - apply list_elem_of_here.
  - vm_compute in E. injection E as <-. vm_compute. reflexivity.
Defined.

(** X12. Queries on the fields [creation] and [timespan] cannot be evaluated on
    the network of a time window: as soon as the network has an edge they
    raise [KeyError], whatever the predicate. *)
Theorem query_on_network `{Interpreter} data start end_ net requery :
  do_get_citation_network data start end_ = Return net ->
  g_adj net <> ∅ ->
  get_filtered_list net requery "creation" = Raise KeyError
  /\ get_filtered_list net requery "timespan" = Raise KeyError.
Proof.
  intros Hnet Hne. apply network_structure in Hnet as (_ & [Hbn Hba] & _).
  unfold get_filtered_list. simpl. split.
  - destruct (Nx.edges net) as [|e es] eqn:E;
      [now apply edges_nil in E|].
    destruct e as [u v]. cbn [filterR fst]. rewrite (bare_creation net u) by assumption.
    reflexivity.
  - unfold Nx.edges_data.
    destruct (map_to_list (g_adj net)) as [|[e a] es] eqn:E;
      [now apply map_to_list_empty_iff in E|].
    assert (Ha : a = ∅).
    { apply (Hba e). apply elem_of_map_to_list. rewrite E. now left. }
    subst a. reflexivity.
Qed.

Lemma query_on_network_witness :
  exists net,
    do_get_citation_network sample_graph (PInt 2020) (PInt 2021) = Return net
    /\ get_filtered_list (H := fragment) net "True" "creation" = Raise KeyError
    /\ get_filtered_list (H := fragment) net "True" "timespan" = Raise KeyError.
Proof.
  destruct (do_get_citation_network sample_graph (PInt 2020) (PInt 2021))
    as [net|] eqn:E; [|vm_compute in E; discriminate].
  exists net. split; [reflexivity|].
  apply (query_on_network (H := fragment) _ _ _ _ "True" E).
  vm_compute in E. injection E as <-. vm_compute. discriminate.
Defined.

(** X13. A wider window keeps the edges: on a graph of the data model, every
    edge of the network of a window is an edge of the network of any window
    that contains it. *)
Theorem citation_network_monotone data s e s' e' net net' :
  well_formed data -> created data ->
  String.leb s' s = true -> String.leb e e' = true ->
  String.length s' = 4%nat -> String.length e' = 4%nat ->
  do_get_citation_network data (PStr s) (PStr e) = Return net ->
  do_get_citation_network data (PStr s') (PStr e') = Return net' ->
  forall u v, is_Some (g_adj net !! (u, v)) -> is_Some (g_adj net' !! (u, v)).
Proof.
  intros Hwf Hc Hs He Ls Le Hnet Hnet' u v Huv.
  assert (Hnodes : forall x y, (x, y) ∈ Nx.edges data ->
            is_Some (g_node data !! x) /\ is_Some (g_node data !! y)).
  { intros x y Hxy. apply Hwf. now apply elem_of_edges, list_elem_of_In. }
  destruct (eligible_edges_spec data s e (Nx.edges data) Hc Hnodes)
    as (l & El & Hl).
  destruct (eligible_edges_spec data s' e' (Nx.edges data) Hc Hnodes)
    as (l' & El' & Hl').
  unfold do_get_citation_network in Hnet, Hnet'. simpl in Hnet, Hnet'.
  rewrite El in Hnet. rewrite El' in Hnet'. simpl in Hnet, Hnet'.
  destruct (String.leb s e && (String.length s =? String.length e)%nat
            && (String.length e =? 4)%nat) eqn:Ew.
  2:{ injection Hnet as <-. destruct Huv as [a Ha]. simpl in Ha.
      now rewrite lookup_empty in Ha. }
  apply andb_prop in Ew as [[Hse _]%andb_prop _].
  assert (Hw' : String.leb s' e' && (String.length s' =? String.length e')%nat
                && (String.length e' =? 4)%nat = true).
  { rewrite Ls, Le. simpl. rewrite !andb_true_r.
    apply (string_leb_trans s' s e'); [assumption|].
    now apply (string_leb_trans s e e'). }
  rewrite Hw' in Hnet'. injection Hnet as <-. injection Hnet' as <-.
  apply add_edges_from_adj in Huv as [Hin|[a Ha]]; [| |reflexivity].
  2:{ simpl in Ha. now rewrite lookup_empty in Ha. }
  apply add_edges_from_adj; [reflexivity|]. left.
  apply Hl in Hin as [Hin (c1 & c2 & H1 & H2 & H3 & H4)].
  apply Hl'. split; [exact Hin|].
  exists c1, c2. eauto 6 using str_between_widen.
Qed.

Lemma citation_network_monotone_witness :
  exists net net',
    do_get_citation_network sample_graph (PStr "2020") (PStr "2021")
    = Return net
    /\ do_get_citation_network sample_graph (PStr "2018") (PStr "2022")
       = Return net'
    /\ is_Some (g_adj net !! ("a", "b"))
    /\ is_Some (g_adj net' !! ("a", "b"))
    /\ g_adj net !! ("b", "d") = None
    /\ is_Some (g_adj net' !! ("b", "d")).
Proof.
  destruct (do_get_citation_network sample_graph (PStr "2020") (PStr "2021"))
    as [net|] eqn:E; [|vm_compute in E; discriminate].
  destruct (do_get_citation_network sample_graph (PStr "2018") (PStr "2022"))
    as [net'|] eqn:E'; [|vm_compute in E'; discriminate].
  assert (Hab : is_Some (g_adj net !! ("a", "b"))).
  { revert E. vm_compute. intros [= <-]. eexists. reflexivity. }
  exists net, net'. split; [reflexivity|]. split; [reflexivity|].
  split; [exact Hab|]. split.
  - apply (citation_network_monotone sample_graph "2020" "2021" "2018" "2022"
             net net'); try reflexivity; try assumption.
    + apply sample_graph_ingested.
    + apply sample_graph_ingested.
  - split.
    + revert E. vm_compute. intros [= <-]. reflexivity.
    + revert E'. vm_compute. intros [= <-]. eexists. reflexivity.
Defined.

(** Merging is idempotent and has the empty graph of the class as neutral
    element. *)
Corollary merge_graphs_idempotent data g :
  do_merge_graphs data g g = Some g
  /\ do_merge_graphs data g (Nx.empty (g_class g)) = Some g
  /\ do_merge_graphs data (Nx.empty (g_class g)) g = Some g.
Proof.
  unfold do_merge_graphs. simpl.
  destruct (decide (g_class g = g_class g)); [|contradiction].
  now rewrite compose_idemp, compose_empty_r, compose_empty_l.
Qed.

(** X14. Merging is associative, also when it returns [None]. *)
Theorem merge_graphs_associative data g1 g2 g3 :
  (g12 ← do_merge_graphs data g1 g2; do_merge_graphs data g12 g3)
  = (g23 ← do_merge_graphs data g2 g3; do_merge_graphs data g1 g23).
Proof.
  unfold do_merge_graphs.
  destruct (decide (g_class g1 = g_class g2)) as [E12|N12];
    destruct (decide (g_class g2 = g_class g3)) as [E23|N23]; simpl.
  - destruct (decide (g_class g1 = g_class g3)); [|congruence].
    destruct (decide (g_class g1 = g_class g2)); [|congruence].
    now rewrite compose_assoc.
  - destruct (decide (g_class g1 = g_class g3)); [congruence|reflexivity].
  - destruct (decide (g_class g1 = g_class g2)); [congruence|reflexivity].
  - reflexivity.
Qed.

(** X15. Merging keeps the shape of ingested graphs: the merge of two graphs of
    that shape is returned and has that shape. *)
Theorem merge_graphs_ingested data g1 g2 :
  ingested_shape g1 -> ingested_shape g2 ->
  exists g, do_merge_graphs data g1 g2 = Some g /\ ingested_shape g.
Proof.
  intros (Hc1 & Hn1 & He1) (Hc2 & Hn2 & He2).
  unfold do_merge_graphs.
  destruct (decide (g_class g1 = g_class g2)); [|congruence].
  eexists. split; [reflexivity|].
  assert (Hnode : forall n, is_Some (g_node g1 !! n) \/ is_Some (g_node g2 !! n)
                    -> is_Some (g_node (Nx.compose g1 g2) !! n)).
  { intros n. rewrite compose_node.
    destruct (g_node g1 !! n), (g_node g2 !! n); simpl; intros [[? ?]|[? ?]];
      eauto; discriminate. }
  split; [exact Hc1|]. split.
  - intros n a. rewrite compose_node.
    destruct (g_node g1 !! n) as [a1|] eqn:E1,
             (g_node g2 !! n) as [a2|] eqn:E2; simpl; intros [= <-]; eauto.
    destruct (Hn1 _ _ E1) as [c1 ->]. destruct (Hn2 _ _ E2) as [c2 ->].
    exists c2. unfold Nx.update. apply singleton_union_same.
  - intros u v a. rewrite compose_adj.
    destruct (g_adj g1 !! (u, v)) as [a1|] eqn:E1,
             (g_adj g2 !! (u, v)) as [a2|] eqn:E2; simpl; intros [= <-].
    + destruct (He1 _ _ _ E1) as ([t1 ->] & Hu & Hv).
      destruct (He2 _ _ _ E2) as ([t2 ->] & _ & _).
      split; [|auto]. exists t2. unfold Nx.update. apply singleton_union_same.
    + destruct (He1 _ _ _ E1) as (Ht & Hu & Hv). auto.
    + destruct (He2 _ _ _ E2) as (Ht & Hu & Hv). auto.
Qed.

Lemma merge_graphs_ingested_witness :
  exists g,
    do_merge_graphs sample_graph sample_graph sample_graph = Some g
    /\ ingested_shape g.
Proof.
  apply (merge_graphs_ingested sample_graph sample_graph sample_graph);
    apply (process_citations_shape sample_rows); vm_compute; reflexivity.
Defined.

(** * Search by prefix *)

Module PrefixFacts.
Import PyStr ViewFacts EvalFacts.

Lemma find_chr_range c s : find_chr c s = -1 \/ 0 <= find_chr c s.
Proof.
  induction s as [|x s IH]; [now left|]. simpl.
  destruct (Ascii.eqb x c); [right; lia|].
  destruct (find_chr c s <? 0) eqn:E; [now left|].
  apply Z.ltb_ge in E. right. lia.
Qed.

Lemma fmap_String_Some b (o : option string) a p :
  String b <$> o = Some (String a p) <-> b = a /\ o = Some p.
Proof.
  destruct o as [t|]; simpl; split.
  - intros [= -> ->]. auto.
  - intros [-> [= ->]]. reflexivity.
  - discriminate.
  - intros [_ ?]. discriminate.
Qed.

Lemma fmap_String_nil b (o : option string) :
  String b <$> o = Some EmptyString <-> False.
Proof. destruct o; simpl; split; try discriminate; tauto. Qed.

Lemma prefix_test_iff p : forall x,
  startswith x p = true /\ find_chr "/" x = Z.of_nat (String.length p)
  <-> before_slash x = Some p.
Proof.
  induction p as [|a p IH]; intros [|b x].
  - simpl. split; [intros [_ ?]; lia|discriminate].
  - cbn [startswith find_chr before_slash String.length].
    destruct (Ascii.eqb b "/") eqn:E; [tauto|].
    rewrite fmap_String_nil. split; [|tauto]. intros [_ H].
    destruct (find_chr "/" x <? 0) eqn:L; simpl in H; [lia|].
    apply Z.ltb_ge in L. lia.
  - simpl. split; [intros [? _]|]; discriminate.
  - cbn [startswith find_chr before_slash String.length].
    rewrite Nat2Z.inj_succ.
    destruct (Ascii.eqb b "/") eqn:E.
    + split; [intros [_ ?]; lia|discriminate].
    + rewrite fmap_String_Some, <- IH, andb_true_iff, Ascii.eqb_eq.
      destruct (find_chr "/" x <? 0) eqn:L.
      * apply Z.ltb_lt in L. split; [intros [_ ?]; lia|intros (_ & _ & ?); lia].
      * split.
        -- intros [[-> ?] ?]. repeat split; [assumption|lia].
        -- intros (-> & ? & ?). repeat split; [assumption|lia].
Qed.

(** The test of the loop: the identifier starts with the prefix and its
    first slash comes right after. *)
Lemma prefix_test p x :
  startswith x p && (find_chr "/" x =? Z.of_nat (String.length p))
  = bool_decide (before_slash x = Some p).
Proof.
  apply Bool.eq_iff_eq_true.
  rewrite andb_true_iff, Z.eqb_eq, bool_decide_eq_true.
  apply prefix_test_iff.
Qed.

(** The text before the first slash has no slash. *)
Lemma before_slash_plain x : forall p,
  before_slash x = Some p -> find_chr "/" p = -1.
Proof.
  induction x as [|c x IH]; intros p; [discriminate|]. simpl.
  destruct (Ascii.eqb c "/") eqn:E; [now intros [= <-]|].
  destruct (before_slash x) as [t|]; [|discriminate].
  intros [= <-]. simpl. rewrite E. now rewrite (IH t eq_refl).
Qed.

(** The text before the first slash, the slash and the rest make up the
    identifier. *)
Lemma before_slash_split x : forall p,
  before_slash x = Some p <->
  find_chr "/" p = -1 /\ exists rest, x = p +:+ String "/" rest.
Proof.
  induction x as [|c x IH]; intros p.
  - split; [discriminate|]. intros [_ [rest H]]. destruct p; discriminate.
  - simpl. destruct (Ascii.eqb_spec c "/") as [->|Hc].
    + split.
      * intros [= <-]. split; [reflexivity|]. now exists x.
      * intros [Hp [rest H]]. destruct p as [|a p]; [reflexivity|].
        injection H as <- _. simpl in Hp. discriminate.
    + split.
      * destruct (before_slash x) as [t|] eqn:E; [|discriminate].
        intros [= <-]. destruct (proj1 (IH t) eq_refl) as [Ht [rest ->]].
        split; [|now exists rest].
        simpl. rewrite (proj2 (Ascii.eqb_neq c "/") Hc). now rewrite Ht.
      * intros [Hp [rest H]]. destruct p as [|a p].
        -- injection H as -> _. contradiction.
        -- injection H as <- ->. simpl in Hp.
           rewrite (proj2 (Ascii.eqb_neq c "/") Hc) in Hp.
           assert (Hp' : find_chr "/" p = -1).
           { destruct (find_chr_range "/" p) as [R|R]; [exact R|].
             destruct (find_chr "/" p <? 0) eqn:L; [|lia].
             apply Z.ltb_lt in L. lia. }
           rewrite (proj2 (IH p)); [reflexivity|]. split; [exact Hp'|].
           now exists rest.
Qed.

(** The edges the loop of the prefix search keeps. *)
Lemma prefix_loop g prefix is_citing e :
  e ∈ filter (fun e : string * string =>
                Is_true
                  ((is_citing && startswith e.1 prefix
                    && (find_chr "/" e.1 =? Z.of_nat (String.length prefix)))
                   || (negb is_citing && startswith e.2 prefix
                       && (find_chr "/" e.2
                           =? Z.of_nat (String.length prefix)))))
             (Nx.edges g)
  <-> e ∈ Nx.edges g
      /\ before_slash (searched_end is_citing e) = Some prefix.
Proof.
  rewrite list_elem_of_filter, Is_true_true. unfold searched_end.
  rewrite <- !andb_assoc, !prefix_test.
  destruct is_citing; simpl; rewrite ?orb_false_r, bool_decide_eq_true; tauto.
Qed.

End PrefixFacts.

Import PyStr ViewFacts EvalFacts PrefixFacts.

(** X16. Search by prefix: the call returns a view of the source graph that
    shows the sub-graph induced by the edges whose citing document (or
    cited document, when [is_citing] is false) has the prefix as its text
    before the first slash: the identifier is the prefix, a slash, and any
    text, and the prefix has no slash. *)
Theorem search_by_prefix_spec h data prefix is_citing g :
  View.read h data = Some g ->
  exists L v,
    do_search_by_prefix h data prefix is_citing
    = Return (GView data (endpoints L) (list_to_set L))
    /\ (forall e, e ∈ L
          <-> e ∈ Nx.edges g
              /\ PyStr.find_chr "/" prefix = -1
              /\ exists rest,
                   searched_end is_citing e = prefix +:+ String "/" rest)
    /\ View.read h (GView data (endpoints L) (list_to_set L)) = Some v
    /\ induced_by L g v.
Proof.
  intros Hg. unfold do_search_by_prefix. rewrite Hg.
  eexists. eexists. split; [reflexivity|]. split.
  - intros e. rewrite prefix_loop, before_slash_split. reflexivity.
  - simpl. rewrite Hg. simpl. split; [reflexivity|]. apply restrict_induced.
Qed.

Lemma search_by_prefix_spec_witness :
  exists L v,
    do_search_by_prefix prefix_store (GObj 1) "10.1" true
    = Return (GView (GObj 1) (endpoints L) (list_to_set L))
    /\ (forall e, e ∈ L
          <-> e ∈ Nx.edges prefix_graph
              /\ PyStr.find_chr "/" "10.1" = -1
              /\ exists rest, searched_end true e = "10.1" +:+ String "/" rest)
    /\ View.read prefix_store (GView (GObj 1) (endpoints L) (list_to_set L))
       = Some v
    /\ induced_by L prefix_graph v.
Proof.
  apply (search_by_prefix_spec prefix_store (GObj 1) "10.1" true prefix_graph).
  reflexivity.
Defined.

(** A prefix that holds a slash matches no identifier: the view returned
    shows no edge and no node. *)
Corollary search_by_prefix_slash h data prefix is_citing g :
  View.read h data = Some g -> 0 <= PyStr.find_chr "/" prefix ->
  do_search_by_prefix h data prefix is_citing = Return (GView data ∅ ∅).
Proof.
  intros Hg Hp. unfold do_search_by_prefix. rewrite Hg.
  assert (Hnil : filter (fun e : string * string =>
                   Is_true
                     ((is_citing && startswith e.1 prefix
                       && (find_chr "/" e.1
                           =? Z.of_nat (String.length prefix)))
                      || (negb is_citing && startswith e.2 prefix
                          && (find_chr "/" e.2
                              =? Z.of_nat (String.length prefix)))))
                  (Nx.edges g) = []).
  { destruct (filter _ _) as [|e l] eqn:E; [reflexivity|]. exfalso.
    assert (He : e ∈ e :: l) by now left.
    rewrite <- E in He.
    apply prefix_loop in He as [_ He]. apply before_slash_plain in He. lia. }
  cbv zeta. rewrite Hnil. reflexivity.
Qed.

Lemma search_by_prefix_slash_witness :
  do_search_by_prefix prefix_store (GObj 1) "10.1/c" true
  = Return (GView (GObj 1) ∅ ∅).
Proof.
  apply (search_by_prefix_slash prefix_store (GObj 1) "10.1/c" true prefix_graph).
  - reflexivity.
  - vm_compute. discriminate.
Defined.

(** * The resolver on the descriptors and dates it is given *)

Module MarkFacts.
Import PyStr PyStrFacts Calendar CalendarFacts DateFacts ParseFacts
  DateTextFacts ShiftFacts ResolveFacts.

Lemma replace_chr_1_cons c x a s :
  exists a', replace_chr c (String x EmptyString) (String a s)
             = String a' (replace_chr c (String x EmptyString) s).
Proof.
  simpl. destruct (Ascii.eqb a c); eauto.
Qed.

Lemma timespan_items_mark c c' rest :
  timespan_items (String c rest) = timespan_items (String c' rest).
Proof.
  unfold timespan_items.
  rewrite <- (length_replace_chr_1 "Y" ":" (String c rest)).
  rewrite <- (length_replace_chr_1 "M" ":" (replace_chr "Y" ":" (String c rest))).
  rewrite <- (length_replace_chr_1 "Y" ":" (String c' rest)).
  rewrite <- (length_replace_chr_1 "M" ":" (replace_chr "Y" ":" (String c' rest))).
  rewrite !slice_inner.
  destruct (replace_chr_1_cons "Y" ":" c rest) as [a ->].
  destruct (replace_chr_1_cons "Y" ":" c' rest) as [a' ->].
  destruct (replace_chr_1_cons "M" ":" a (replace_chr "Y" ":" rest)) as [b ->].
  destruct (replace_chr_1_cons "M" ":" a' (replace_chr "Y" ":" rest)) as [b' ->].
  reflexivity.
Qed.

Lemma mapR_ext {A B} (f g : A -> result B) l :
  (forall x, f x = g x) -> mapR f l = mapR g l.
Proof.
  intros H. induction l as [|x l IH]; [reflexivity|].
  simpl. now rewrite H, IH.
Qed.

Lemma timespan_times_mark c c' rest :
  Ascii.eqb c "P" = Ascii.eqb c' "P" ->
  timespan_times (String c rest) = timespan_times (String c' rest).
Proof.
  intros E. unfold timespan_times.
  rewrite (timespan_items_mark c c' rest).
  apply mapR_ext. intros item. simpl. now rewrite E.
Qed.

Lemma add_delta_years_clamp dt a :
  valid_date dt = true -> 1 <= year dt + a <= 9999 ->
  add_delta dt (delta_years a) = Return (years_later dt a).
Proof.
  intros Hv Hy.
  pose proof (proj1 (valid_date_fields dt) Hv) as (_ & Hm & Hd).
  pose proof (days_in_month_ge (year dt + a) (month dt) Hm) as Hge.
  assert (Hv' : valid_date (years_later dt a) = true).
  { apply valid_date_fields. unfold years_later. simpl. lia. }
  unfold add_delta, delta_years, fix_delta. simpl.
  fold (years_later dt a).
  rewrite replace_valid by exact Hv'. simpl.
  now apply add_days_0.
Qed.

Lemma take_min n s : take (Nat.min n (String.length s)) s = take n s.
Proof.
  revert s. induction n as [|n IH]; intros [|c s]; try reflexivity.
  simpl. now rewrite IH.
Qed.

Lemma prefix_to_take n s : PyStr.prefix_to n s = take n s.
Proof.
  unfold PyStr.prefix_to, slice, clamp_index.
  change (0 <? 0) with false. cbv iota.
  replace (Z.of_nat n <? 0) with false by (symmetry; apply Z.ltb_ge; lia).
  replace (Z.to_nat (Z.min (Z.max 0 0) (Z.of_nat (String.length s))))
    with 0%nat by lia.
  replace (Z.to_nat (Z.min (Z.max (Z.of_nat n) 0) (Z.of_nat (String.length s))))
    with (Nat.min n (String.length s)) by lia.
  rewrite Nat.sub_0_r. simpl drop. apply take_min.
Qed.

Lemma take_take n m s : (n <= m)%nat -> take n (take m s) = take n s.
Proof.
  revert m s. induction n as [|n IH]; intros m s H; [now destruct (take m s), s|].
  destruct m as [|m]; [lia|]. destruct s as [|c s]; [reflexivity|].
  simpl. rewrite IH by lia. reflexivity.
Qed.

(** The year of a date printed and cut to a precision reads back. *)
Lemma year_of_prefix n d :
  valid_date d = true -> (4 <= n)%nat ->
  PyStr.int (PyStr.slice 0 4 (PyStr.prefix_to n (isoformat d)))
  = Return (year d).
Proof.
  intros Hv Hn.
  destruct (isoformat_chars d Hv)
    as (y1 & y2 & y3 & y4 & m1 & m2 & d1 & d2 & E & Hdig & Hy & _).
  change (PyStr.slice 0 4 (PyStr.prefix_to n (isoformat d)))
    with (PyStr.prefix_to 4 (PyStr.prefix_to n (isoformat d))).
  rewrite !prefix_to_take, take_take by assumption.
  rewrite E. cbn [take]. simpl in Hdig.
  rewrite !andb_true_iff in Hdig.
  destruct Hdig as (H1 & H2 & H3 & H4 & _).
  rewrite int_numeral.
  - f_equal. rewrite <- Hy. unfold digits_val. simpl. lia.
  - unfold numeral, all_digits. simpl. now rewrite H1, H2, H3, H4.
Qed.

Lemma derived_year citing_date timespan s :
  String.length citing_date ∈ [4; 7; 10]%nat ->
  find_cited_date citing_date timespan = Return s ->
  exists y, 1 <= y <= 9999 /\ PyStr.int (PyStr.slice 0 4 s) = Return y.
Proof.
  intros Hn H. apply find_cited_date_Return in H as (d & Hv & ->).
  exists (year d). split; [now apply valid_date_fields in Hv|].
  apply year_of_prefix; [assumption|].
  repeat (apply elem_of_cons in Hn as [->|Hn]; [lia|]).
  now apply elem_of_nil in Hn.
Qed.

Lemma years_read_dated G : years_read G -> dated G.
Proof.
  intros HG n [a Ha]. destruct (HG n a Ha) as (c & Hc & Hy).
  unfold creation_year, Nx.node_attr, Nx.getitem. now rewrite Ha, Hc.
Qed.

Lemma add_node_years_read G n c :
  years_read G -> is_Return (PyStr.int (PyStr.slice 0 4 c)) = true ->
  years_read (Nx.add_node G n {["creation" := c]}).
Proof.
  intros HG Hc m a. rewrite IngestFacts.add_node_lookup.
  destruct (decide (m = n)) as [->|_]; [|apply HG].
  intros [= <-]. exists c. split; [|exact Hc].
  unfold Nx.update. apply lookup_union_Some_l. apply lookup_singleton_eq.
Qed.

Lemma process_row_years_read G row G' :
  years_read G ->
  (forall citing cited creation timespan,
     row = [citing; cited; creation; timespan] -> creation_ok creation) ->
  process_row G row = Return G' -> years_read G'.
Proof.
  intros HG Hrow. unfold process_row.
  destruct row as [|citing [|cited [|creation [|timespan [|? ?]]]]];
    try (intros [= <-]; exact HG).
  destruct (Hrow _ _ _ _ eq_refl) as [Hlen Hyear].
  set (G1 := if Nx.has_node G citing then G
             else Nx.add_node G citing {["creation" := creation]}).
  assert (H1 : years_read G1)
    by (subst G1; destruct (Nx.has_node G citing);
        auto using add_node_years_read).
  assert (Hciting : is_Some (g_node G1 !! citing)).
  { subst G1. destruct (Nx.has_node G citing) eqn:E.
    - now apply GraphFacts.has_node_true.
    - rewrite IngestFacts.add_node_lookup.
      destruct (decide (citing = citing)); eauto. contradiction. }
  intros H. inv_bind H. rename a into G2. injection H as <-.
  assert (H2 : years_read G2 /\ is_Some (g_node G2 !! citing)
               /\ is_Some (g_node G2 !! cited)).
  { destruct (Nx.has_node G1 cited) eqn:E.
    - injection Ha as <-. apply GraphFacts.has_node_true in E. auto.
    - inv_bind Ha. rename a into cited_date. injection Ha as <-.
      destruct (derived_year _ _ _ Hlen Ha0) as (y & _ & Ey).
      split; [apply add_node_years_read; [assumption|now rewrite Ey]|].
      rewrite !IngestFacts.add_node_lookup.
      split; [destruct (decide (citing = cited)); eauto|].
      destruct (decide (cited = cited)); [eauto|contradiction]. }
  destruct H2 as (H2 & Hu & Hv).
  unfold years_read.
  now rewrite (IngestFacts.add_edge_node_present G2 citing cited _ Hu Hv).
Qed.

Lemma process_rows_years_read rows : forall G G',
  years_read G ->
  (forall citing cited creation timespan,
     [citing; cited; creation; timespan] ∈ rows -> creation_ok creation) ->
  process_rows G rows = Return G' -> years_read G'.
Proof.
  induction rows as [|row rows IH]; intros G G' HG Hrows H; simpl in H.
  - now injection H as <-.
  - inv_bind H. rename a into G1. apply (IH G1 G'); [| |assumption].
    + apply (process_row_years_read G row); [assumption| |assumption].
      intros citing cited creation timespan ->. eapply Hrows. now left.
    + intros citing cited creation timespan Hin. eapply Hrows. right. eassumption.
Qed.

End MarkFacts.

Import PyStr PyStrFacts Calendar CalendarFacts DateFacts ParseFacts
  DateTextFacts ShiftFacts ResolveFacts MarkFacts.

(** X17. The first character of the descriptor decides the direction and
    nothing else: every descriptor that does not start with [P] is resolved
    as the descriptor with any other such first character. *)
Theorem direction_mark_alone citing_date c c' rest :
  c <> "P"%char -> c' <> "P"%char ->
  find_cited_date citing_date (String c rest)
  = find_cited_date citing_date (String c' rest).
Proof.
  intros Hc Hc'. unfold find_cited_date.
  rewrite (timespan_times_mark c c' rest); [reflexivity|].
  apply Ascii.eqb_neq in Hc, Hc'. now rewrite Hc, Hc'.
Qed.

Lemma direction_mark_alone_witness :
  find_cited_date "2020-01-01" "+P1Y" = find_cited_date "2020-01-01" "-P1Y"
  /\ find_cited_date "2020-01-01" "-P1Y" = Return "2021-01-01".
Proof.
  split; [|vm_compute; reflexivity].
  apply (direction_mark_alone "2020-01-01" "+" "-" "P1Y"); discriminate.
Defined.

(** X18. With no month component, the days are read as months: a well-formed
    descriptor of years and days is resolved as the descriptor of as many
    years and months. *)
Theorem days_read_as_months citing_date neg ys d :
  numeral ys = true -> numeral d = true ->
  find_cited_date citing_date (descriptor neg ys None (Some d))
  = find_cited_date citing_date (descriptor neg ys (Some d) None).
Proof.
  intros Hy Hd. unfold find_cited_date.
  rewrite (timespan_times_descriptor neg ys None (Some d))
    by (assumption || reflexivity).
  rewrite (timespan_times_descriptor neg ys (Some d) None)
    by (assumption || reflexivity).
  reflexivity.
Qed.

Lemma days_read_as_months_witness :
  find_cited_date "2020-03-15" "P0Y5D" = find_cited_date "2020-03-15" "P0Y5M"
  /\ find_cited_date "2020-03-15" "P0Y5M" = Return "2019-10-15".
Proof.
  split; [|vm_compute; reflexivity].
  apply (days_read_as_months "2020-03-15" false "0" "5"); reflexivity.
Defined.

(** A duration of zero leaves the reference date as it is, at each of the
    three precisions. *)
Corollary zero_duration dt n neg ys ms ds :
  valid_date dt = true -> precision_of n dt ->
  numeral ys = true -> numeral_opt ms = true -> numeral_opt ds = true ->
  digits_val ys = 0 -> zero_opt ms -> zero_opt ds ->
  find_cited_date (PyStr.prefix_to n (isoformat dt)) (descriptor neg ys ms ds)
  = Return (PyStr.prefix_to n (isoformat dt)).
Proof.
  unfold zero_opt. intros Hv Hp Hy Hm Hd Ey Em Ed.
  unfold find_cited_date.
  rewrite length_prefix_iso, complete_date_prefix by assumption.
  rewrite timespan_times_descriptor by assumption.
  rewrite fromisoformat_isoformat by assumption.
  simpl. rewrite Ey, signed_0.
  change (delta_years 0) with (mkDelta 0 0 0).
  rewrite add_delta_none by assumption. simpl.
  destruct ms as [m|], ds as [d|]; simpl in *;
    rewrite ?Em, ?Ed, ?signed_0;
    change (delta_months 0) with (mkDelta 0 0 0);
    change (delta_days 0) with (mkDelta 0 0 0);
    rewrite ?add_delta_none by assumption; simpl;
    rewrite ?add_delta_none by assumption; reflexivity.
Qed.

Lemma zero_duration_witness :
  find_cited_date "2020-02" "-P0Y0M0D" = Return "2020-02".
Proof.
  apply (zero_duration (mkDate 2020 2 1) 7 true "0" (Some "0") (Some "0"));
    try reflexivity.
  right; left. split; reflexivity.
Defined.

(** X19. A descriptor of years only moves the year and keeps the month; the day
    is kept unless the month is shorter in the year reached, where it is
    cut to the last day of the month (29 February in a year that is not a
    leap year). *)
Theorem years_only_resolution dt n neg ys :
  valid_date dt = true -> precision_of n dt -> numeral ys = true ->
  1 <= year dt + signed neg (digits_val ys) <= 9999 ->
  find_cited_date (PyStr.prefix_to n (isoformat dt))
                  (descriptor neg ys None None)
  = Return (PyStr.prefix_to n
              (isoformat (years_later dt (signed neg (digits_val ys))))).
Proof.
  intros Hv Hp Hy Hr. unfold find_cited_date.
  rewrite length_prefix_iso, complete_date_prefix by assumption.
  rewrite timespan_times_descriptor by auto.
  rewrite fromisoformat_isoformat by assumption.
  simpl. now rewrite add_delta_years_clamp by assumption.
Qed.

Lemma years_only_resolution_witness :
  find_cited_date "2020-02-29" "P1Y" = Return "2019-02-28".
Proof.
  apply (years_only_resolution (mkDate 2020 2 29) 10 false "1");
    try reflexivity.
  - now left.
  - vm_compute. split; discriminate.
Defined.

(** X20. The year of a derived date reads as an integer: for a reference date of
    one of the three precisions, the first four characters of what the
    resolver returns read as a year between 1 and 9999. *)
Theorem derived_date_year citing_date timespan s :
  String.length citing_date ∈ [4; 7; 10]%nat ->
  find_cited_date citing_date timespan = Return s ->
  exists y, 1 <= y <= 9999 /\ PyStr.int (PyStr.slice 0 4 s) = Return y.
Proof. apply derived_year. Qed.

Lemma derived_date_year_witness :
  exists y, 1 <= y <= 9999
       /\ PyStr.int (PyStr.slice 0 4 "2019-01") = Return y.
Proof.
  apply (derived_date_year "2020-03" "P1Y2M" "2019-01").
  - apply elem_of_cons. right. apply list_elem_of_here.
  - vm_compute. reflexivity.
Defined.

(** X21. On a file whose creation dates are of the data model, ingestion builds
    a graph of the data model: the year of every node, given or derived,
    reads as an integer, so that the impact factor is computed for every
    set of documents and every year. *)
Theorem ingestion_dated heading rows G :
  process_citations (heading :: rows) = Return G ->
  (forall citing cited creation timespan,
     [citing; cited; creation; timespan] ∈ rows -> creation_ok creation) ->
  well_formed G /\ dated G
  /\ forall dois y,
       is_Return (do_compute_impact_factor G dois (PInt y)) = true.
Proof.
  intros H Hrows.
  pose proof (IngestFacts.process_citations_ingested _ _ H) as (Hwf & _ & _).
  assert (Hd : dated G).
  { apply years_read_dated. unfold process_citations in H.
    apply (process_rows_years_read rows (Nx.empty DiGraph) G);
      [|assumption|assumption].
    intros n a Hn. simpl in Hn. now rewrite lookup_empty in Hn. }
  split; [exact Hwf|]. split; [exact Hd|].
  intros dois y. unfold do_compute_impact_factor. simpl.
  rewrite ImpactFacts.impact_loop_spec by assumption. simpl.
  now destruct (_ =? _)%nat.
Qed.

Lemma ingestion_dated_witness :
  well_formed sample_graph /\ dated sample_graph
  /\ is_Return (do_compute_impact_factor sample_graph ["b"; "b"] (PInt 2021))
     = true.
Proof.
  destruct (ingestion_dated ["citing"; "cited"; "creation"; "timespan"]
              (tail sample_rows) sample_graph) as (H1 & H2 & H3).
  - vm_compute. reflexivity.
  - intros citing cited creation timespan Hin.
    repeat (apply elem_of_cons in Hin as [[= _ _ -> _]|Hin];
            [split; [|reflexivity]; set_solver|]).
    now apply elem_of_nil in Hin.
  - split; [exact H1|]. split; [exact H2|]. apply H3.
Defined.

(** * The query compilers *)

Module TranslateFacts.
Import PyStr ParseFacts GlobFacts CompileFacts.

(** Escaping the parts between the stars and joining them with stars. *)
Lemma escape_parts_all w :
  foldr (fun p r => "*" +:+ Re.escape p +:+ r) EmptyString
        (PyStr.split_on "*" w)
  = "*" +:+ escape_but_stars w.
Proof.
  induction w as [|c w IH]; [reflexivity|].
  simpl PyStr.split_on. simpl escape_but_stars.
  destruct (Ascii.eqb c "*") eqn:Ec.
  - simpl foldr. now rewrite IH.
  - destruct (PyStr.split_on "*" w) as [|p ps] eqn:Ep;
      [now apply split_on_nonempty in Ep|].
    simpl foldr in *. simpl Re.escape.
    rewrite !append_cons, !append_nil_l in IH. injection IH as IH.
    destruct (Re.is_special c);
      rewrite !append_cons, !append_nil_l; now rewrite IH.
Qed.

Lemma flush_app (cur : list ascii) (l1 l2 : list string) :
  match cur with
  | [] => l1 ++ l2
  | _ => string_of_list_ascii (rev cur) :: l1 ++ l2
  end
  = match cur with
    | [] => l1
    | _ => string_of_list_ascii (rev cur) :: l1
    end ++ l2.
Proof. now destruct cur. Qed.

(** Splitting at white space a text made of two texts with a white space
    character between them. *)
Lemma split_ws_aux_app a : forall cur c b,
  is_space c = true ->
  split_ws_aux cur (a +:+ String c b) = split_ws_aux cur a ++ split_ws_aux [] b.
Proof.
  induction a as [|x a IH]; intros cur c b Hc.
  - rewrite append_nil_l. cbn [split_ws_aux]. rewrite Hc.
    now destruct cur.
  - rewrite append_cons. cbn [split_ws_aux].
    destruct (is_space x).
    + rewrite IH by assumption. now destruct cur.
    + now apply IH.
Qed.

Lemma split_ws_app a c b :
  is_space c = true ->
  split_ws (a +:+ String c b) = split_ws a ++ split_ws b.
Proof. apply split_ws_aux_app. Qed.

Lemma fold_left_compiled wordlist : forall acc,
  fold_left (fun finaleval word => finaleval +:+ " " +:+ compiled_word word +:+ " ")
            wordlist acc
  = acc +:+ fold_left (fun finaleval word =>
                         finaleval +:+ " " +:+ compiled_word word +:+ " ")
                      wordlist EmptyString.
Proof.
  induction wordlist as [|w ws IH]; intros acc; simpl.
  - now rewrite append_nil_r.
  - rewrite IH.
    rewrite (IH (EmptyString +:+ " "%string +:+ compiled_word w
                   +:+ " "%string)).
    now rewrite append_nil_l, !append_assoc.
Qed.

Lemma translate_words query :
  translate_query_string_for_search query
  = fold_left (fun finaleval word =>
                 finaleval +:+ " " +:+ compiled_word word +:+ " ")
              (split_ws query) EmptyString.
Proof. reflexivity. Qed.

Lemma translate_app a c b :
  is_space c = true ->
  translate_query_string_for_search (a +:+ String c b)
  = translate_query_string_for_search a +:+ translate_query_string_for_search b.
Proof.
  intros Hc. rewrite !translate_words, split_ws_app by assumption.
  rewrite fold_left_app. apply fold_left_compiled.
Qed.

(** The two loops of the filter compiler, from any point of the list on:
    [pre] is what is already placed, and the first word of the rest is in
    quotes when the word before it was an operator. *)
Lemma filter_inserts_placed ws : forall pre (quote : bool),
  filter_inserts (filter_positions (length pre) ws)
    (pre ++ match ws with
            | [] => []
            | w :: rest => (if quote then dq +:+ w +:+ dq else w) :: rest
            end)
  = if ends_with_operator ws then Raise IndexError
    else Return (pre ++ placed quote ws).
Proof.
  induction ws as [|w rest IH]; intros pre quote; [reflexivity|].
  set (w' := if quote then dq +:+ w +:+ dq else w).
  cbn [filter_positions placed]. fold w'.
  assert (Hlast : ends_with_operator (w :: rest)
                  = match rest with
                    | [] => bool_decide (w ∈ comp_op)
                    | _ => ends_with_operator rest
                    end).
  { unfold ends_with_operator. destruct rest as [|v rest']; [reflexivity|].
    now rewrite last_cons_cons. }
  rewrite Hlast.
  destruct (bool_decide (w ∈ comp_op)) eqn:Ew.
  - cbn [filter_inserts]. unfold list_insert_at.
    rewrite take_app_length, drop_app_length.
    replace (pre ++ (dq +:+ "{0}" +:+ dq) :: w' :: rest)
      with ((pre ++ [placeholder; w']) ++ rest)
      by (now rewrite <- app_assoc).
    replace (length pre + 2)%nat with (length (pre ++ [placeholder; w']))
      by (rewrite length_app; reflexivity).
    rewrite lookup_app_r by lia. rewrite Nat.sub_diag.
    destruct rest as [|v rest']; [reflexivity|].
    cbn [lookup list_lookup].
    rewrite insert_app_r_alt by lia. rewrite Nat.sub_diag.
    cbn [insert list_insert].
    replace (S (S (length pre))) with (length (pre ++ [placeholder; w']))
      by (rewrite length_app; simpl; lia).
    rewrite (IH (pre ++ [placeholder; w']) true).
    destruct (ends_with_operator (v :: rest')); [reflexivity|].
    now rewrite <- app_assoc.
  - replace (pre ++ w' :: rest) with ((pre ++ [w']) ++ rest)
      by (now rewrite <- app_assoc).
    replace (S (length pre)) with (length (pre ++ [w']))
      by (rewrite length_app; simpl; lia).
    destruct rest as [|v rest'].
    + cbn [filter_positions filter_inserts placed]. now rewrite <- app_assoc.
    + rewrite (IH (pre ++ [w']) false).
      destruct (ends_with_operator (v :: rest')); [reflexivity|].
      now rewrite <- app_assoc.
Qed.

Lemma translate_filter_placed query :
  translate_query_string_for_filter query
  = if ends_with_operator (split_ws query) then Raise IndexError
    else Return (lower (join " " (placed false (split_ws query)))).
Proof.
  unfold translate_query_string_for_filter.
  pose proof (filter_inserts_placed (split_ws query) [] false) as H.
  cbn [length app] in H.
  replace (match split_ws query with
           | [] => []
           | w :: rest => w :: rest
           end) with (split_ws query) in H by now destruct (split_ws query).
  rewrite H. now destruct (ends_with_operator (split_ws query)).
Qed.

End TranslateFacts.

Import PyStr ParseFacts GlobFacts CompileFacts TranslateFacts.

(** X22. Escaping a query keeps its stars and escapes the rest: the result is
    the query with a backslash before every character that has a meaning
    in a pattern, the stars left as they are. *)
Theorem escape_query_string_spec querystring :
  escape_query_string querystring = escape_but_stars querystring.
Proof.
  unfold escape_query_string.
  rewrite fold_left_escape, append_nil_l, escape_parts_all.
  apply slice_tail.
Qed.

(** X23. The search compiler works word by word: a blank query compiles to the
    empty text, an operator to itself between spaces, and two queries with
    white space between them to the compiled queries one after the other. *)
Theorem search_compiler_by_words :
  translate_query_string_for_search "" = ""
  /\ translate_query_string_for_search "  " = ""
  /\ (forall op, op ∈ operators ->
        translate_query_string_for_search op = " " +:+ op +:+ " ")
  /\ (forall a c b, is_space c = true ->
        translate_query_string_for_search (a +:+ String c b)
        = translate_query_string_for_search a
          +:+ translate_query_string_for_search b).
Proof.
  split; [reflexivity|]. split; [reflexivity|]. split.
  - intros op Hop. unfold operators in Hop.
    repeat (apply elem_of_cons in Hop as [->|Hop]; [reflexivity|]).
    now apply elem_of_nil in Hop.
  - apply translate_app.
Qed.

(** X24. The filter compiler in one pass: the call raises [IndexError] exactly
    when the last word of the query is a comparison operator; otherwise it
    returns the words joined by spaces in lower case, with the placeholder
    in quotes before each operator and the word after each operator in
    quotes. *)
Theorem filter_compiler_one_pass query :
  translate_query_string_for_filter query
  = if ends_with_operator (split_ws query) then Raise IndexError
    else Return (lower (join " " (placed false (split_ws query)))).
Proof. apply translate_filter_placed. Qed.

(** * Queries through the interpreter of the fragment *)

Module FragmentFacts.
Import PyStr ParseFacts GlobFacts CompileFacts TranslateFacts.

Lemma text_cons c s : text (String c s) = text_chr c && text s.
Proof. reflexivity. Qed.

Lemma text_chr_safe c : text_chr c = true -> safe_chr c = true.
Proof. by_chars c. Qed.

Lemma text_safe s : text s = true -> safe s = true.
Proof.
  induction s as [|c s IH]; [reflexivity|].
  rewrite text_cons, safe_cons. intros [Hc Hs]%andb_prop.
  now rewrite (text_chr_safe c Hc), IH.
Qed.

Lemma text_chr_lower c : text_chr c = true -> text_chr (lower_chr c) = true.
Proof. by_chars c. Qed.

Lemma word_chr_not_space c :
  text_chr c && negb (Ascii.eqb c " ") = true -> is_space c = false.
Proof. by_chars c. Qed.

Lemma text_word_text s : text_word s = true -> text s = true.
Proof.
  unfold text_word, text. intros [_ H]%andb_prop.
  induction s as [|c s IH]; [reflexivity|].
  simpl in *. apply andb_prop in H as [[Hc _]%andb_prop Hs].
  now rewrite Hc, IH.
Qed.

Lemma lower_text s : text s = true -> text (lower s) = true.
Proof.
  induction s as [|c s IH]; [reflexivity|].
  rewrite text_cons. intros [Hc Hs]%andb_prop.
  simpl lower. now rewrite text_cons, (text_chr_lower c Hc), IH.
Qed.

Lemma split_ws_aux_word s : forall cur,
  forallb (fun c => text_chr c && negb (Ascii.eqb c " "))
          (list_ascii_of_string s) = true ->
  (cur <> [] \/ s <> EmptyString) ->
  split_ws_aux cur s = [string_of_list_ascii (rev cur) +:+ s].
Proof.
  induction s as [|c s IH]; intros cur Hs Hne.
  - simpl. destruct cur; [destruct Hne; contradiction|].
    now rewrite append_nil_r.
  - simpl in Hs. apply andb_prop in Hs as [Hc Hs].
    simpl. rewrite (word_chr_not_space c Hc).
    rewrite IH by (assumption || (left; discriminate)).
    f_equal. simpl rev.
    assert (E : forall l (x : ascii) t,
              string_of_list_ascii (l ++ [x]) +:+ t
              = string_of_list_ascii l +:+ String x t).
    { induction l as [|y l IHl]; intros x t; [reflexivity|].
      simpl. now rewrite !append_cons, IHl. }
    apply E.
Qed.

(** A word is one word. *)
Lemma split_ws_word s : text_word s = true -> split_ws s = [s].
Proof.
  unfold text_word. intros [Hne Hs]%andb_prop.
  unfold split_ws. rewrite split_ws_aux_word; [reflexivity|exact Hs|].
  right. intros ->. discriminate.
Qed.

Lemma lower_app s t : lower (s +:+ t) = lower s +:+ lower t.
Proof.
  induction s as [|c s IH]; [reflexivity|].
  rewrite append_cons. simpl. now rewrite append_cons, IH.
Qed.

Lemma operator_of_Some op o :
  operator_of op = Some o ->
  (op, o) ∈ [("<=", PyEval.Le); (">=", PyEval.Ge); ("==", PyEval.Eq);
             ("!=", PyEval.Ne); ("<", PyEval.Lt); (">", PyEval.Gt)].
Proof.
  unfold operator_of.
  repeat match goal with
         | |- (if String.eqb op ?x then _ else _) = _ -> _ =>
             destruct (String.eqb op x) eqn:E;
             [apply String.eqb_eq in E as ->; intros [= <-]; set_solver
             |clear E]
         end.
  discriminate.
Qed.

Ltac each_operator H :=
  apply operator_of_Some in H;
  repeat (apply elem_of_cons in H as [[= -> ->]|H]);
  [| | | | | |now apply elem_of_nil in H].

Lemma length_append s t :
  String.length (s +:+ t) = (String.length s + String.length t)%nat.
Proof.
  induction s as [|c s IH]; [reflexivity|].
  rewrite append_cons. simpl. now rewrite IH.
Qed.

Lemma bind_assoc {A B C} (m : result A) (f : A -> result B) (g : B -> result C) :
  (m ≫= f) ≫= g = m ≫= (fun a => f a ≫= g).
Proof. now destruct m. Qed.

(** ** Filling the placeholders *)

Lemma format_aux_comparison auto op o lw v t :
  auto <> Some true ->
  operator_of op = Some o -> safe lw = true ->
  PyFormat.format_aux auto v (comparison_text "{0}" op lw +:+ t)
  = (r ← PyFormat.format_aux (Some false) v t;
     Return (comparison_text v op lw +:+ r)).
Proof.
  intros Ha Ho Hl. unfold comparison_text, dq.
  assert (E0 : forall t',
            PyFormat.format_aux auto v (String "{" (String "0" (String "}" t')))
            = (r ← PyFormat.format_aux (Some false) v t'; Return (v +:+ r))).
  { intros t'. destruct auto as [[]|]; [contradiction|reflexivity|reflexivity]. }
  each_operator Ho; norm_str;
    rewrite format_aux_chr by reflexivity;
    rewrite E0;
    repeat (rewrite format_aux_chr by reflexivity);
    rewrite format_aux_safe by assumption;
    rewrite format_aux_chr by reflexivity;
    destruct (PyFormat.format_aux (Some false) v t); simpl; norm_str;
    reflexivity.
Qed.

Lemma format_aux_call auto pat v t :
  auto <> Some true -> safe pat = true ->
  PyFormat.format_aux auto v (call_text pat "{0}" +:+ t)
  = (r ← PyFormat.format_aux (Some false) v t;
     Return (call_text pat v +:+ r)).
Proof.
  intros Ha Hp. unfold call_text, dq.
  assert (E0 : forall a' t',
            a' <> Some true ->
            PyFormat.format_aux a' v (String "{" (String "0" (String "}" t')))
            = (r ← PyFormat.format_aux (Some false) v t'; Return (v +:+ r))).
  { intros a' t' H'. destruct a' as [[]|]; [contradiction|reflexivity|reflexivity]. }
  norm_str.
  do 11 (rewrite format_aux_chr by reflexivity).
  rewrite format_aux_safe by assumption.
  do 3 (rewrite format_aux_chr by reflexivity).
  rewrite E0 by assumption.
  do 2 (rewrite format_aux_chr by reflexivity).
  destruct (PyFormat.format_aux (Some false) v t); simpl; norm_str; reflexivity.
Qed.

Lemma format_aux_text auto v s :
  forallb no_brace (list_ascii_of_string s) = true ->
  forall t, PyFormat.format_aux auto v (s +:+ t)
       = (r ← PyFormat.format_aux auto v t; Return (s +:+ r)).
Proof.
  induction s as [|c s IH]; intros Hs t.
  - rewrite append_nil_l. now destruct (PyFormat.format_aux auto v t).
  - simpl in Hs. apply andb_prop in Hs as [Hc Hs].
    rewrite append_cons, format_aux_chr, IH by assumption.
    now destruct (PyFormat.format_aux auto v t).
Qed.

(** ** Reading the tokens *)

Lemma tokenize_space fuel rest :
  PyEval.tokenize (S fuel) (String " " rest) = PyEval.tokenize fuel rest.
Proof. reflexivity. Qed.

Lemma tokenize_operator op o fuel rest :
  operator_of op = Some o ->
  PyEval.tokenize (S fuel) (op +:+ String " " rest)
  = (ts ← PyEval.tokenize fuel (String " " rest); Return (PyEval.TOp o :: ts)).
Proof. intros Ho. each_operator Ho; reflexivity. Qed.

Lemma tokenize_keyword k fuel rest :
  k ∈ operators ->
  PyEval.tokenize (S fuel) (k +:+ String " " rest)
  = (ts ← PyEval.tokenize fuel (String " " rest); Return (PyEval.TName k :: ts)).
Proof.
  intros Hk. unfold operators in Hk.
  repeat (apply elem_of_cons in Hk as [->|Hk]; [reflexivity|]).
  now apply elem_of_nil in Hk.
Qed.

Lemma connective_operator c : c ∈ ["and"; "or"] -> c ∈ operators.
Proof.
  unfold operators. rewrite !elem_of_cons. tauto.
Qed.

Lemma tokenize_rparen fuel rest :
  PyEval.tokenize (S fuel) (String ")" rest)
  = (ts ← PyEval.tokenize fuel rest; Return (PyEval.TRParen :: ts)).
Proof. reflexivity. Qed.

Lemma tokenize_comparison op o v lw fuel t :
  operator_of op = Some o -> safe v = true -> safe lw = true ->
  PyEval.tokenize (S (S (S (S (S fuel))))) (comparison_text v op lw +:+ t)
  = (ts ← PyEval.tokenize fuel t;
     Return (PyEval.TStr v :: PyEval.TOp o :: PyEval.TStr lw :: ts)).
Proof.
  intros Ho Hv Hl.
  replace (comparison_text v op lw +:+ t)
    with (String dquote (v +:+ String dquote (String " " (op +:+ String " "
            (String dquote (lw +:+ String dquote t))))))
    by (unfold comparison_text, dq; norm_str; reflexivity).
  rewrite tokenize_literal by assumption.
  rewrite tokenize_space, (tokenize_operator op o) by assumption.
  rewrite tokenize_space, tokenize_literal by assumption.
  destruct (PyEval.tokenize fuel t); reflexivity.
Qed.

Lemma tokenize_call_then pat v fuel t :
  safe pat = true -> safe v = true ->
  PyEval.tokenize (S (S (S (S (S (S fuel)))))) (call_text pat v +:+ t)
  = (ts ← PyEval.tokenize fuel t;
     Return (PyEval.TName "re.search" :: PyEval.TLParen :: PyEval.TStr pat
             :: PyEval.TComma :: PyEval.TStr v :: PyEval.TRParen :: ts)).
Proof.
  intros Hp Hv.
  replace (call_text pat v +:+ t)
    with ("re.search" +:+ String "("
            (String dquote (pat +:+ String dquote
               (String "," (String dquote
                  (v +:+ String dquote (String ")" t)))))))
    by (unfold call_text, dq; now norm_str).
  rewrite tokenize_search, tokenize_lparen.
  rewrite tokenize_literal by assumption.
  rewrite tokenize_comma.
  rewrite tokenize_literal by assumption.
  rewrite tokenize_rparen.
  destruct (PyEval.tokenize fuel t); reflexivity.
Qed.

Lemma tokenize_end fuel : PyEval.tokenize (S fuel) EmptyString = Return [].
Proof. reflexivity. Qed.

Lemma strip_quoted s :
  strip (String dquote s +:+ String dquote EmptyString)
  = String dquote s +:+ String dquote EmptyString.
Proof.
  unfold strip. rewrite rstrip_keep by reflexivity. reflexivity.
Qed.

Lemma strip_padded a s c :
  is_space a = false -> is_space c = false ->
  strip (String " " (String a (s +:+ String c " ")))
  = String a (s +:+ String c EmptyString).
Proof.
  intros Ha Hc. unfold strip.
  replace (String " " (String a (s +:+ String c " ")))
    with (String " " (String a s) +:+ String c " ") by now norm_str.
  rewrite rstrip_keep by assumption.
  change (rstrip " ") with EmptyString.
  norm_str. cbn [lstrip]. change (is_space " ") with true. cbv iota.
  now rewrite Ha.
Qed.

(** One comparison. *)
Lemma translate_comparison op o w :
  operator_of op = Some o -> text_word w = true -> w ∉ comp_op ->
  translate_query_string_for_filter (op +:+ " " +:+ w)
  = Return (comparison_text "{0}" op (lower w)).
Proof.
  intros Ho Hw Hn. rewrite translate_filter_placed.
  replace (op +:+ " " +:+ w) with (op +:+ String " " w)
    by (now rewrite append_cons, append_nil_l).
  rewrite split_ws_app by reflexivity.
  rewrite (split_ws_word w) by assumption.
  assert (Hop : split_ws op = [op] /\ bool_decide (op ∈ comp_op) = true
                /\ lower op = op).
  { each_operator Ho; repeat split; reflexivity. }
  destruct Hop as (-> & Hin & Hl).
  cbn [app]. unfold ends_with_operator. cbn [last].
  rewrite bool_decide_eq_false_2 by assumption.
  cbn [placed]. rewrite Hin. rewrite bool_decide_eq_false_2 by assumption.
  unfold join, comparison_text, placeholder. cbn [String.concat].
  rewrite !lower_app, Hl. reflexivity.
Qed.

Lemma evaluate_comparison op o lw v :
  operator_of op = Some o -> safe lw = true -> safe v = true ->
  evaluate_query_string (H := fragment) (comparison_text "{0}" op lw) v
  = PyEval.str_cmp o v lw.
Proof.
  intros Ho Hl Hv. unfold evaluate_query_string.
  cbn [str_format py_eval fragment]. unfold PyFormat.format.
  rewrite <- (append_nil_r (comparison_text "{0}" op lw)).
  rewrite (format_aux_comparison None op o) by (assumption || discriminate).
  cbn [PyFormat.format_aux]. simpl mbind. rewrite append_nil_r.
  unfold PyEval.eval.
  set (fuel := String.length (comparison_text v op lw)).
  assert (Hf : (6 <= fuel)%nat).
  { subst fuel. unfold comparison_text, dq. rewrite !length_append.
    cbn [String.length]. lia. }
  replace (comparison_text v op lw)
    with (String dquote (v +:+ dq +:+ " " +:+ op +:+ " " +:+ dq +:+ lw)
          +:+ String dquote EmptyString)
    by (unfold comparison_text, dq; norm_str; reflexivity).
  rewrite strip_quoted.
  replace (String dquote (v +:+ dq +:+ " " +:+ op +:+ " " +:+ dq +:+ lw)
           +:+ String dquote EmptyString)
    with (comparison_text v op lw +:+ EmptyString)
    by (unfold comparison_text, dq; norm_str; now rewrite ?append_nil_r).
  do 6 (destruct fuel as [|fuel]; [lia|]). clear Hf.
  rewrite (tokenize_comparison op o) by assumption.
  rewrite tokenize_end. simpl. reflexivity.
Qed.

Lemma translate_two_comparisons op1 o1 w1 c op2 o2 w2 :
  operator_of op1 = Some o1 -> text_word w1 = true -> w1 ∉ comp_op ->
  c ∈ ["and"; "or"] ->
  operator_of op2 = Some o2 -> text_word w2 = true -> w2 ∉ comp_op ->
  translate_query_string_for_filter
    (op1 +:+ " " +:+ w1 +:+ " " +:+ c +:+ " " +:+ op2 +:+ " " +:+ w2)
  = Return (comparison_text "{0}" op1 (lower w1) +:+ " " +:+ c +:+ " "
            +:+ comparison_text "{0}" op2 (lower w2)).
Proof.
  intros Ho1 Hw1 Hn1 Hc Ho2 Hw2 Hn2. rewrite translate_filter_placed.
  replace (op1 +:+ " " +:+ w1 +:+ " " +:+ c +:+ " " +:+ op2 +:+ " " +:+ w2)
    with (op1 +:+ String " " (w1 +:+ String " " (c +:+ String " "
            (op2 +:+ String " " w2))))
    by (now rewrite !append_cons, !append_nil_l).
  rewrite !split_ws_app by reflexivity.
  rewrite (split_ws_word w1), (split_ws_word w2) by assumption.
  assert (Hop1 : split_ws op1 = [op1] /\ bool_decide (op1 ∈ comp_op) = true
                 /\ lower op1 = op1).
  { each_operator Ho1; repeat split; reflexivity. }
  assert (Hop2 : split_ws op2 = [op2] /\ bool_decide (op2 ∈ comp_op) = true
                 /\ lower op2 = op2).
  { each_operator Ho2; repeat split; reflexivity. }
  assert (Hcc : split_ws c = [c] /\ bool_decide (c ∈ comp_op) = false
                /\ lower c = c).
  { repeat (apply elem_of_cons in Hc as [->|Hc]; [repeat split; reflexivity|]).
    now apply elem_of_nil in Hc. }
  destruct Hop1 as (-> & Hin1 & Hl1). destruct Hop2 as (-> & Hin2 & Hl2).
  destruct Hcc as (-> & Hinc & Hlc).
  cbn [app]. unfold ends_with_operator. cbn [last].
  rewrite (bool_decide_eq_false_2 (w2 ∈ comp_op)) by assumption.
  cbn [placed]. rewrite Hin1, Hin2, Hinc.
  rewrite !bool_decide_eq_false_2 by assumption.
  unfold join, comparison_text, placeholder. cbn [String.concat].
  rewrite !lower_app, Hl1, Hl2, Hlc. f_equal.
  now rewrite !append_assoc.
Qed.

Lemma evaluate_two_comparisons op1 o1 lw1 c op2 o2 lw2 v :
  operator_of op1 = Some o1 -> safe lw1 = true ->
  c ∈ ["and"; "or"] ->
  operator_of op2 = Some o2 -> safe lw2 = true -> safe v = true ->
  evaluate_query_string (H := fragment)
    (comparison_text "{0}" op1 lw1 +:+ " " +:+ c +:+ " "
     +:+ comparison_text "{0}" op2 lw2) v
  = joined c (PyEval.str_cmp o1 v lw1) (PyEval.str_cmp o2 v lw2).
Proof.
  intros Ho1 Hl1 Hc Ho2 Hl2 Hv. unfold evaluate_query_string.
  cbn [str_format py_eval fragment]. unfold PyFormat.format.
  rewrite (format_aux_comparison None op1 o1) by (assumption || discriminate).
  replace (" " +:+ c +:+ " " +:+ comparison_text "{0}" op2 lw2)
    with ((" " +:+ c +:+ " ") +:+ comparison_text "{0}" op2 lw2 +:+ EmptyString)
    by (now rewrite !append_assoc, append_nil_r).
  rewrite (format_aux_text (Some false) v (" " +:+ c +:+ " ")).
  2:{ repeat (apply elem_of_cons in Hc as [->|Hc]; [reflexivity|]).
      now apply elem_of_nil in Hc. }
  rewrite (format_aux_comparison (Some false) op2 o2)
    by (assumption || discriminate).
  cbn [PyFormat.format_aux]. simpl mbind. rewrite append_nil_r.
  unfold PyEval.eval.
  set (src := comparison_text v op1 lw1 +:+ (" " +:+ c +:+ " ")
              +:+ comparison_text v op2 lw2).
  set (fuel := String.length src).
  assert (Hf : (14 <= fuel)%nat).
  { subst fuel src. unfold comparison_text, dq. rewrite !length_append.
    cbn [String.length]. lia. }
  assert (Hs : strip src = comparison_text v op1 lw1
                 +:+ String " " (c +:+ String " "
                       (comparison_text v op2 lw2 +:+ EmptyString))).
  { subst src.
    replace (comparison_text v op1 lw1 +:+ (" " +:+ c +:+ " ")
             +:+ comparison_text v op2 lw2)
      with (String dquote (v +:+ dq +:+ " " +:+ op1 +:+ " " +:+ dq +:+ lw1
                           +:+ dq +:+ " " +:+ c +:+ " " +:+ dq +:+ v +:+ dq
                           +:+ " " +:+ op2 +:+ " " +:+ dq +:+ lw2)
            +:+ String dquote EmptyString)
      by (unfold comparison_text, dq; norm_str; reflexivity).
    rewrite strip_quoted. unfold comparison_text, dq. norm_str.
    now rewrite ?append_nil_r. }
  rewrite Hs. clear Hs. subst src.
  do 14 (destruct fuel as [|fuel]; [lia|]). clear Hf.
  rewrite (tokenize_comparison op1 o1) by assumption.
  rewrite tokenize_space.
  rewrite (tokenize_keyword c)
    by (now apply connective_operator).
  rewrite tokenize_space.
  rewrite (tokenize_comparison op2 o2) by assumption.
  rewrite tokenize_end.
  repeat (apply elem_of_cons in Hc as [->|Hc];
          [simpl; unfold joined; simpl;
           destruct (PyEval.str_cmp o1 v lw1); reflexivity|]).
  now apply elem_of_nil in Hc.
Qed.

(** The connectives of the search language. *)
Lemma evaluate_search_pair w1 c w2 v :
  plain_term w1 = true -> c ∈ ["and"; "or"] -> plain_term w2 = true ->
  plain v = true ->
  evaluate_query_string (H := fragment)
    ((" " +:+ call_text (pattern_of w1) "{0}" +:+ " ")
     +:+ (" " +:+ c +:+ " ")
     +:+ (" " +:+ call_text (pattern_of w2) "{0}" +:+ " ")) v
  = joined c (glob_match w1 v) (glob_match w2 v).
Proof.
  intros H1 Hc H2 Hv.
  pose proof (pattern_of_safe w1 H1) as Hp1.
  pose proof (pattern_of_safe w2 H2) as Hp2.
  pose proof (plain_safe v Hv) as Hsv.
  unfold evaluate_query_string.
  cbn [str_format py_eval fragment]. unfold PyFormat.format.
  replace ((" " +:+ call_text (pattern_of w1) "{0}" +:+ " ")
           +:+ (" " +:+ c +:+ " ")
           +:+ (" " +:+ call_text (pattern_of w2) "{0}" +:+ " "))
    with (String " " (call_text (pattern_of w1) "{0}"
          +:+ (("  " +:+ c +:+ "  ")
               +:+ call_text (pattern_of w2) "{0}" +:+ " "))).
  2:{ norm_str. reflexivity. }
  rewrite format_aux_chr by reflexivity.
  rewrite format_aux_call by (assumption || discriminate).
  rewrite (format_aux_text (Some false) v ("  " +:+ c +:+ "  ")).
  2:{ repeat (apply elem_of_cons in Hc as [->|Hc]; [reflexivity|]).
      now apply elem_of_nil in Hc. }
  rewrite format_aux_call by (assumption || discriminate).
  cbn [PyFormat.format_aux]. simpl mbind.
  unfold PyEval.eval.
  set (src := String " " (call_text (pattern_of w1) v
                +:+ ("  " +:+ c +:+ "  ") +:+ call_text (pattern_of w2) v
                +:+ " ")).
  set (fuel := String.length src).
  assert (Hf : (18 <= fuel)%nat).
  { subst fuel src. unfold call_text, dq. cbn [String.length].
    rewrite !length_append. cbn [String.length]. lia. }
  assert (Hs : strip src = call_text (pattern_of w1) v
                 +:+ String " " (String " " (c +:+ String " " (String " "
                       (call_text (pattern_of w2) v +:+ EmptyString))))).
  { subst src.
    replace (String " " (call_text (pattern_of w1) v
                +:+ ("  " +:+ c +:+ "  ") +:+ call_text (pattern_of w2) v
                +:+ " "))
      with (String " " (String "r"
              (("e.search(" +:+ dq +:+ pattern_of w1 +:+ dq +:+ "," +:+ dq
                +:+ v +:+ dq +:+ ")" +:+ "  " +:+ c +:+ "  "
                +:+ "re.search(" +:+ dq +:+ pattern_of w2 +:+ dq +:+ ","
                +:+ dq +:+ v +:+ dq) +:+ String ")" " ")))
      by (unfold call_text; norm_str; reflexivity).
    rewrite strip_padded by reflexivity.
    unfold call_text. norm_str. now rewrite ?append_nil_r. }
  rewrite Hs. clear Hs. subst src.
  do 18 (destruct fuel as [|fuel]; [lia|]). clear Hf.
  rewrite tokenize_call_then by assumption.
  rewrite !tokenize_space.
  rewrite (tokenize_keyword c) by (now apply connective_operator).
  rewrite !tokenize_space.
  rewrite tokenize_call_then by assumption.
  rewrite tokenize_end.
  repeat (apply elem_of_cons in Hc as [->|Hc];
          [simpl; rewrite !search_pattern_of by assumption;
           unfold joined; simpl;
           destruct (glob_match w1 v), (glob_match w2 v); reflexivity|]).
  now apply elem_of_nil in Hc.
Qed.

Lemma evaluate_search_not w v :
  plain_term w = true -> plain v = true ->
  evaluate_query_string (H := fragment)
    (" not " +:+ (" " +:+ call_text (pattern_of w) "{0}" +:+ " ")) v
  = negb (glob_match w v).
Proof.
  intros H1 Hv.
  pose proof (pattern_of_safe w H1) as Hp1.
  pose proof (plain_safe v Hv) as Hsv.
  unfold evaluate_query_string.
  cbn [str_format py_eval fragment]. unfold PyFormat.format.
  replace (" not " +:+ (" " +:+ call_text (pattern_of w) "{0}" +:+ " "))
    with (" not  " +:+ call_text (pattern_of w) "{0}" +:+ " ")
    by (norm_str; reflexivity).
  rewrite (format_aux_text None v " not  ") by reflexivity.
  rewrite format_aux_call by (assumption || discriminate).
  cbn [PyFormat.format_aux]. simpl mbind.
  unfold PyEval.eval.
  set (src := " not  " +:+ call_text (pattern_of w) v +:+ " ").
  set (fuel := String.length src).
  assert (Hf : (10 <= fuel)%nat).
  { subst fuel src. unfold call_text, dq.
    rewrite !length_append. cbn [String.length]. lia. }
  assert (Hs : strip src = "not" +:+ String " " (String " "
                 (call_text (pattern_of w) v +:+ EmptyString))).
  { subst src.
    replace (" not  " +:+ call_text (pattern_of w) v +:+ " ")
      with (String " " (String "n"
              (("ot  re.search(" +:+ dq +:+ pattern_of w +:+ dq +:+ ","
                +:+ dq +:+ v +:+ dq) +:+ String ")" " ")))
      by (unfold call_text; norm_str; reflexivity).
    rewrite strip_padded by reflexivity.
    unfold call_text. norm_str. now rewrite ?append_nil_r. }
  rewrite Hs. clear Hs. subst src.
  do 10 (destruct fuel as [|fuel]; [lia|]). clear Hf.
  rewrite (tokenize_keyword "not")
    by (unfold operators; rewrite !elem_of_cons; tauto).
  rewrite !tokenize_space.
  rewrite tokenize_call_then by assumption.
  rewrite tokenize_end.
  simpl. rewrite search_pattern_of by assumption. simpl.
  now destruct (glob_match w v).
Qed.

End FragmentFacts.

Import PyStr ParseFacts GlobFacts CompileFacts TranslateFacts FragmentFacts.

(** X25. A comparison of the filter language: a query made of an operator and an
    operand holds of a value exactly when the value compares so, as a
    string, with the operand in lower case.  The value is compared as
    it is given. *)
Theorem filter_comparison op o w v :
  operator_of op = Some o -> text_word w = true -> w ∉ comp_op ->
  text v = true ->
  exists requery,
    translate_query_string_for_filter (op +:+ " " +:+ w) = Return requery
    /\ evaluate_query_string (H := fragment) requery v
       = PyEval.str_cmp o v (lower w).
Proof.
  intros Ho Hw Hn Hv. eexists. split.
  - now apply (translate_comparison op o).
  - apply evaluate_comparison; [assumption| |now apply text_safe].
    now apply text_safe, lower_text, text_word_text.
Qed.

Lemma filter_comparison_witness :
  exists requery,
    translate_query_string_for_filter "== P1Y" = Return requery
    /\ evaluate_query_string (H := fragment) requery "p1y" = true
    /\ evaluate_query_string (H := fragment) requery "p1y1m" = false.
Proof.
  destruct (filter_comparison "==" PyEval.Eq "P1Y" "p1y")
    as (requery & E & H); try reflexivity.
  - vm_compute. intros H. inversion H; subst.
    repeat match goal with
           | H : _ ∈ _ |- _ => inversion H; clear H; subst
           end.
  - exists requery. split; [exact E|]. split; [exact H|].
    vm_compute in E. injection E as <-. vm_compute. reflexivity.
Defined.

(** X26. Two comparisons joined by [and] or by [or] hold of a value exactly when
    both, or one of them, hold of it: a range of dates is the conjunction
    of its two bounds. *)
Theorem filter_connectives op1 o1 w1 c op2 o2 w2 v :
  operator_of op1 = Some o1 -> text_word w1 = true -> w1 ∉ comp_op ->
  c ∈ ["and"; "or"] ->
  operator_of op2 = Some o2 -> text_word w2 = true -> w2 ∉ comp_op ->
  text v = true ->
  exists requery,
    translate_query_string_for_filter
      (op1 +:+ " " +:+ w1 +:+ " " +:+ c +:+ " " +:+ op2 +:+ " " +:+ w2)
    = Return requery
    /\ evaluate_query_string (H := fragment) requery v
       = joined c (PyEval.str_cmp o1 v (lower w1))
                  (PyEval.str_cmp o2 v (lower w2)).
Proof.
  intros Ho1 Hw1 Hn1 Hc Ho2 Hw2 Hn2 Hv. eexists. split.
  - now apply (translate_two_comparisons op1 o1 w1 c op2 o2 w2).
  - apply evaluate_two_comparisons; try assumption;
      now apply text_safe; try apply lower_text, text_word_text.
Qed.

Lemma filter_connectives_witness :
  exists requery,
    translate_query_string_for_filter ">= 2019 and < 2021" = Return requery
    /\ evaluate_query_string (H := fragment) requery "2020-03" = true.
Proof.
  destruct (filter_connectives ">=" PyEval.Ge "2019" "and" "<" PyEval.Lt
              "2021" "2020-03") as (requery & E & H); try reflexivity.
  - vm_compute. intros H. inversion H; subst.
    repeat match goal with
           | H : _ ∈ _ |- _ => inversion H; clear H; subst
           end.
  - apply list_elem_of_here.
  - vm_compute. intros H. inversion H; subst.
    repeat match goal with
           | H : _ ∈ _ |- _ => inversion H; clear H; subst
           end.
  - exists requery. split; [exact E|]. rewrite H. reflexivity.
Defined.

(** X27. The connectives of the search language: for terms of letters, digits
    and stars, a query of two terms joined by [and] or by [or] holds of a
    value exactly when both, or one of them, match it, and [not] before a
    term holds exactly when the term does not match. *)
Theorem search_connectives w1 w2 v :
  search_term w1 = true -> w1 ∉ operators ->
  search_term w2 = true -> w2 ∉ operators -> plain v = true ->
  evaluate_query_string (H := fragment)
    (translate_query_string_for_search (w1 +:+ " and " +:+ w2)) v
  = glob_match (lower w1) v && glob_match (lower w2) v
  /\ evaluate_query_string (H := fragment)
       (translate_query_string_for_search (w1 +:+ " or " +:+ w2)) v
     = glob_match (lower w1) v || glob_match (lower w2) v
  /\ evaluate_query_string (H := fragment)
       (translate_query_string_for_search ("not " +:+ w1)) v
     = negb (glob_match (lower w1) v).
Proof.
  intros H1 Hn1 H2 Hn2 Hv.
  assert (Hp1 : plain_term (lower w1) = true).
  { apply lower_plain_term. unfold search_term in H1.
    now apply andb_prop in H1 as [_ ?]. }
  assert (Hp2 : plain_term (lower w2) = true).
  { apply lower_plain_term. unfold search_term in H2.
    now apply andb_prop in H2 as [_ ?]. }
  assert (Hpair : forall c, c ∈ ["and"; "or"] ->
            translate_query_string_for_search
              (w1 +:+ String " " (c +:+ String " " w2))
            = (" " +:+ call_text (pattern_of (lower w1)) "{0}" +:+ " ")
              +:+ (" " +:+ c +:+ " ")
              +:+ (" " +:+ call_text (pattern_of (lower w2)) "{0}" +:+ " ")).
  { intros c Hc. rewrite !translate_app by reflexivity.
    rewrite (translate_term w1), (translate_term w2) by assumption.
    assert (Ec : translate_query_string_for_search c = " " +:+ c +:+ " ").
    { repeat (apply elem_of_cons in Hc as [->|Hc]; [reflexivity|]).
      now apply elem_of_nil in Hc. }
    now rewrite Ec. }
  split; [|split].
  - replace (w1 +:+ " and " +:+ w2)
      with (w1 +:+ String " " ("and" +:+ String " " w2))
      by (norm_str; reflexivity).
    rewrite Hpair by (apply list_elem_of_here).
    now rewrite evaluate_search_pair
      by (assumption || apply list_elem_of_here).
  - replace (w1 +:+ " or " +:+ w2)
      with (w1 +:+ String " " ("or" +:+ String " " w2))
      by (norm_str; reflexivity).
    rewrite Hpair by (apply elem_of_cons; right; apply list_elem_of_here).
    now rewrite evaluate_search_pair
      by (assumption || (apply elem_of_cons; right; apply list_elem_of_here)).
  - replace ("not " +:+ w1) with ("not" +:+ String " " w1)
      by (norm_str; reflexivity).
    rewrite translate_app by reflexivity.
    rewrite (translate_term w1) by assumption.
    change (translate_query_string_for_search "not") with " not ".
    now apply evaluate_search_not.
Qed.

Lemma search_connectives_witness :
  evaluate_query_string (H := fragment)
    (translate_query_string_for_search "a* and *c") "abc" = true
  /\ evaluate_query_string (H := fragment)
       (translate_query_string_for_search "a* or *c") "xbc" = true
  /\ evaluate_query_string (H := fragment)
       (translate_query_string_for_search "not a*") "abc" = false.
Proof.
  destruct (search_connectives "a*" "*c" "abc") as (H1 & _ & H3);
    try reflexivity.
  1, 2: vm_compute; intros H; inversion H; subst;
    repeat match goal with
           | H : _ ∈ _ |- _ => inversion H; clear H; subst
           end.
  split; [exact H1|]. split; [|exact H3].
  vm_compute. reflexivity.
Defined.

(** * Queries and analytics put together *)

Module ComposeFacts.
Import GraphFacts IngestFacts RowFacts ImpactFacts NetworkFacts AnalyticsFacts
  EvalFacts ViewFacts.

Lemma filterR_Return {A} (cond : A -> result bool) (l L : list A) :
  filterR cond l = Return L ->
  forall x, x ∈ L <-> x ∈ l /\ cond x = Return true.
Proof.
  revert L. induction l as [|y l IH]; intros L H; simpl in H.
  - injection H as <-. intros x. rewrite elem_of_nil. tauto.
  - inv_bind H. rename a into b. inv_bind H. rename a into rest.
    injection H as <-. intros x. specialize (IH rest Ha0 x).
    destruct b.
    + rewrite !elem_of_cons, IH. split.
      * intros [->|[? ?]]; auto.
      * intros [[->|?] ?]; auto.
    + rewrite IH, elem_of_cons. split; [tauto|].
      intros [[->|?] Hx]; [congruence|auto].
Qed.

Section WithInterpreter.
Context `{Interpreter}.

(** The edges [get_filtered_list] returns, when it returns. *)
Lemma get_filtered_list_selects g requery field L :
  get_filtered_list g requery field = Return L ->
  forall e, e ∈ L <-> e ∈ Nx.edges g /\ selects g requery field e.
Proof.
  unfold get_filtered_list, selects, field_value.
  destruct (String.eqb field "citing") eqn:E1.
  { simpl. intros [= <-] e.
    rewrite list_elem_of_filter, Is_true_true, evaluate_true. split.
    - intros [Hh He]. eauto.
    - intros [He (value & [= <-] & Hh)]. auto. }
  destruct (String.eqb field "cited") eqn:E2.
  { simpl. intros [= <-] e.
    rewrite list_elem_of_filter, Is_true_true, evaluate_true. split.
    - intros [Hh He]. eauto.
    - intros [He (value & [= <-] & Hh)]. auto. }
  simpl. destruct (String.eqb field "creation") eqn:E3.
  { intros HL e. rewrite (filterR_Return _ _ _ HL e). split.
    - intros [He Hc]. split; [exact He|].
      destruct (Nx.node_attr g e.1 "creation") as [c|]; [|discriminate].
      simpl in Hc. injection Hc as Hc. apply evaluate_true in Hc. eauto.
    - intros [He (value & -> & Hh)]. split; [exact He|].
      simpl. f_equal. now apply evaluate_true. }
  destruct (String.eqb field "timespan") eqn:E4.
  2:{ intros [= <-] e. rewrite elem_of_nil. split; [tauto|].
      intros [_ (value & Hv & _)]. discriminate. }
  intros HL. destruct (filterR _ _) as [L'|] eqn:EL; [|discriminate].
  simpl in HL. injection HL as <-. intros e.
  rewrite list_elem_of_fmap. split.
  - intros ([e' a] & -> & Hin).
    apply (filterR_Return _ _ _ EL) in Hin as [Hin Hc]. simpl in *.
    apply elem_of_map_to_list in Hin.
    split; [apply elem_of_edges_data; eauto|]. rewrite Hin.
    destruct (Nx.getitem a "timespan") as [t|]; [|discriminate].
    simpl in Hc. injection Hc as Hc. apply evaluate_true in Hc.
    exists (PyStr.lower t). auto.
  - intros [He (value & Hval & Hh)].
    apply elem_of_edges_data in He as [a Ha]. rewrite Ha in Hval.
    exists (e, a). split; [reflexivity|].
    apply (filterR_Return _ _ _ EL). split.
    + now apply elem_of_map_to_list.
    + simpl. destruct (Nx.getitem a "timespan") as [t|]; [|discriminate].
      simpl in *. injection Hval as <-. f_equal. now apply evaluate_true.
Qed.

(** The value of a field of an edge a view shows is its value in the graph
    viewed. *)
Lemma field_value_view L g field e :
  e ∈ L ->
  field_value (View.restrict (endpoints L) (list_to_set L) g) field e
  = field_value g field e.
Proof.
  intros He. unfold field_value.
  destruct (String.eqb field "citing"); [reflexivity|].
  destruct (String.eqb field "cited"); [reflexivity|].
  destruct (String.eqb field "creation").
  { unfold Nx.node_attr. rewrite restrict_node.
    rewrite bool_decide_eq_true_2; [reflexivity|].
    apply elem_of_endpoints. exists e. auto. }
  destruct (String.eqb field "timespan"); [|reflexivity].
  rewrite restrict_adj. now rewrite bool_decide_eq_true_2.
Qed.

Lemma edges_view L g e :
  (forall x, x ∈ L -> x ∈ Nx.edges g) ->
  e ∈ Nx.edges (View.restrict (endpoints L) (list_to_set L) g) <-> e ∈ L.
Proof.
  intros HL. rewrite elem_of_edges_data, restrict_adj.
  destruct (bool_decide (e ∈ L)) eqn:E.
  - apply bool_decide_eq_true_1 in E. split; [auto|]. intros _.
    now apply elem_of_edges_data, HL.
  - apply bool_decide_eq_false_1 in E. split; [|tauto].
    intros [? ?]. discriminate.
Qed.


End WithInterpreter.

Lemma foldr_add_permutation {A} (f : A -> nat) l l' :
  l ≡ₚ l' ->
  fold_right (fun x acc => (f x + acc)%nat) 0%nat l
  = fold_right (fun x acc => (f x + acc)%nat) 0%nat l'.
Proof.
  induction 1 as [|x l l' _ IH|x y l|l l' l'' _ IH1 _ IH2]; simpl.
  - reflexivity.
  - now rewrite IH.
  - lia.
  - congruence.
Qed.

Lemma count_if_permutation {A} (p : A -> bool) l l' :
  l ≡ₚ l' -> count_if p l = count_if p l'.
Proof.
  induction 1 as [|x l l' _ IH|x y l|l l' l'' _ IH1 _ IH2].
  - reflexivity.
  - now rewrite !count_if_cons, IH.
  - rewrite !count_if_cons. lia.
  - congruence.
Qed.

End ComposeFacts.

Import GraphFacts IngestFacts RowFacts ImpactFacts NetworkFacts AnalyticsFacts
  EvalFacts ViewFacts ComposeFacts.

(** X28. Searching within the result of a search: the view returned shows
    exactly the edges of the source graph that both queries select, each on
    its own field; the order of the two searches does not matter for the
    edges shown. *)
Theorem search_within_search `{Interpreter} h data g query1 field1 query2
    field2 r1 r2 :
  View.read h data = Some g ->
  do_search h data query1 field1 = Return r1 ->
  do_search h r1 query2 field2 = Return r2 ->
  exists v,
    View.read h r2 = Some v
    /\ forall e,
         is_Some (g_adj v !! e)
         <-> e ∈ Nx.edges g
             /\ selects g (translate_query_string_for_search query1) field1 e
             /\ selects g (translate_query_string_for_search query2) field2 e.
Proof.
  intros Hg H1 H2. unfold do_search in H1. rewrite Hg in H1.
  inv_bind H1. rename a into L1. injection H1 as <-.
  pose proof (get_filtered_list_selects _ _ _ _ Ha) as HL1.
  assert (Hsub1 : forall x, x ∈ L1 -> x ∈ Nx.edges g)
    by (intros x Hx; now apply HL1 in Hx).
  unfold do_search in H2.
  change (View.read h (View.edge_subgraph data L1))
    with (View.restrict (endpoints L1) (list_to_set L1) <$> View.read h data)
    in H2.
  rewrite Hg in H2. cbn [fmap option_fmap option_map] in H2.
  inv_bind H2. rename a into L2. injection H2 as <-.
  pose proof (get_filtered_list_selects _ _ _ _ Ha0) as HL2.
  exists (View.restrict (endpoints L2) (list_to_set L2)
            (View.restrict (endpoints L1) (list_to_set L1) g)).
  split.
  { change (View.read h (View.edge_subgraph (View.edge_subgraph data L1) L2))
      with (View.restrict (endpoints L2) (list_to_set L2)
              <$> (View.restrict (endpoints L1) (list_to_set L1)
                     <$> View.read h data)).
    now rewrite Hg. }
  intros e. rewrite restrict_adj.
  destruct (bool_decide (e ∈ L2)) eqn:E.
  - apply bool_decide_eq_true_1 in E. pose proof E as E'.
    apply HL2 in E' as [She Hsel]. apply edges_view in She; [|assumption].
    unfold selects in Hsel. rewrite field_value_view in Hsel by assumption.
    pose proof She as She'. apply HL1 in She' as [He1 Hsel1].
    split; [auto|]. intros _.
    rewrite restrict_adj, bool_decide_eq_true_2 by assumption.
    now apply elem_of_edges_data.
  - apply bool_decide_eq_false_1 in E. split; [intros [? ?]; discriminate|].
    intros (He & Hs1 & Hs2). exfalso. apply E. apply HL2.
    assert (He1 : e ∈ L1) by (apply HL1; auto).
    split; [now apply edges_view|].
    unfold selects. now rewrite field_value_view.
Qed.

Lemma search_within_search_witness :
  exists r1 r2 v,
    do_search (H := fragment) search_store (GObj 1) "ab*" "citing" = Return r1
    /\ do_search (H := fragment) search_store r1 "*c" "citing" = Return r2
    /\ View.read search_store r2 = Some v
    /\ (is_Some (g_adj v !! ("abc", "z"))
        <-> ("abc", "z") ∈ Nx.edges search_graph
            /\ selects (H := fragment) search_graph
                 (translate_query_string_for_search "ab*") "citing"
                 ("abc", "z")
            /\ selects (H := fragment) search_graph
                 (translate_query_string_for_search "*c") "citing"
                 ("abc", "z")).
Proof.
  destruct (do_search (H := fragment) search_store (GObj 1) "ab*" "citing")
    as [r1|] eqn:E1; [|vm_compute in E1; discriminate].
  destruct (do_search (H := fragment) search_store r1 "*c" "citing")
    as [r2|] eqn:E2;
    [|vm_compute in E1; injection E1 as <-; vm_compute in E2; discriminate].
  destruct (search_within_search (H := fragment) search_store (GObj 1)
              search_graph "ab*" "citing" "*c" "citing" r1 r2 eq_refl E1 E2)
    as (v & Hv & Hchar).
  exists r1, r2, v. split; [reflexivity|]. split; [exact E2|].
  split; [exact Hv|]. apply Hchar.
Defined.



(** X30. The impact factor does not depend on the order in which the documents
    of the set are met: on a graph of the data model, two lists of the same
    documents give the same result. *)
Theorem impact_factor_order data dois dois' year :
  well_formed data -> dated data -> dois ≡ₚ dois' ->
  do_compute_impact_factor data dois year
  = do_compute_impact_factor data dois' year.
Proof.
  intros Hwf Hd Hp. unfold do_compute_impact_factor.
  destruct (py_int year) as [y|]; [|reflexivity]. simpl.
  rewrite !impact_loop_spec by assumption.
  unfold published_before.
  rewrite (count_if_permutation _ dois dois') by assumption.
  now rewrite (foldr_add_permutation _ dois dois') by assumption.
Qed.

Lemma impact_factor_order_witness :
  do_compute_impact_factor sample_graph ["b"; "d"] (PInt 2021)
  = do_compute_impact_factor sample_graph ["d"; "b"] (PInt 2021).
Proof.
  apply impact_factor_order.
  - apply sample_graph_ingested.
  - apply sample_graph_dated.
  - apply Permutation_swap.
Defined.

(** * Search terms with characters that have a meaning in a pattern *)

Module WildcardFacts.
Import PyStr ReMatch ParseFacts GlobFacts CompileFacts TranslateFacts
  FragmentFacts.






(** ** Filling the placeholder *)




(** ** Reading the two literals of the call *)










(** ** Compiling the pattern *)




(** ** Matching *)






End WildcardFacts.

Import WildcardFacts.




